(** * soynlp: candidate lattice, overlap removal, lookup cache, noun filter

    A shallow embedding of
      - [soynlp/postagger/newstagger/_template.py]
        ([Eojeol], [LookupBuffer], [LRLookup], [TemplateLookup],
         [lr_lookup], [template_lookup], [remove_sub], [lemmatize],
         [check_tag], [get_tag]) and
      - [soynlp/pos/_pos.py]
        ([POSExtractor._remove_confused_nouns],
         [POSExtractor._is_noun_predicator_compound]).

    Conventions of the embedding.
      - A Python [str] is the list of its Unicode code points ([pystr]), so
        that [len] and slicing count characters as Python does.
      - Python [int]s are [Z].
      - A Python [dict] is an association list in insertion order with
        unique keys; a [set] is a list used only through membership.
      - A raised exception is the [Raise] branch of [result]. *)

From Stdlib Require Import List ZArith Lia Bool String Permutation Sorted.
Import ListNotations.
Local Open Scope Z_scope.

(** ** Python values *)

Abbreviation pystr := (list N).
Abbreviation tag := string.

Inductive pyerror : Type :=
| ValueError
| KeyError
| IndexError.

Inductive result (A : Type) : Type :=
| Ok (a : A)
| Raise (err : pyerror).
Arguments Ok {A} a.
Arguments Raise {A} err.

Definition bind {A B : Type} (c : result A) (k : A -> result B) : result B :=
  match c with
  | Ok a => k a
  | Raise err => Raise err
  end.

Notation "x <- c ;; k" := (bind c (fun x => k))
  (at level 61, c at next level, right associativity).

(** A [for] loop whose body may raise: the state is threaded left to right
    and the first exception leaves the loop. *)
Fixpoint for_each {A St : Type} (xs : list A) (body : A -> St -> result St)
  (st : St) : result St :=
  match xs with
  | [] => Ok st
  | x :: xs' => st' <- body x st ;; for_each xs' body st'
  end.

Fixpoint str_eqb (s t : pystr) : bool :=
  match s, t with
  | [], [] => true
  | c :: s', d :: t' => N.eqb c d && str_eqb s' t'
  | _, _ => false
  end.

Definition opt_tag_eqb (x y : option tag) : bool :=
  match x, y with
  | None, None => true
  | Some s, Some t => String.eqb s t
  | _, _ => false
  end.

(** [len(s)] *)
Definition len {A : Type} (s : list A) : Z := Z.of_nat (List.length s).

(** [range(lo, hi)] *)
Definition py_range (lo hi : Z) : list Z :=
  map (fun k => lo + Z.of_nat k) (seq 0 (Z.to_nat (hi - lo))).

(** [range(start, stop, -1)] *)
Definition py_range_down (start stop : Z) : list Z :=
  map (fun k => start - Z.of_nat k) (seq 0 (Z.to_nat (start - stop))).

(** Slice bounds as Python normalises them: a negative bound counts from the
    end, and every bound is clamped to [0, len]. *)
Definition clamp_index {A : Type} (s : list A) (i : Z) : nat :=
  Z.to_nat (Z.min (len s) (if i <? 0 then Z.max 0 (i + len s) else i)).

(** [s[lo:hi]], [s[:hi]], [s[lo:]] *)
Definition slice {A : Type} (s : list A) (lo hi : Z) : list A :=
  firstn (clamp_index s hi - clamp_index s lo) (skipn (clamp_index s lo) s).
Definition slice_to {A : Type} (s : list A) (hi : Z) : list A :=
  firstn (clamp_index s hi) s.
Definition slice_from {A : Type} (s : list A) (lo : Z) : list A :=
  skipn (clamp_index s lo) s.

(** [xs[i]]: a negative index counts from the end; outside [-len, len) the
    access raises IndexError. *)
Definition norm_index {A : Type} (xs : list A) (i : Z) : option nat :=
  if (0 <=? i) && (i <? len xs) then Some (Z.to_nat i)
  else if (- len xs <=? i) && (i <? 0) then Some (Z.to_nat (i + len xs))
  else None.

Definition getitem {A : Type} (xs : list A) (i : Z) : result A :=
  match norm_index xs i with
  | Some k => match nth_error xs k with
              | Some x => Ok x
              | None => Raise IndexError
              end
  | None => Raise IndexError
  end.

Fixpoint replace_nth {A : Type} (k : nat) (x : A) (xs : list A) : list A :=
  match xs, k with
  | [], _ => []
  | _ :: xs', O => x :: xs'
  | y :: xs', S k' => y :: replace_nth k' x xs'
  end.

(** [xs[i] = x] *)
Definition setitem {A : Type} (xs : list A) (i : Z) (x : A) : result (list A) :=
  match norm_index xs i with
  | Some k => Ok (replace_nth k x xs)
  | None => Raise IndexError
  end.

(** [xs[i].append(x)] and [xs[i] += ys] on a list of lists *)
Definition extend_at {A : Type} (xss : list (list A)) (i : Z) (ys : list A)
  : result (list (list A)) :=
  xs <- getitem xss i ;; setitem xss i (xs ++ ys).

Definition append_at {A : Type} (xss : list (list A)) (i : Z) (y : A)
  : result (list (list A)) :=
  extend_at xss i [y].

(** ** Segment records: [class Eojeol(namedtuple('Eojeol', 'w0 w1 t0 t1 b m e'))] *)

Record Eojeol : Type := mkEojeol {
  w0 : pystr;
  w1 : pystr;
  t0 : tag;
  t1 : option tag;
  b : Z;
  m : Z;
  e : Z
}.

Definition Eojeol_eqb (x y : Eojeol) : bool :=
  str_eqb (w0 x) (w0 y) && str_eqb (w1 x) (w1 y) &&
  String.eqb (t0 x) (t0 y) && opt_tag_eqb (t1 x) (t1 y) &&
  (b x =? b y) && (m x =? m y) && (e x =? e y).

(** Truth value of a string: [if self.w1:] *)
Definition truthy {A : Type} (s : list A) : bool :=
  match s with [] => false | _ => true end.

Abbreviation bucket := (list Eojeol).
Abbreviation lattice := (list (list Eojeol)).

(** ** Collaborators *)

(** The tag dictionary [pos_to_words]: tag name -> collection of words. *)
Abbreviation dictionary := (list (tag * list pystr)).

(** What [lemmatizer.lemmatize(word)] returns: [(w0, w1, t0, t1)] tuples. *)
Abbreviation analysis := (pystr * pystr * tag * option tag)%type.
Definition Lemmatizer := pystr -> list analysis.

(** Modelled from the spec: [soynlp.hangle.character_is_complete_korean] is
    not among the sources; the spec asks for complete Korean syllable
    characters, which are the code points U+AC00 .. U+D7A3. *)
Definition character_is_complete_korean (c : N) : bool :=
  ((44032 <=? c) && (c <=? 55203))%N.

Definition str_in (w : pystr) (ws : list pystr) : bool :=
  existsb (str_eqb w) ws.

(** [d.get(k, {})] on the tag dictionary *)
Fixpoint dict_get_words (d : dictionary) (k : tag) : list pystr :=
  match d with
  | [] => []
  | (k', ws) :: d' => if String.eqb k k' then ws else dict_get_words d' k
  end.

(** [def check_tag(word, tag, pos_to_words)] *)
Definition check_tag (word : pystr) (t : tag) (pos_to_words : dictionary) : bool :=
  str_in word (dict_get_words pos_to_words t).

(** [def get_tag(word, pos_to_words)] *)
Definition get_tag (word : pystr) (pos_to_words : dictionary) : list tag :=
  map fst (filter (fun tw => str_in word (snd tw)) pos_to_words).

(** ** [def lemmatize(word, lemmatizer, offset=0, ensure_hangle=False)] *)

Definition is_hangle (word : pystr) : bool :=
  forallb character_is_complete_korean word.

Definition lemmatize (word : pystr) (lemmatizer : Lemmatizer) (offset : Z)
  (ensure_hangle : bool) : list Eojeol :=
  if negb ensure_hangle && negb (is_hangle word) then []
  else map (fun a : analysis =>
              let '(a0, a1, u0, u1) := a in
              mkEojeol a0 a1 u0 u1 offset (offset + len a0) (offset + len word))
           (lemmatizer word).

(** ** [def lr_lookup(eojeol, lemmatizer, dic, offset=0)] *)

Definition Noun : tag := "Noun"%string.
Definition Josa : tag := "Josa"%string.

Definition lr_lookup_step (eojeol : pystr) (lemmatizer : Lemmatizer)
  (dic : dictionary) (offset : Z) (i : Z) (bindex : lattice) : result lattice :=
  let n := len eojeol in
  let l := slice_to eojeol i in
  let r := slice_from eojeol i in
  (* Noun + Josa *)
  bindex <- (if check_tag l Noun dic && check_tag r Josa dic
             then append_at bindex 0
                    (mkEojeol l r Noun (Some Josa) offset (offset + i) (offset + n))
             else Ok bindex) ;;
  let l_pred := lemmatize l lemmatizer offset false in
  let r_pred := lemmatize r lemmatizer (offset + i) false in
  (* Noun / Adjective / Verb + Adjective / Verb *)
  if (check_tag l Noun dic || truthy l_pred) && truthy r_pred then
    bindex <- (if check_tag l Noun dic
               then append_at bindex 0
                      (mkEojeol l [] Noun None offset (offset + i) (offset + i))
               else extend_at bindex 0 l_pred) ;;
    extend_at bindex i r_pred
  else Ok bindex.

Definition lr_lookup (eojeol : pystr) (lemmatizer : Lemmatizer)
  (dic : dictionary) (offset : Z) : result lattice :=
  let n := len eojeol in
  let bindex := map (fun _ => @nil Eojeol) (py_range 0 n) in
  (* Adjective or Verb *)
  let predicators := lemmatize eojeol lemmatizer offset false in
  bindex <- setitem bindex 0 predicators ;;
  for_each (py_range 1 (n + 1)) (lr_lookup_step eojeol lemmatizer dic offset) bindex.

(** ** [def remove_sub(bindex, offset=0)] *)

(** The inner loop of [exist_overlap_l] over one bucket. *)
Definition overlaps (lo hi : Z) (eojeol : Eojeol) : bool :=
  (lo <? m eojeol) && (b eojeol <? hi).

(** [exist_overlap_l(b, e, bindex)], the loop [for i in range(b, e)] being
    given as the list of its indices [idx]; the scan stops at the first
    overlapping record, and a bucket index out of range raises. *)
Fixpoint exist_overlap_scan (offset lo hi : Z) (bindex : lattice) (idx : list Z)
  : result bool :=
  match idx with
  | [] => Ok false
  | i :: idx' =>
      eojeols <- getitem bindex (i - offset) ;;
      if existsb (overlaps lo hi) eojeols then Ok true
      else exist_overlap_scan offset lo hi bindex idx'
  end.

Definition exist_overlap_l (offset lo hi : Z) (bindex : lattice) : result bool :=
  exist_overlap_scan offset lo hi bindex (py_range lo hi).

Abbreviation bm_entry := (Z * Z * tag)%type.
Abbreviation me_entry := (Z * Z * option tag)%type.

(** [skip(eojeol, bm_pair, me_pair)]; the two sets are only iterated for an
    existence test, so they are kept as lists. *)
Definition skip (eojeol : Eojeol) (bm_pair : list bm_entry) (me_pair : list me_entry)
  : bool :=
  existsb (fun p : bm_entry => let '(b', m', t) := p in
             negb (truthy (w1 eojeol)) && (b eojeol =? b') && (m eojeol =? m')
             && String.eqb (t0 eojeol) t) bm_pair
  || existsb (fun p : me_entry => let '(m', e', t) := p in
             truthy (w1 eojeol) && (m eojeol =? m') && (e eojeol <? e')
             && opt_tag_eqb (t1 eojeol) t) me_pair.

(** The body of the first inner loop of [remove_sub]: a two-part record
    whose right-hand span is not overlapped adds to [bm_pair] and [me_pair]. *)
Definition collect_step (offset : Z) (bindex : lattice) (eojeol : Eojeol)
  (st : list bm_entry * list me_entry) : result (list bm_entry * list me_entry) :=
  let '(bm_pair, me_pair) := st in
  let r_b := m eojeol in
  let r_e := e eojeol in
  if truthy (w1 eojeol) then
    ov <- exist_overlap_l offset r_b r_e bindex ;;
    if negb ov
    then Ok (bm_pair ++ [(b eojeol, r_b, t0 eojeol)],
             me_pair ++ [(r_b, r_e, t1 eojeol)])
    else Ok (bm_pair, me_pair)
  else Ok (bm_pair, me_pair).

Definition collect_pairs (offset : Z) (bindex : lattice) (eojeols : bucket)
  : result (list bm_entry * list me_entry) :=
  for_each eojeols (collect_step offset bindex) ([], []).

(** One round of [for b, eojeols in enumerate(bindex)]: the bucket is read
    from the list as it is now, and written back pruned ([bindex[b] = eojeols_]). *)
Definition remove_sub_step (offset : Z) (k : nat) (bindex : lattice) : result lattice :=
  match nth_error bindex k with
  | Some eojeols =>
      pairs <- collect_pairs offset bindex eojeols ;;
      let eojeols_ := filter (fun x => negb (skip x (fst pairs) (snd pairs))) eojeols in
      Ok (replace_nth k eojeols_ bindex)
  | None => Ok bindex
  end.

Definition remove_sub (bindex : lattice) (offset : Z) : result lattice :=
  for_each (seq 0 (List.length bindex)) (remove_sub_step offset) bindex.

(** ** [def template_lookup(eojeol, lemmatizer, dic, templates, max_len, offset=0)] *)

Abbreviation template := (list tag).
Abbreviation raw_span := (pystr * tag * Z * Z)%type.

(** [predicators.update(...)] on a set of records.  Python does not specify
    the order in which a set is iterated; the list keeps the records in the
    order of their first insertion, which is one of the orders the loop of
    [template_lookup] over [predicators] may take.  The order only decides
    how the added records are arranged at the end of a bucket: which
    records a bucket holds, and how many times, is the same for every
    order. *)
Definition set_add (x : Eojeol) (xs : list Eojeol) : list Eojeol :=
  if existsb (Eojeol_eqb x) xs then xs else xs ++ [x].

Definition set_update (xs ys : list Eojeol) : list Eojeol :=
  fold_left (fun acc y => set_add y acc) ys xs.

(** Step 1, string match: the raw tagged spans and the pending predicators. *)
Definition string_match (eojeol : pystr) (lemmatizer : Lemmatizer) (dic : dictionary)
  (max_len offset : Z) : result (list (list raw_span) * list Eojeol) :=
  let n := len eojeol in
  for_each (py_range 0 n)
    (fun lo => for_each (py_range (lo + 1) (Z.min (lo + max_len) n + 1))
       (fun hi (st : list (list raw_span) * list Eojeol) =>
          let '(bindex, predicators) := st in
          let sub := slice eojeol lo hi in
          let predicators :=
            set_update predicators (lemmatize sub lemmatizer (offset + lo) false) in
          bindex <- for_each (get_tag sub dic)
                      (fun tg bindex => append_at bindex lo (sub, tg, lo, hi)) bindex ;;
          Ok (bindex, predicators)))
    (map (fun _ => @nil raw_span) (py_range 0 n), []).

(** Step 2, the body of [for t in templates] for one raw span. *)
Definition apply_template (n offset : Z) (bindex : list (list raw_span))
  (span : raw_span) (t : template) (bindex_ : lattice) : result lattice :=
  let '(a0, u0, lo, hi) := span in
  match t with
  | [x0] =>
      if String.eqb u0 x0
      then append_at bindex_ lo
             (mkEojeol a0 [] u0 None (offset + lo) (offset + hi) (offset + hi))
      else Ok bindex_
  | [x0; x1] =>
      if (hi <? n) && String.eqb u0 x0 then
        morphs <- getitem bindex hi ;;
        for_each morphs
          (fun (right : raw_span) bindex_ =>
             let '(a1, u1, mid, hi_) := right in
             if String.eqb u1 x1
             then append_at bindex_ lo
                    (mkEojeol a0 a1 u0 (Some u1)
                       (offset + lo) (offset + mid) (offset + hi_))
             else Ok bindex_)
          bindex_
      else Ok bindex_
  | _ => Ok bindex_
  end.

Definition as_eojeol (n offset : Z) (bindex : list (list raw_span))
  (templates : list template) : result lattice :=
  for_each bindex
    (fun morphs => for_each morphs
       (fun span => for_each templates
          (fun t => apply_template n offset bindex span t)))
    (map (fun _ => @nil Eojeol) (py_range 0 n)).

(** Step 4, [for word in predicators: bindex_[word.b-offset].append(word)]. *)
Definition add_predicators (offset : Z) (predicators : list Eojeol) (bindex_ : lattice)
  : result lattice :=
  for_each predicators (fun word bindex_ => append_at bindex_ (b word - offset) word)
    bindex_.

(** The lattice handed to [remove_sub] (steps 1 and 2). *)
Definition template_candidates (eojeol : pystr) (lemmatizer : Lemmatizer)
  (dic : dictionary) (templates : list template) (max_len offset : Z)
  : result lattice :=
  st <- string_match eojeol lemmatizer dic max_len offset ;;
  as_eojeol (len eojeol) offset (fst st) templates.

Definition template_lookup (eojeol : pystr) (lemmatizer : Lemmatizer)
  (dic : dictionary) (templates : list template) (max_len offset : Z)
  : result lattice :=
  let n := len eojeol in
  (* string match *)
  st <- string_match eojeol lemmatizer dic max_len offset ;;
  (* as Eojeol *)
  bindex_ <- as_eojeol n offset (fst st) templates ;;
  (* remove overlapped subwords *)
  bindex_ <- remove_sub bindex_ offset ;;
  (* add predicators *)
  add_predicators offset (snd st) bindex_.

(** ** Sentences *)

(** Characters on which [str.split()] separates (Python's [str.isspace]). *)
Definition is_space (c : N) : bool :=
  (((9 <=? c) && (c <=? 13)) || ((28 <=? c) && (c <=? 32)) || (c =? 133)
   || (c =? 160) || (c =? 5760) || ((8192 <=? c) && (c <=? 8202))
   || (c =? 8232) || (c =? 8233) || (c =? 8239) || (c =? 8287) || (c =? 12288))%N.

(** [s.split()]: the maximal runs of non-space characters; [cur] is the
    token being read, last character first. *)
Fixpoint split_acc (s : pystr) (cur : pystr) : list pystr :=
  match s with
  | [] => match cur with [] => [] | _ => [rev cur] end
  | c :: s' =>
      if is_space c
      then match cur with
           | [] => split_acc s' []
           | _ => rev cur :: split_acc s' []
           end
      else split_acc s' (c :: cur)
  end.

Definition split (s : pystr) : list pystr := split_acc s [].

(** Modelled from the spec: [soynlp.normalizer.remove_doublespace] is not
    among the sources; the spec describes it as collapsing consecutive
    multiple spaces to one. *)
Fixpoint remove_doublespace (s : pystr) : pystr :=
  match s with
  | [] => []
  | c :: s' =>
      match s' with
      | d :: _ => if (c =? 32)%N && (d =? 32)%N then remove_doublespace s'
                  else c :: remove_doublespace s'
      | [] => [c]
      end
  end.

(** The body shared by [LRLookup.sentence_lookup] (inherited by
    [TemplateLookup]): [sent += self.eojeol_lookup(eojeol, len(sent))]. *)
Definition sentence_lookup_with (eojeol_lookup : pystr -> Z -> result lattice)
  (sentence : pystr) : result lattice :=
  let sentence := remove_doublespace sentence in
  for_each (split sentence)
    (fun eojeol sent => r <- eojeol_lookup eojeol (len sent) ;; Ok (sent ++ r))
    [].

(** ** [class LRLookup] and [class TemplateLookup(LRLookup)] *)

Record LRLookup : Type := mkLRLookup {
  pos_to_words : dictionary;
  max_word_len : Z;
  formal_text : bool;
  lemmatizer_of : Lemmatizer
}.

(** [d[k]] on the tag dictionary *)
Fixpoint dict_getitem (d : dictionary) (k : tag) : result (list pystr) :=
  match d with
  | [] => Raise KeyError
  | (k', ws) :: d' => if String.eqb k k' then Ok ws else dict_getitem d' k
  end.

(** The constructor of [soynlp.lemmatizer.Lemmatizer], an external class:
    adjectives, verbs, eomis and the [formal_text] flag. *)
Definition LemmatizerClass := list pystr -> list pystr -> list pystr -> bool -> Lemmatizer.

(** [LRLookup._set_lemmatizer] *)
Definition _set_lemmatizer (new_lemmatizer : LemmatizerClass)
  (pos_to_words : dictionary) (formal_text : bool) : result Lemmatizer :=
  adjectives <- dict_getitem pos_to_words "Adjective"%string ;;
  verbs <- dict_getitem pos_to_words "Verb"%string ;;
  eomis <- dict_getitem pos_to_words "Eomi"%string ;;
  Ok (new_lemmatizer adjectives verbs eomis formal_text).

(** [max(len(word) for word in words)] on a non-empty collection *)
Definition max_len_of (word : pystr) (words : list pystr) : Z :=
  fold_left (fun acc w => Z.max acc (len w)) words (len word).

(** [LRLookup._check_max_word_len]; the result is the new [self.max_word_len]. *)
Definition _check_max_word_len (pos_to_words : dictionary) (max_word_len : Z)
  : result Z :=
  match pos_to_words with
  | [] => Raise ValueError
  | _ =>
      Ok (fold_left
            (fun acc (entry : tag * list pystr) =>
               match snd entry with
               | [] => acc
               | word :: words => Z.max (max_len_of word words) acc
               end)
            pos_to_words max_word_len)
  end.

(** [LRLookup.__init__(self, pos_to_words, max_word_len=0, lemmatizer=None)];
    [self.formal_text = True] is assigned before the lemmatizer is set. *)
Definition LRLookup_init (new_lemmatizer : LemmatizerClass)
  (pos_to_words : dictionary) (max_word_len : Z) (lemmatizer : option Lemmatizer)
  : result LRLookup :=
  let formal_text := true in
  lem <- match lemmatizer with
         | None => _set_lemmatizer new_lemmatizer pos_to_words formal_text
         | Some lem => Ok lem
         end ;;
  max_word_len <- (if max_word_len =? 0
                   then _check_max_word_len pos_to_words max_word_len
                   else Ok max_word_len) ;;
  Ok (mkLRLookup pos_to_words max_word_len formal_text lem).

(** [LRLookup.eojeol_lookup] and [LRLookup.sentence_lookup] *)
Definition LRLookup_eojeol_lookup (self : LRLookup) (eojeol : pystr) (offset : Z)
  : result lattice :=
  lr_lookup eojeol (lemmatizer_of self) (pos_to_words self) offset.

Definition LRLookup_sentence_lookup (self : LRLookup) (sentence : pystr)
  : result lattice :=
  sentence_lookup_with (LRLookup_eojeol_lookup self) sentence.

Record TemplateLookup : Type := mkTemplateLookup {
  base : LRLookup;
  templates_of : list template
}.

Definition template_eqb (s t : template) : bool :=
  (List.length s =? List.length t)%nat
  && forallb (fun p => String.eqb (fst p) (snd p)) (combine s t).

(** [set(templates)], first occurrences kept *)
Fixpoint dedup_templates (ts : list template) : list template :=
  match ts with
  | [] => []
  | t :: ts' =>
      t :: filter (fun u => negb (template_eqb t u)) (dedup_templates ts')
  end.

(** Stable insertion by [len], for [sorted(..., key=lambda x:len(x))] *)
Fixpoint insert_by_len (t : template) (ts : list template) : list template :=
  match ts with
  | [] => [t]
  | u :: ts' => if len t <=? len u then t :: ts else u :: insert_by_len t ts'
  end.

(** [TemplateLookup._template_format_check] *)
Definition _template_format_check (templates : list template) : result (list template) :=
  if existsb (fun t => 2 <? len t) templates then Raise ValueError
  else Ok (fold_right insert_by_len [] (dedup_templates templates)).

Definition default_templates : list template :=
  [ [Noun]; ["Pronoun"]; ["Adverb"]; ["Exclamation"];
    [Noun; Josa]; ["Pronoun"; Josa]; ["Adverb"; Josa] ]%string.

(** [TemplateLookup.__init__(self, pos_to_words, templates=None,
    formal_text=False, lemmatizer=None)]: the base constructor is called
    without [max_word_len], so the length is always derived; it also
    overwrites the [formal_text] attribute assigned just before. *)
Definition TemplateLookup_init (new_lemmatizer : LemmatizerClass)
  (pos_to_words : dictionary) (templates : option (list template))
  (formal_text : bool) (lemmatizer : option Lemmatizer) : result TemplateLookup :=
  self <- LRLookup_init new_lemmatizer pos_to_words 0 lemmatizer ;;
  let templates := match templates with
                   | None => default_templates
                   | Some ts => ts
                   end in
  templates <- _template_format_check templates ;;
  Ok (mkTemplateLookup self templates).

Definition TemplateLookup_eojeol_lookup (self : TemplateLookup) (eojeol : pystr)
  (offset : Z) : result lattice :=
  template_lookup eojeol (lemmatizer_of (base self)) (pos_to_words (base self))
    (templates_of self) (max_word_len (base self)) offset.

Definition TemplateLookup_sentence_lookup (self : TemplateLookup) (sentence : pystr)
  : result lattice :=
  sentence_lookup_with (TemplateLookup_eojeol_lookup self) sentence.

(** ** [class LookupBuffer] *)

(** The wrapped strategy ([self.lookup]) is an object of its own: a call of
    its [eojeol_lookup] may return or raise, and may change the object's
    state [St]. *)
Definition Strategy (St : Type) := pystr -> Z -> St -> result lattice * St.

Record LookupBuffer : Type := mkLookupBuffer {
  buffer : list (pystr * lattice);
  _buffer_counter : list (pystr * Z)
}.

(** [d.get(k, default)], [k in d], [d[k]] and [d[k] = v] on a dict keyed by
    strings; a new key is appended, an existing key keeps its position. *)
Fixpoint dict_get {V : Type} (d : list (pystr * V)) (k : pystr) (default : V) : V :=
  match d with
  | [] => default
  | (k', v) :: d' => if str_eqb k k' then v else dict_get d' k default
  end.

Definition dict_mem {V : Type} (d : list (pystr * V)) (k : pystr) : bool :=
  existsb (fun kv => str_eqb k (fst kv)) d.

Fixpoint dict_lookup {V : Type} (d : list (pystr * V)) (k : pystr) : result V :=
  match d with
  | [] => Raise KeyError
  | (k', v) :: d' => if str_eqb k k' then Ok v else dict_lookup d' k
  end.

Fixpoint dict_set {V : Type} (d : list (pystr * V)) (k : pystr) (v : V)
  : list (pystr * V) :=
  match d with
  | [] => [(k, v)]
  | (k', v') :: d' =>
      if str_eqb k k' then (k', v) :: d' else (k', v') :: dict_set d' k v
  end.

(** [LookupBuffer.__init__(self, lookup, preanalyzed=None)] *)
Definition LookupBuffer_init (preanalyzed : option (list (pystr * lattice)))
  : LookupBuffer :=
  let preanalyzed := match preanalyzed with
                     | None => []
                     | Some d => d
                     end in
  mkLookupBuffer preanalyzed (map (fun kv => (fst kv, 0)) preanalyzed).

(** [LookupBuffer.eojeol_lookup(self, eojeol, offset=0)] *)
Definition eojeol_lookup {St : Type} (lookup : Strategy St) (self : LookupBuffer)
  (eojeol : pystr) (offset : Z) (st : St) : result lattice * LookupBuffer * St :=
  let count := dict_get (_buffer_counter self) eojeol 0 in
  if count =? 0 then
    match lookup eojeol offset st with
    | (Ok res, st') =>
        (Ok res,
         mkLookupBuffer (dict_set (buffer self) eojeol res)
                        (dict_set (_buffer_counter self) eojeol (count + 1)),
         st')
    | (Raise err, st') => (Raise err, self, st')
    end
  else
    match dict_lookup (buffer self) eojeol with
    | Ok res =>
        (Ok res,
         mkLookupBuffer (buffer self)
                        (dict_set (_buffer_counter self) eojeol (count + 1)),
         st)
    | Raise err => (Raise err, self, st)
    end.

(** [LookupBuffer.sentence_lookup(self, sentence)] *)
Fixpoint sentence_lookup_loop {St : Type} (lookup : Strategy St)
  (eojeols : list pystr) (sent : lattice) (self : LookupBuffer) (st : St)
  : result lattice * LookupBuffer * St :=
  match eojeols with
  | [] => (Ok sent, self, st)
  | eojeol :: rest =>
      match eojeol_lookup lookup self eojeol (len sent) st with
      | (Ok res, self', st') => sentence_lookup_loop lookup rest (sent ++ res) self' st'
      | (Raise err, self', st') => (Raise err, self', st')
      end
  end.

Definition sentence_lookup {St : Type} (lookup : Strategy St) (self : LookupBuffer)
  (sentence : pystr) (st : St) : result lattice * LookupBuffer * St :=
  let sentence := remove_doublespace sentence in
  sentence_lookup_loop lookup (split sentence) [] self st.

(** Stable insertion for [sorted(items, key=lambda x:-x[1])]: an entry stays
    in front of the later entries that have the same count. *)
Fixpoint insert_by_count (x : pystr * Z) (xs : list (pystr * Z)) : list (pystr * Z) :=
  match xs with
  | [] => [x]
  | y :: xs' => if - snd x <=? - snd y then x :: xs else y :: insert_by_count x xs'
  end.

Definition sorted_by_count (items : list (pystr * Z)) : list (pystr * Z) :=
  fold_right insert_by_count [] items.

(** [LookupBuffer.compatify_buffer(self, topk=100000)] *)
Definition compatify_buffer (self : LookupBuffer) (topk : Z) : LookupBuffer :=
  if len (_buffer_counter self) <=? topk then self
  else
    let counter := slice_to (sorted_by_count (_buffer_counter self)) topk in
    mkLookupBuffer
      (filter (fun kv => dict_mem counter (fst kv)) (buffer self))
      counter.

(** A strategy object without state of its own, as [LRLookup] and
    [TemplateLookup] are. *)
Definition stateless (f : pystr -> Z -> result lattice) : Strategy unit :=
  fun eojeol offset st => (f eojeol offset, st).

(** A strategy object that also records the calls it receives. *)
Definition logging (f : pystr -> Z -> result lattice) : Strategy (list (pystr * Z)) :=
  fun eojeol offset calls => (f eojeol offset, calls ++ [(eojeol, offset)]).

(** ** [POSExtractor._is_noun_predicator_compound] *)

Section POSExtractor.
Context {score : Type}.
(** [nouns] maps a noun to its score; [predicators], [_pos_features] and
    [_common_features] are used through [in] only. *)
Variable nouns : list (pystr * score).
Variable predicators : list pystr.
Variable _pos_features : list pystr.
Variable _common_features : list pystr.

Definition is_pos_feature (r : pystr) : bool :=
  str_in r predicators || str_in r _pos_features || str_in r _common_features.

Definition is_noun_josa (prefix : pystr) : bool :=
  dict_mem nouns prefix
  || existsb (fun i => let l := slice_to prefix i in
                       let r := slice_from prefix i in
                       dict_mem nouns l && is_pos_feature r)
             (py_range 2 (len prefix)).

Definition _is_noun_predicator_compound (noun : pystr) : bool :=
  if str_in noun predicators then true
  else
    let n := len noun in
    existsb (fun i => let prefix := slice_to noun i in
                      let suffix := slice_from noun i in
                      (str_in prefix predicators && str_in suffix predicators)
                      || (is_noun_josa prefix && str_in suffix predicators))
            (py_range_down (-1) (- n + 1)).

(** [POSExtractor._remove_confused_nouns]: [(nouns_, removals, predicators)] *)
Definition _remove_confused_nouns
  : list (pystr * score) * list (pystr * score) * list pystr :=
  (filter (fun ns => negb (_is_noun_predicator_compound (fst ns))) nouns,
   filter (fun ns => _is_noun_predicator_compound (fst ns)) nouns,
   predicators).
End POSExtractor.

(** ** Notions used to state the properties *)

(** Order of [sorted(..., key=lambda x:-x[1])]: larger counts first. *)
Definition by_count_desc (x y : pystr * Z) : Prop := snd y <= snd x.

(** A cache whose two dicts have the same keys, as every buffer reached
    from [LookupBuffer.__init__] through [eojeol_lookup] has. *)
Definition cache_wf (self : LookupBuffer) : Prop :=
  NoDup (map fst (buffer self))
  /\ NoDup (map fst (_buffer_counter self))
  /\ forall k, In k (map fst (buffer self)) <-> In k (map fst (_buffer_counter self)).

(** The length of the longest word of the dictionary, all tags together
    (0 when it has no word). *)
Definition longest_word (dic : dictionary) : Z :=
  fold_right Z.max 0 (map len (flat_map snd dic)).

(** The decision of the disambiguator in words: [prefix] splits into a
    known noun of at least [min_left] characters followed by a predicator
    or a domain/common feature string. *)
Definition decomposable {score : Type} (min_left : Z) (nouns : list (pystr * score))
  (predicators pos_features common_features : list pystr) (prefix : pystr) : Prop :=
  exists l r,
    prefix = l ++ r /\ min_left <= len l /\ 1 <= len r
    /\ In l (map fst nouns)
    /\ (In r predicators \/ In r pos_features \/ In r common_features).

(** [w] is a predicator, or splits, with a suffix of length at least 1 and
    less than [len w - 1], into two predicators or into a prefix that is a
    noun or decomposable and a suffix that is a predicator. *)
Definition compound_when {score : Type} (min_left : Z) (nouns : list (pystr * score))
  (predicators pos_features common_features : list pystr) (w : pystr) : Prop :=
  In w predicators
  \/ exists prefix suffix,
       w = prefix ++ suffix
       /\ 1 <= len suffix < len w - 1
       /\ ((In prefix predicators /\ In suffix predicators)
           \/ ((In prefix (map fst nouns)
                \/ decomposable min_left nouns predicators pos_features
                     common_features prefix)
               /\ In suffix predicators)).

(** The reading of "non-overlapped" that looks at the whole lattice: no
    other record, in whatever bucket, begins before [e x] and has its mid
    after [m x]. *)
Definition no_straddler_anywhere (bindex : lattice) (x : Eojeol) : Prop :=
  forall eojeols y,
    In eojeols bindex -> In y eojeols -> y <> x ->
    ~ (b y < e x /\ m x < m y).

(** [bindex'] has the buckets of [bindex], each with its records and
    possibly more. *)
Definition grows (bindex bindex' : lattice) : Prop :=
  List.length bindex' = List.length bindex
  /\ forall k x, In x (nth k bindex []) -> In x (nth k bindex' []).

(** What [lr_lookup] adds at the split point [i] when the left part is a
    dictionary noun and the right part has predicate analyses: the one-part
    noun record in bucket 0, the analyses of the right part in bucket [i]. *)
Definition noun_split_recorded (eojeol : pystr) (lemmatizer : Lemmatizer)
  (dic : dictionary) (offset : Z) (bindex : lattice) (i : Z) : Prop :=
  let l := slice_to eojeol i in
  let r_pred := lemmatize (slice_from eojeol i) lemmatizer (offset + i) false in
  check_tag l Noun dic = true -> r_pred <> [] ->
  In (mkEojeol l [] Noun None offset (offset + i) (offset + i)) (nth 0 bindex [])
  /\ forall x, In x r_pred -> In x (nth (Z.to_nat i) bindex []).

(** The invariant of a segment record: [begin <= mid <= end], and the right
    text is empty iff the right tag is absent iff [mid = end]. *)
Definition segment_invariant (x : Eojeol) : Prop :=
  b x <= m x <= e x
  /\ (w1 x = [] <-> t1 x = None)
  /\ (t1 x = None <-> m x = e x).

(** A lemmatizer whose analyses fit the invariant: the stem is no longer
    than the analysed word, and the ending is empty iff its tag is absent
    iff the stem has the length of the word. *)
Definition analyses_fit (lemmatizer : Lemmatizer) : Prop :=
  forall word a0 a1 u0 u1,
    In (a0, a1, u0, u1) (lemmatizer word) ->
    len a0 <= len word
    /\ (a1 = [] <-> u1 = None)
    /\ (u1 = None <-> len a0 = len word).

(** Every record of every bucket satisfies [P]. *)
Definition all_records (P : Eojeol -> Prop) (bindex : lattice) : Prop :=
  forall eojeols x, In eojeols bindex -> In x eojeols -> P x.

(** The raw spans of step 1: bucket [k] holds spans [(sub, tag, lo, hi)]
    with [lo = k], [lo < hi <= len eojeol] and [sub] of length [hi - lo]. *)
Definition raw_wf (n : Z) (raw : list (list raw_span)) : Prop :=
  len raw = n
  /\ forall k a u lo hi,
       In (a, u, lo, hi) (nth k raw []) ->
       lo = Z.of_nat k /\ lo < hi <= n /\ len a = hi - lo.

(** A record as step 2 builds it for bucket [k] of a token of [n]
    characters: it begins at [offset + k], its left part is not empty, it
    ends within the token, and it satisfies the segment invariant. *)
Definition record_wf (offset n : Z) (k : nat) (x : Eojeol) : Prop :=
  b x = offset + Z.of_nat k
  /\ b x < m x
  /\ m x <= e x <= offset + n
  /\ (w1 x = [] <-> t1 x = None)
  /\ (t1 x = None <-> m x = e x).

Definition lattice_wf (offset : Z) (bindex : lattice) : Prop :=
  forall k x, In x (nth k bindex []) -> record_wf offset (len bindex) k x.

(** The pending predicators of step 1: each is an analysis of a substring
    that starts inside the token. *)
Definition predicators_wf (eojeol : pystr) (lemmatizer : Lemmatizer) (offset : Z)
  (predicators : list Eojeol) : Prop :=
  forall x, In x predicators ->
    exists lo hi, 0 <= lo < len eojeol
      /\ In x (lemmatize (slice eojeol lo hi) lemmatizer (offset + lo) false).

(** What step 2 maintains while it fills the lattice of a token of [n]
    characters. *)
Definition candidates_inv (n offset : Z) (bindex_ : lattice) : Prop :=
  len bindex_ = n /\ lattice_wf offset bindex_.

(** Some bucket with index [i - offset], [lo <= i < hi], holds a record. *)
Definition span_occupied (offset lo hi : Z) (bindex : lattice) : bool :=
  existsb (fun i => truthy (nth (Z.to_nat (i - offset)) bindex [])) (py_range lo hi).

Definition occupied (offset : Z) (bindex : lattice) (x : Eojeol) : bool :=
  span_occupied offset (m x) (e x) bindex.

(** The entries a record adds to [bm_pair] and [me_pair]. *)
Definition bm_of (x : Eojeol) : bm_entry := (b x, m x, t0 x).
Definition me_of (x : Eojeol) : me_entry := (m x, e x, t1 x).

(** A two-part record whose right-hand span is not overlapped. *)
Definition contributes (occ : Eojeol -> bool) (x : Eojeol) : bool :=
  truthy (w1 x) && negb (occ x).

(** What one round of [remove_sub] leaves of a bucket, [occ] telling which
    right-hand spans are overlapped. *)
Definition prune_bucket (occ : Eojeol -> bool) (eojeols : bucket) : bucket :=
  let cs := filter (contributes occ) eojeols in
  filter (fun x => negb (skip x (map bm_of cs) (map me_of cs))) eojeols.

(** The tokens looked up one after the other, each at the offset that
    counts the characters of the tokens before it. *)
Fixpoint lookup_tokens (eojeol_lookup : pystr -> Z -> result lattice)
  (eojeols : list pystr) (offset : Z) : result lattice :=
  match eojeols with
  | [] => Ok []
  | eojeol :: rest =>
      r <- eojeol_lookup eojeol offset ;;
      rs <- lookup_tokens eojeol_lookup rest (offset + len eojeol) ;;
      Ok (r ++ rs)
  end.

(** The text a record covers, read as positions in [sentence]. *)
Definition covered_text (sentence : pystr) (x : Eojeol) : pystr :=
  slice sentence (b x) (e x).

(** ** Fixtures used by the examples *)

Module Fixtures.
(* 사람, 이다, 이, 다 *)
Definition saram : pystr := [49324; 46988]%N.
Definition ida : pystr := [51060; 45796]%N.
Definition i_ : pystr := [51060]%N.
Definition da : pystr := [45796]%N.
(* 나, 는, 가, 라, 해, 하, 아 *)
Definition na : pystr := [45208]%N.
Definition neun : pystr := [45716]%N.
Definition ga : pystr := [44032]%N.
Definition ra : pystr := [46972]%N.
Definition hae : pystr := [54644]%N.
Definition ha : pystr := [54616]%N.
Definition a_ : pystr := [50500]%N.
Definition space : pystr := [32]%N.

Definition saram_dic : dictionary := [(Noun, [saram])].
Definition na_neun_dic : dictionary := [(Noun, [na]); (Josa, [neun])].

(** A lemmatizer that knows nothing. *)
Definition no_lemmatizer : Lemmatizer := fun _ => [].

(** A lemmatizer that analyses 이다 as 이/Adjective + 다/Eomi and nothing else. *)
Definition ida_lemmatizer : Lemmatizer :=
  fun word => if str_eqb word ida
              then [(i_, da, "Adjective"%string, Some "Eomi"%string)]
              else [].

(** A lemmatizer that analyses 해 as 하/Verb + 아/Eomi and nothing else. *)
Definition hae_lemmatizer : Lemmatizer :=
  fun word => if str_eqb word hae
              then [(ha, a_, "Verb"%string, Some "Eomi"%string)]
              else [].

Definition no_lemmatizer_class : LemmatizerClass := fun _ _ _ _ => no_lemmatizer.

(** A cache of three tokens, looked up once, three times and twice. *)
Definition three_tokens : LookupBuffer :=
  mkLookupBuffer [(na, [[]]); (neun, [[]]); (ga, [[]])]
                 [(na, 1); (neun, 3); (ga, 2)].

(** Noun candidates 가나다 and 가, the predicator 다, the feature 나. *)
Definition ganada : pystr := ga ++ na ++ da.
Definition noun_scores : list (pystr * Z) := [(ganada, 1); (ga, 1)].
Definition da_predicators : list pystr := [da].
Definition na_features : list pystr := [na].

(** The token 가나다라 with the nouns 가나 and 나다 and the particle 다라. *)
Definition ganadara : pystr := ga ++ na ++ da ++ ra.
Definition ganadara_dic : dictionary :=
  [(Noun, [ga ++ na; na ++ da]); (Josa, [da ++ ra])].
Definition gana_dara : Eojeol :=
  mkEojeol (ga ++ na) (da ++ ra) Noun (Some Josa) 0 2 4.
Definition nada : Eojeol := mkEojeol (na ++ da) [] Noun None 1 3 3.

(** The LR strategy over the dictionary 나/Noun, 는/Josa, as the object a
    [LookupBuffer] wraps. *)
Definition na_neun_strategy : Strategy unit :=
  stateless (fun eojeol offset => lr_lookup eojeol no_lemmatizer na_neun_dic offset).

(** The sentence 나는 나는 and the LR strategy that reads it. *)
Definition na_neun_twice : pystr := na ++ neun ++ space ++ na ++ neun.
Definition na_neun_lookup : LRLookup := mkLRLookup na_neun_dic 1 true no_lemmatizer.
Definition second_na_neun : Eojeol := mkEojeol na neun Noun (Some Josa) 2 3 4.

(** A dictionary with a tag and no word. *)
Definition wordless_dic : dictionary := [(Noun, [])].

End Fixtures.


(** ** Notions used to state the further properties *)

(** When [lr_lookup] cannot finish: the token is empty, or the lemmatizer
    analyses the empty string while the whole token is a noun or has an
    analysis of its own (the last split then reaches for bucket [n]). *)
Definition lr_lookup_blocked (eojeol : pystr) (lemmatizer : Lemmatizer)
  (dic : dictionary) (offset : Z) : Prop :=
  eojeol = []
  \/ (lemmatizer [] <> []
      /\ (check_tag eojeol Noun dic = true
          \/ lemmatize eojeol lemmatizer offset false <> [])).


(** Where a record of bucket [k] of [lr_lookup] comes from: it is anchored
    at [offset + k], and it is an analysis of a prefix of the token (bucket
    0) or of the suffix that starts at [k], or, in bucket 0, the record of a
    split into a dictionary noun and a particle, or the one-part record of a
    dictionary noun that is followed by an analysed suffix. *)
Definition lr_source (eojeol : pystr) (lemmatizer : Lemmatizer) (dic : dictionary)
  (offset : Z) (k : nat) (x : Eojeol) : Prop :=
  b x = offset + Z.of_nat k
  /\ ((exists word,
         ((k = 0%nat /\ exists i, word = slice_to eojeol i)
          \/ word = slice_from eojeol (Z.of_nat k))
         /\ In x (lemmatize word lemmatizer (offset + Z.of_nat k) false))
      \/ (k = 0%nat
          /\ exists i,
               1 <= i <= len eojeol
               /\ check_tag (slice_to eojeol i) Noun dic = true
               /\ ((check_tag (slice_from eojeol i) Josa dic = true
                    /\ x = mkEojeol (slice_to eojeol i) (slice_from eojeol i) Noun
                           (Some Josa) offset (offset + i) (offset + len eojeol))
                   \/ (lemmatize (slice_from eojeol i) lemmatizer (offset + i) false
                       <> []
                       /\ x = mkEojeol (slice_to eojeol i) [] Noun None offset
                              (offset + i) (offset + i))))).


(** A raw span of step 1 as the dictionary justifies it: it sits in the
    bucket of its start, is no longer than [max_len], carries the substring
    it delimits and a tag under which the dictionary lists that substring. *)
Definition raw_sound_at (eojeol : pystr) (dic : dictionary) (max_len : Z)
  (k : nat) (span : raw_span) : Prop :=
  let '(a, u, lo, hi) := span in
  lo = Z.of_nat k
  /\ lo < hi <= len eojeol
  /\ hi - lo <= max_len
  /\ a = slice eojeol lo hi
  /\ In u (get_tag a dic).

(** A record of bucket [k] that step 2 of [template_lookup] justifies: a
    dictionary word under a one-tag template, or two adjacent dictionary
    words under a two-tag template, each no longer than [max_len]. *)
Definition dictionary_source (eojeol : pystr) (dic : dictionary)
  (templates : list template) (max_len offset : Z) (k : nat) (x : Eojeol) : Prop :=
  let lo := Z.of_nat k in
  (exists hi u,
     lo < hi <= len eojeol /\ hi - lo <= max_len
     /\ In u (get_tag (slice eojeol lo hi) dic)
     /\ In [u] templates
     /\ x = mkEojeol (slice eojeol lo hi) [] u None
              (offset + lo) (offset + hi) (offset + hi))
  \/ (exists mid hi u0 u1,
        lo < mid /\ mid < hi <= len eojeol
        /\ mid - lo <= max_len /\ hi - mid <= max_len
        /\ In u0 (get_tag (slice eojeol lo mid) dic)
        /\ In u1 (get_tag (slice eojeol mid hi) dic)
        /\ In [u0; u1] templates
        /\ x = mkEojeol (slice eojeol lo mid) (slice eojeol mid hi) u0 (Some u1)
                 (offset + lo) (offset + mid) (offset + hi)).

(** A record of bucket [k] that step 1 of [template_lookup] collected: an
    analysis of a substring that starts at [k] and is no longer than
    [max_len]. *)
Definition analysis_source (eojeol : pystr) (lemmatizer : Lemmatizer)
  (max_len offset : Z) (k : nat) (x : Eojeol) : Prop :=
  exists hi,
    Z.of_nat k < hi <= len eojeol /\ hi - Z.of_nat k <= max_len
    /\ In x (lemmatize (slice eojeol (Z.of_nat k) hi) lemmatizer
               (offset + Z.of_nat k) false).


(** No bucket that starts inside the right-hand span of [y] holds a record. *)
Definition right_span_free (offset : Z) (bindex : lattice) (y : Eojeol) : Prop :=
  forall i, m y <= i < e y -> nth (Z.to_nat (i - offset)) bindex [] = [].

(** The pruning rule: [x], of bucket [k], is dominated when the bucket
    holds a two-part record [y] with a free right-hand span and the split
    point of [x] such that either [x] is one-part with the left tag of [y],
    or [x] is two-part with the right tag of [y] and ends before [y]. *)
Definition dominated (offset : Z) (bindex : lattice) (k : nat) (x : Eojeol) : Prop :=
  exists y,
    In y (nth k bindex [])
    /\ w1 y <> []
    /\ right_span_free offset bindex y
    /\ m y = m x
    /\ ((w1 x = [] /\ t0 y = t0 x)
        \/ (w1 x <> [] /\ t1 y = t1 x /\ e x < e y)).


(** The use counts of a cache are never negative. *)
Definition counts_nonneg (self : LookupBuffer) : Prop :=
  forall t, 0 <= dict_get (_buffer_counter self) t 0.

(** How often [t] occurs among the tokens. *)
Definition occurrences (t : pystr) (eojeols : list pystr) : Z :=
  len (filter (str_eqb t) eojeols).

(** The tokens that are not in [seen] when they first occur, in order. *)
Fixpoint first_seen (seen : list pystr) (eojeols : list pystr) : list pystr :=
  match eojeols with
  | [] => []
  | t :: rest =>
      if str_in t seen then first_seen seen rest
      else t :: first_seen (t :: seen) rest
  end.


(** What the loop of the cached [sentence_lookup] relies on: counts are not
    negative, [seen] lists the tokens with a count, and a token with a count
    has a stored result. *)
Definition cache_tracks (seen : list pystr) (self : LookupBuffer) : Prop :=
  counts_nonneg self
  /\ (forall t, str_in t seen = negb (dict_get (_buffer_counter self) t 0 =? 0))
  /\ (forall t, dict_get (_buffer_counter self) t 0 <> 0 ->
                exists r, dict_lookup (buffer self) t = Ok r).


(** ** [TemplateLookup.set_templates] and [TemplateLookup.append_templates] *)

(** [TemplateLookup.set_templates(self, templates)]: the attribute is
    assigned only when the format check returns. *)
Definition set_templates (self : TemplateLookup) (templates : list template)
  : result TemplateLookup :=
  templates <- _template_format_check templates ;;
  Ok (mkTemplateLookup (base self) templates).

(** The argument of [append_templates]: a tag name given as a [str], or a
    list of templates. *)
Inductive template_arg : Type :=
| OneTag (t : tag)
| Templates (ts : list template).

(** [TemplateLookup.append_templates(self, template)] *)
Definition append_templates (self : TemplateLookup) (template : template_arg)
  : result TemplateLookup :=
  let template := match template with
                  | OneTag t => [[t]]
                  | Templates ts => ts
                  end in
  let templates := templates_of self ++ template in
  set_templates self templates.

(** The three tags [_set_lemmatizer] reads. *)
Definition has_lemmatizer_tags (dic : dictionary) : Prop :=
  In "Adjective"%string (map fst dic)
  /\ In "Verb"%string (map fst dic)
  /\ In "Eomi"%string (map fst dic).

(** Templates in the order of [sorted(..., key=lambda x:len(x))]. *)
Definition by_length (s t : template) : Prop := len s <= len t.


(** A record moved by [d] characters, and a lattice of moved records. *)
Definition shift (d : Z) (x : Eojeol) : Eojeol :=
  mkEojeol (w0 x) (w1 x) (t0 x) (t1 x) (b x + d) (m x + d) (e x + d).

Definition shift_lattice (d : Z) (bindex : lattice) : lattice :=
  map (map (shift d)) bindex.

(** The outcome of a computation, its value sent through [g]. *)
Definition result_map {A B : Type} (g : A -> B) (r : result A) : result B :=
  match r with
  | Ok a => Ok (g a)
  | Raise err => Raise err
  end.


(** The entries of [bm_pair] and [me_pair], moved by [d]. *)
Definition shift_bm (d : Z) (p : bm_entry) : bm_entry :=
  let '(b', m', t) := p in (b' + d, m' + d, t).
Definition shift_me (d : Z) (p : me_entry) : me_entry :=
  let '(m', e', t) := p in (m' + d, e' + d, t).
Definition shift_pairs (d : Z) (st : list bm_entry * list me_entry)
  : list bm_entry * list me_entry :=
  (map (shift_bm d) (fst st), map (shift_me d) (snd st)).


(** A record read against [text], its offsets taken as positions in
    [text]: begin and end delimit a stretch of the text; and either mid
    lies between them and the two parts of the record are the text on its
    two sides (a record built from dictionary words), or the record is an
    analysis that the lemmatizer gives of the stretch, with mid at begin
    plus the length of the stem (a record built by the lemmatizer; the stem
    need not be a part of the stretch, so this mid need not lie in it). *)
Definition positions_in (lemmatizer : Lemmatizer) (text : pystr) (x : Eojeol)
  : Prop :=
  0 <= b x <= e x
  /\ e x <= len text
  /\ ((b x <= m x <= e x
       /\ w0 x = slice text (b x) (m x)
       /\ w1 x = slice text (m x) (e x))
      \/ (In (w0 x, w1 x, t0 x, t1 x) (lemmatizer (slice text (b x) (e x)))
          /\ m x = b x + len (w0 x))).

(** * Properties *)

(** ** Python values *)

Lemma str_eqb_eq (s t : pystr) : str_eqb s t = true <-> s = t.
Proof.
  revert t; induction s as [|c s IH]; intros [|d t]; simpl; split;
    try congruence; try reflexivity.
  - rewrite andb_true_iff, N.eqb_eq, IH. intros [-> ->]. reflexivity.
  - intros [= -> ->]. rewrite N.eqb_refl. simpl. apply IH. reflexivity.
Qed.

Lemma str_eqb_refl (s : pystr) : str_eqb s s = true.
Proof. apply str_eqb_eq. reflexivity. Qed.

Lemma str_eqb_neq (s t : pystr) : str_eqb s t = false <-> s <> t.
Proof.
  rewrite <- str_eqb_eq. destruct (str_eqb s t); split; congruence.
Qed.

Lemma str_in_In (w : pystr) (ws : list pystr) : str_in w ws = true <-> In w ws.
Proof.
  unfold str_in. rewrite existsb_exists. split.
  - intros (x & Hx & Heq). apply str_eqb_eq in Heq. subst. exact Hx.
  - intros H. exists w. split; [exact H | apply str_eqb_refl].
Qed.

Lemma dict_mem_In {V : Type} (d : list (pystr * V)) (k : pystr) :
  dict_mem d k = true <-> In k (map fst d).
Proof.
  unfold dict_mem. rewrite existsb_exists, in_map_iff. split.
  - intros (kv & Hin & Heq). apply str_eqb_eq in Heq. exists kv. auto.
  - intros (kv & Heq & Hin). exists kv. split; [exact Hin|].
    apply str_eqb_eq. auto.
Qed.

Lemma dict_get_absent {V : Type} (d : list (pystr * V)) (k : pystr) (v : V) :
  dict_mem d k = false -> dict_get d k v = v.
Proof.
  induction d as [|[k' v'] d IH]; simpl; [reflexivity|].
  unfold dict_mem in *. simpl. destruct (str_eqb k k'); simpl; [discriminate|].
  exact IH.
Qed.

Lemma dict_lookup_set {V : Type} (d : list (pystr * V)) (k : pystr) (v : V) :
  dict_lookup (dict_set d k v) k = Ok v.
Proof.
  induction d as [|[k' v'] d IH]; simpl.
  - rewrite str_eqb_refl. reflexivity.
  - destruct (str_eqb k k') eqn:E; simpl; rewrite E; [reflexivity | exact IH].
Qed.

Lemma dict_get_set {V : Type} (d : list (pystr * V)) (k : pystr) (v dflt : V) :
  dict_get (dict_set d k v) k dflt = v.
Proof.
  induction d as [|[k' v'] d IH]; simpl.
  - rewrite str_eqb_refl. reflexivity.
  - destruct (str_eqb k k') eqn:E; simpl; rewrite E; [reflexivity | exact IH].
Qed.

(** ** The lookup cache *)


Lemma eojeol_lookup_miss {St : Type} (lookup : Strategy St) (self : LookupBuffer)
  (eojeol : pystr) (offset : Z) (st : St) :
  dict_get (_buffer_counter self) eojeol 0 = 0 ->
  eojeol_lookup lookup self eojeol offset st =
  match lookup eojeol offset st with
  | (Ok res, st') =>
      (Ok res,
       mkLookupBuffer (dict_set (buffer self) eojeol res)
                      (dict_set (_buffer_counter self) eojeol 1),
       st')
  | (Raise err, st') => (Raise err, self, st')
  end.
Proof.
  intros H. unfold eojeol_lookup. rewrite H. simpl. reflexivity.
Qed.



(** *** Eviction *)

Lemma insert_by_count_perm (x : pystr * Z) (xs : list (pystr * Z)) :
  Permutation (x :: xs) (insert_by_count x xs).
Proof.
  induction xs as [|y xs IH]; simpl; [reflexivity|].
  destruct (- snd x <=? - snd y); [reflexivity|].
  rewrite perm_swap. apply perm_skip. exact IH.
Qed.

Lemma sorted_by_count_perm (items : list (pystr * Z)) :
  Permutation items (sorted_by_count items).
Proof.
  induction items as [|x xs IH]; simpl; [constructor|].
  rewrite <- insert_by_count_perm. apply perm_skip. exact IH.
Qed.

Lemma insert_by_count_sorted (x : pystr * Z) (xs : list (pystr * Z)) :
  StronglySorted by_count_desc xs ->
  StronglySorted by_count_desc (insert_by_count x xs).
Proof.
  induction 1 as [|y xs Hs IH Hall]; simpl.
  - constructor; constructor.
  - destruct (- snd x <=? - snd y) eqn:E.
    + apply Z.leb_le in E. constructor.
      * constructor; assumption.
      * constructor; [unfold by_count_desc; lia|].
        eapply Forall_impl; [|exact Hall]. unfold by_count_desc. intros; lia.
    + apply Z.leb_gt in E. constructor; [exact IH|].
      rewrite <- insert_by_count_perm. constructor; [|exact Hall].
      unfold by_count_desc. lia.
Qed.

Lemma sorted_by_count_sorted (items : list (pystr * Z)) :
  StronglySorted by_count_desc (sorted_by_count items).
Proof.
  induction items as [|x xs IH]; simpl; [constructor|].
  apply insert_by_count_sorted. exact IH.
Qed.

Lemma sorted_split_ge (xs : list (pystr * Z)) (k : nat) (x y : pystr * Z) :
  StronglySorted by_count_desc xs ->
  In x (firstn k xs) -> In y (skipn k xs) -> snd y <= snd x.
Proof.
  intros Hs. revert k. induction Hs as [|z xs Hs IH Hall]; intros k Hx Hy.
  - rewrite firstn_nil in Hx. destruct Hx.
  - destruct k as [|k]; simpl in *; [destruct Hx|].
    destruct Hx as [->|Hx].
    + rewrite Forall_forall in Hall. apply Hall.
      rewrite <- (firstn_skipn k xs). apply in_or_app. right. exact Hy.
    + eapply IH; eassumption.
Qed.

Lemma slice_to_firstn {A : Type} (s : list A) (k : Z) :
  0 <= k <= len s -> slice_to s k = firstn (Z.to_nat k) s.
Proof.
  intros H. unfold slice_to, clamp_index.
  destruct (k <? 0) eqn:E; [apply Z.ltb_lt in E; lia|].
  rewrite Z.min_r by lia. reflexivity.
Qed.

Lemma NoDup_keys_filter {V : Type} (f : pystr * V -> bool) (d : list (pystr * V)) :
  NoDup (map fst d) -> NoDup (map fst (filter f d)).
Proof.
  induction d as [|kv d IH]; simpl; intros H; [constructor|].
  inversion H as [|? ? Hnin Hnd]; subst.
  destruct (f kv); simpl; [|auto].
  constructor; [|auto].
  intros Hin. apply Hnin. apply in_map_iff in Hin.
  destruct Hin as (x & Hx & Hin). apply filter_In in Hin.
  apply in_map_iff. exists x. tauto.
Qed.

Lemma NoDup_firstn {A : Type} (k : nat) (l : list A) :
  NoDup l -> NoDup (firstn k l).
Proof.
  intros H. rewrite <- (firstn_skipn k l) in H.
  eapply NoDup_app_remove_r. exact H.
Qed.

Lemma In_firstn {A : Type} (k : nat) (l : list A) (x : A) :
  In x (firstn k l) -> In x l.
Proof.
  intros H. rewrite <- (firstn_skipn k l). apply in_or_app. left. exact H.
Qed.

Lemma compatify_buffer_evicts (self : LookupBuffer) (K : Z) :
  0 <= K < len (_buffer_counter self) ->
  compatify_buffer self K =
  let counter := firstn (Z.to_nat K) (sorted_by_count (_buffer_counter self)) in
  mkLookupBuffer (filter (fun kv => dict_mem counter (fst kv)) (buffer self)) counter.
Proof.
  intros HK. unfold compatify_buffer.
  destruct (len (_buffer_counter self) <=? K) eqn:E; [apply Z.leb_le in E; lia|].
  rewrite slice_to_firstn; [reflexivity|].
  unfold len in *. rewrite <- (Permutation_length (sorted_by_count_perm _)). lia.
Qed.

(** C9: with more than K entries (and K not negative), [compatify_buffer]
    leaves exactly K entries in the counter and in the buffer, with the same
    keys; each kept entry is an old entry with its count, no evicted entry
    has a larger count than a kept one, and looking up a token that is no
    longer in the counter calls the wrapped strategy again and stores what
    it returns. *)
Theorem compatify_buffer_topk (self : LookupBuffer) (K : Z) :
  cache_wf self ->
  0 <= K < len (_buffer_counter self) ->
  let self' := compatify_buffer self K in
  len (_buffer_counter self') = K
  /\ len (buffer self') = K
  /\ (forall kc, In kc (_buffer_counter self') -> In kc (_buffer_counter self))
  /\ (forall kv, In kv (buffer self') <->
                 In kv (buffer self) /\ In (fst kv) (map fst (_buffer_counter self')))
  /\ (forall kept evicted,
        In kept (_buffer_counter self') ->
        In evicted (_buffer_counter self) ->
        ~ In evicted (_buffer_counter self') ->
        snd evicted <= snd kept)
  /\ (forall (St : Type) (lookup : Strategy St) eojeol offset st,
        ~ In eojeol (map fst (_buffer_counter self')) ->
        let '(res, self'', st') := eojeol_lookup lookup self' eojeol offset st in
        (res, st') = lookup eojeol offset st
        /\ forall r, res = Ok r ->
             dict_lookup (buffer self'') eojeol = Ok r
             /\ dict_get (_buffer_counter self'') eojeol 0 = 1).
Proof.
  intros (Hnb & Hnc & Hkeys) HK self'.
  unfold self'. rewrite (compatify_buffer_evicts self K HK). cbv zeta.
  set (sorted := sorted_by_count (_buffer_counter self)).
  set (counter := firstn (Z.to_nat K) sorted).
  assert (Hperm : Permutation (_buffer_counter self) sorted)
    by apply sorted_by_count_perm.
  assert (Hlen : List.length counter = Z.to_nat K).
  { unfold counter. rewrite length_firstn.
    rewrite <- (Permutation_length Hperm). unfold len in HK. lia. }
  assert (Hsub : forall kc, In kc counter -> In kc (_buffer_counter self)).
  { intros kc Hin. apply (Permutation_in _ (Permutation_sym Hperm)).
    eapply In_firstn. exact Hin. }
  assert (Hmem : forall kv : pystr * lattice,
             In kv (filter (fun kv => dict_mem counter (fst kv)) (buffer self)) <->
             In kv (buffer self) /\ In (fst kv) (map fst counter)).
  { intros kv. rewrite filter_In, dict_mem_In. tauto. }
  simpl. split; [|split; [|split; [|split; [|split]]]].
  - unfold len. lia.
  - unfold len.
    enough (List.length (map fst (filter (fun kv : pystr * lattice =>
                                     dict_mem counter (fst kv)) (buffer self)))
            = List.length (map fst counter)) as Heq
      by (rewrite !length_map in Heq; lia).
    apply Permutation_length. apply NoDup_Permutation.
    + apply NoDup_keys_filter. exact Hnb.
    + unfold counter. rewrite <- firstn_map. apply NoDup_firstn.
      eapply Permutation_NoDup; [|exact Hnc]. apply Permutation_map. exact Hperm.
    + intros k. rewrite !in_map_iff. split.
      * intros (kv & <- & Hin). apply Hmem in Hin. destruct Hin as [_ Hin].
        apply in_map_iff in Hin. exact Hin.
      * intros (kc & <- & Hin).
        assert (Hb : In (fst kc) (map fst (buffer self))).
        { apply Hkeys. apply in_map. apply Hsub. exact Hin. }
        apply in_map_iff in Hb. destruct Hb as (kv & Heq & Hb).
        exists kv. split; [exact Heq|]. apply Hmem. split; [exact Hb|].
        rewrite Heq. apply in_map. exact Hin.
  - exact Hsub.
  - exact Hmem.
  - intros kept evicted Hk He Hne.
    apply (sorted_split_ge sorted (Z.to_nat K)).
    + apply sorted_by_count_sorted.
    + exact Hk.
    + apply (Permutation_in _ Hperm) in He. unfold sorted in He.
      rewrite <- (firstn_skipn (Z.to_nat K)) in He. apply in_app_or in He.
      destruct He as [He|He]; [contradiction | exact He].
  - intros St lookup eojeol offset st Hout.
    rewrite eojeol_lookup_miss.
    + destruct (lookup eojeol offset st) as [[r|err] st1]; simpl.
      * split; [reflexivity|]. intros r' [= <-].
        split; [apply dict_lookup_set | apply dict_get_set].
      * split; [reflexivity|]. intros r' [=].
    + simpl. apply dict_get_absent. rewrite <- not_true_iff_false, dict_mem_In.
      exact Hout.
Qed.

Lemma compatify_buffer_topk_witness :
  cache_wf Fixtures.three_tokens
  /\ 0 <= 2 < len (_buffer_counter Fixtures.three_tokens)
  /\ len (_buffer_counter (compatify_buffer Fixtures.three_tokens 2)) = 2.
Proof.
  assert (Hwf : cache_wf Fixtures.three_tokens).
  { unfold cache_wf. simpl. split; [|split].
    - repeat constructor; simpl; intuition discriminate.
    - repeat constructor; simpl; intuition discriminate.
    - intros k. tauto. }
  assert (HK : 0 <= 2 < len (_buffer_counter Fixtures.three_tokens))
    by (vm_compute; split; [discriminate | reflexivity]).
  split; [exact Hwf|]. split; [exact HK|].
  exact (proj1 (compatify_buffer_topk Fixtures.three_tokens 2 Hwf HK)).
Defined.

(** ** Construction of a lookup strategy *)

Lemma max_len_of_fold (word : pystr) (words : list pystr) :
  max_len_of word words = fold_right Z.max 0 (map len (word :: words)).
Proof.
  unfold max_len_of. simpl.
  assert (H0 : forall ws : list pystr, 0 <= fold_right Z.max 0 (map len ws)).
  { induction ws as [|w ws IH]; simpl; lia. }
  assert (H : forall (ws : list pystr) acc,
             0 <= acc ->
             fold_left (fun a w => Z.max a (len w)) ws acc
             = Z.max acc (fold_right Z.max 0 (map len ws))).
  { induction ws as [|w ws IH]; intros acc Hacc; simpl.
    - lia.
    - rewrite IH by lia. specialize (H0 ws). lia. }
  rewrite H by (unfold len; lia). reflexivity.
Qed.

Lemma longest_word_nonneg (dic : dictionary) : 0 <= longest_word dic.
Proof.
  unfold longest_word. induction (map len (flat_map snd dic)); simpl; lia.
Qed.

Lemma fold_max_app (xs ys : list Z) :
  fold_right Z.max 0 (xs ++ ys)
  = Z.max (fold_right Z.max 0 xs) (fold_right Z.max 0 ys).
Proof.
  induction xs as [|x xs IH]; simpl.
  - assert (0 <= fold_right Z.max 0 ys) by (induction ys; simpl; lia). lia.
  - rewrite IH. lia.
Qed.

Lemma check_max_word_len_fold (dic : dictionary) (acc : Z) :
  0 <= acc ->
  fold_left (fun acc (entry : tag * list pystr) =>
               match snd entry with
               | [] => acc
               | word :: words => Z.max (max_len_of word words) acc
               end) dic acc
  = Z.max acc (longest_word dic).
Proof.
  revert acc. induction dic as [|[t ws] dic IH]; intros acc Hacc.
  - unfold longest_word. simpl. lia.
  - simpl. pose proof (longest_word_nonneg dic) as Hd.
    unfold longest_word in *. simpl. rewrite map_app, fold_max_app.
    destruct ws as [|w ws].
    + rewrite IH by lia. simpl. f_equal. symmetry. apply Z.max_r. exact Hd.
    + rewrite max_len_of_fold. rewrite IH.
      * match goal with
        | |- Z.max (Z.max ?x acc) ?y = Z.max acc (Z.max ?x' ?y') =>
            change x' with x; change y' with y; generalize x y; intros; lia
        end.
      * simpl. unfold len at 1. lia.
Qed.

(** C7, refuted as stated: a dictionary with a tag and no word derives the
    length 0, which is not positive, and the construction succeeds. *)
Lemma LRLookup_init_wordless_succeeds :
  longest_word Fixtures.wordless_dic <= 0
  /\ exists self,
       LRLookup_init Fixtures.no_lemmatizer_class Fixtures.wordless_dic 0
         (Some Fixtures.no_lemmatizer) = Ok self
       /\ max_word_len self <= 0.
Proof.
  split; [vm_compute; discriminate|].
  eexists. split; [reflexivity|]. vm_compute. discriminate.
Qed.

(** ** Ranges and slices *)

Lemma In_py_range (lo hi i : Z) : In i (py_range lo hi) <-> lo <= i < hi.
Proof.
  unfold py_range. rewrite in_map_iff. split.
  - intros (k & <- & Hk). apply in_seq in Hk. lia.
  - intros H. exists (Z.to_nat (i - lo)). split; [lia|]. apply in_seq. lia.
Qed.

Lemma In_py_range_down (start stop i : Z) :
  In i (py_range_down start stop) <-> stop < i <= start.
Proof.
  unfold py_range_down. rewrite in_map_iff. split.
  - intros (k & <- & Hk). apply in_seq in Hk. lia.
  - intros H. exists (Z.to_nat (start - i)). split; [lia|]. apply in_seq. lia.
Qed.

Lemma slice_to_from {A : Type} (s : list A) (i : Z) :
  slice_to s i ++ slice_from s i = s.
Proof. apply firstn_skipn. Qed.

Lemma clamp_index_le {A : Type} (s : list A) (i : Z) :
  (clamp_index s i <= List.length s)%nat.
Proof. unfold clamp_index, len. lia. Qed.

Lemma len_slice_to {A : Type} (s : list A) (i : Z) :
  len (slice_to s i) = Z.of_nat (clamp_index s i).
Proof.
  unfold slice_to, len. rewrite length_firstn.
  pose proof (clamp_index_le s i). lia.
Qed.

Lemma len_slice_from {A : Type} (s : list A) (i : Z) :
  len (slice_from s i) = len s - Z.of_nat (clamp_index s i).
Proof.
  unfold slice_from, len. rewrite length_skipn.
  pose proof (clamp_index_le s i). lia.
Qed.

Lemma clamp_index_nonneg {A : Type} (s : list A) (i : Z) :
  0 <= i <= len s -> clamp_index s i = Z.to_nat i.
Proof.
  intros H. unfold clamp_index.
  destruct (i <? 0) eqn:E; [apply Z.ltb_lt in E; lia | lia].
Qed.

Lemma clamp_index_neg {A : Type} (s : list A) (i : Z) :
  - len s <= i < 0 -> clamp_index s i = Z.to_nat (i + len s).
Proof.
  intros H. unfold clamp_index.
  destruct (i <? 0) eqn:E; [lia | apply Z.ltb_ge in E; lia].
Qed.

Lemma len_app {A : Type} (s t : list A) : len (s ++ t) = len s + len t.
Proof. unfold len. rewrite length_app. lia. Qed.

Lemma slice_at_app {A : Type} (s t : list A) (k : nat) :
  k = List.length s ->
  firstn k (s ++ t) = s /\ skipn k (s ++ t) = t.
Proof.
  intros ->. split.
  - rewrite firstn_app, Nat.sub_diag, firstn_all. simpl. apply app_nil_r.
  - rewrite skipn_app, Nat.sub_diag, skipn_all. reflexivity.
Qed.

(** ** The noun-predicator disambiguator *)

Section Disambiguator.
Context {score : Type}.
Variable nouns : list (pystr * score).
Variables predicators pos_features common_features : list pystr.

Lemma is_pos_feature_In (r : pystr) :
  is_pos_feature predicators pos_features common_features r = true <->
  In r predicators \/ In r pos_features \/ In r common_features.
Proof.
  unfold is_pos_feature. rewrite !orb_true_iff, !str_in_In. tauto.
Qed.

Lemma is_noun_josa_decomposable (prefix : pystr) :
  is_noun_josa nouns predicators pos_features common_features prefix = true <->
  In prefix (map fst nouns)
  \/ decomposable 2 nouns predicators pos_features common_features prefix.
Proof.
  unfold is_noun_josa, decomposable.
  rewrite orb_true_iff, dict_mem_In, existsb_exists.
  apply or_iff_compat_l. split.
  - intros (i & Hi & H). apply In_py_range in Hi.
    apply andb_true_iff in H. destruct H as [Hl Hr].
    apply dict_mem_In in Hl. apply is_pos_feature_In in Hr.
    exists (slice_to prefix i), (slice_from prefix i).
    rewrite slice_to_from, len_slice_to, len_slice_from.
    rewrite clamp_index_nonneg by lia.
    repeat split; try assumption; lia.
  - intros (l & r & -> & Hl & Hr & Hn & Hf).
    exists (len l). rewrite In_py_range, len_app. split; [lia|].
    unfold slice_to, slice_from.
    rewrite clamp_index_nonneg by (rewrite len_app; unfold len; lia).
    destruct (slice_at_app l r (Z.to_nat (len l))) as [-> ->];
      [unfold len; lia|].
    apply andb_true_iff. split; [apply dict_mem_In | apply is_pos_feature_In];
      assumption.
Qed.

(** C8, as the code has it: the disambiguator marks [w] as compound exactly
    when [w] is a predicator, or some suffix of length at least 1 and less
    than [len w - 1] is a predicator while the prefix is a predicator, a
    known noun, or a known noun of at least two characters followed by a
    predicator or a domain/common feature string. *)
Theorem is_noun_predicator_compound_iff (w : pystr) :
  _is_noun_predicator_compound nouns predicators pos_features common_features w
  = true
  <-> compound_when 2 nouns predicators pos_features common_features w.
Proof.
  unfold _is_noun_predicator_compound, compound_when.
  destruct (str_in w predicators) eqn:Hw.
  - apply str_in_In in Hw. tauto.
  - assert (Hnw : ~ In w predicators).
    { rewrite <- str_in_In. congruence. }
    rewrite existsb_exists. split.
    + intros (i & Hi & H). right. apply In_py_range_down in Hi.
      exists (slice_to w i), (slice_from w i).
      rewrite slice_to_from, len_slice_from.
      rewrite clamp_index_neg by lia.
      split; [reflexivity|]. split; [lia|].
      rewrite orb_true_iff, !andb_true_iff, !str_in_In,
        is_noun_josa_decomposable in H.
      exact H.
    + intros [Hin | (prefix & suffix & -> & Hlen & H)]; [contradiction|].
      rewrite len_app in Hlen.
      exists (- len suffix). rewrite In_py_range_down, len_app.
      split; [lia|].
      unfold slice_to, slice_from.
      rewrite clamp_index_neg by (rewrite len_app; unfold len in *; lia).
      destruct (slice_at_app prefix suffix
                  (Z.to_nat (- len suffix + len (prefix ++ suffix))))
        as [-> ->]; [rewrite len_app; unfold len; lia|].
      rewrite orb_true_iff, !andb_true_iff, !str_in_In,
        is_noun_josa_decomposable.
      exact H.
Qed.
End Disambiguator.

(** C8, refuted as stated: 가나다 splits into the prefix 가나 and the
    predicator 다, and 가나 splits into the known noun 가 and the feature 나,
    yet the code keeps 가나다 as a noun, because it tries no inner split
    whose left part has a single character. *)
Lemma one_char_inner_noun_not_tried :
  let nouns := Fixtures.noun_scores in
  let predicators := Fixtures.da_predicators in
  let pos_features := Fixtures.na_features in
  _is_noun_predicator_compound nouns predicators pos_features [] Fixtures.ganada
  = false
  /\ compound_when 1 nouns predicators pos_features [] Fixtures.ganada
  /\ In Fixtures.ganada (map fst (fst (fst
          (_remove_confused_nouns nouns predicators pos_features [])))).
Proof.
  split; [reflexivity|]. split.
  - right. exists (Fixtures.ga ++ Fixtures.na), Fixtures.da.
    split; [reflexivity|]. split; [vm_compute; split; [discriminate | reflexivity]|].
    right. split; [|simpl; auto].
    right. exists Fixtures.ga, Fixtures.na.
    split; [reflexivity|].
    split; [vm_compute; discriminate|]. split; [vm_compute; discriminate|].
    split; [simpl; auto|]. right. left. simpl. auto.
  - simpl. auto.
Qed.

(** ** Lists of buckets *)

Lemma norm_index_nonneg {A : Type} (xs : list A) (i : Z) :
  0 <= i < len xs -> norm_index xs i = Some (Z.to_nat i).
Proof.
  intros H. unfold norm_index.
  destruct (0 <=? i) eqn:E1; [|apply Z.leb_gt in E1; lia].
  destruct (i <? len xs) eqn:E2; [|apply Z.ltb_ge in E2; lia].
  reflexivity.
Qed.

Lemma norm_index_lt {A : Type} (xs : list A) (i : Z) (k : nat) :
  norm_index xs i = Some k -> (k < List.length xs)%nat.
Proof.
  unfold norm_index, len.
  destruct ((0 <=? i) && (i <? Z.of_nat (List.length xs))) eqn:E1.
  - apply andb_true_iff in E1. destruct E1 as [E1 E2].
    apply Z.leb_le in E1. apply Z.ltb_lt in E2. intros [= <-]. lia.
  - destruct ((- Z.of_nat (List.length xs) <=? i) && (i <? 0)) eqn:E2;
      [|discriminate].
    apply andb_true_iff in E2. destruct E2 as [E2 E3].
    apply Z.leb_le in E2. apply Z.ltb_lt in E3. intros [= <-]. lia.
Qed.

Lemma getitem_Ok {A : Type} (xs : list A) (i : Z) (x : A) :
  getitem xs i = Ok x <->
  exists k, norm_index xs i = Some k /\ nth_error xs k = Some x.
Proof.
  unfold getitem. destruct (norm_index xs i) as [k|].
  - destruct (nth_error xs k) as [y|] eqn:E; split.
    + intros [= ->]. exists k. auto.
    + intros (k' & [= <-] & H). congruence.
    + discriminate.
    + intros (k' & [= <-] & H). congruence.
  - split; [discriminate | intros (k & H & _); discriminate].
Qed.

Lemma getitem_in_range {A : Type} (xs : list A) (i : Z) :
  0 <= i < len xs -> exists x, getitem xs i = Ok x /\ nth_error xs (Z.to_nat i) = Some x.
Proof.
  intros H. destruct (nth_error xs (Z.to_nat i)) as [x|] eqn:E.
  - exists x. split; [|reflexivity]. apply getitem_Ok. exists (Z.to_nat i).
    split; [apply norm_index_nonneg; exact H | exact E].
  - apply nth_error_None in E. unfold len in H. lia.
Qed.

Lemma length_replace_nth {A : Type} (k : nat) (x : A) (xs : list A) :
  List.length (replace_nth k x xs) = List.length xs.
Proof.
  revert k; induction xs as [|y xs IH]; intros [|k]; simpl; auto.
Qed.

Lemma nth_error_replace_nth {A : Type} (k j : nat) (x : A) (xs : list A) :
  (k < List.length xs)%nat ->
  nth_error (replace_nth k x xs) j = if Nat.eqb j k then Some x else nth_error xs j.
Proof.
  revert k j; induction xs as [|y xs IH]; intros [|k] [|j]; simpl; intros H;
    try lia; try reflexivity.
  apply IH. lia.
Qed.

Lemma extend_at_Ok {A : Type} (xss : list (list A)) (i : Z) (ys : list A)
  (xss' : list (list A)) :
  extend_at xss i ys = Ok xss' <->
  exists k xs, norm_index xss i = Some k /\ nth_error xss k = Some xs
               /\ xss' = replace_nth k (xs ++ ys) xss.
Proof.
  unfold extend_at, bind. destruct (getitem xss i) as [xs|err] eqn:E.
  - apply getitem_Ok in E. destruct E as (k & Hk & Hx).
    unfold setitem. rewrite Hk. split.
    + intros [= <-]. exists k, xs. auto.
    + intros (k' & xs' & Hk' & Hx' & ->). congruence.
  - split; [discriminate|]. intros (k & xs & Hk & Hx & _).
    assert (H : getitem xss i = Ok xs) by (apply getitem_Ok; eauto). congruence.
Qed.

Lemma extend_at_in_range {A : Type} (xss : list (list A)) (i : Z) (ys : list A) :
  0 <= i < len xss ->
  exists xs, nth_error xss (Z.to_nat i) = Some xs
             /\ extend_at xss i ys = Ok (replace_nth (Z.to_nat i) (xs ++ ys) xss).
Proof.
  intros H. destruct (getitem_in_range xss i H) as (xs & _ & Hx).
  exists xs. split; [exact Hx|]. apply extend_at_Ok.
  exists (Z.to_nat i), xs. split; [apply norm_index_nonneg; exact H | auto].
Qed.

(** ** The overlap remover: which buckets the overlap test reads *)

Lemma exist_overlap_scan_false (offset lo hi : Z) (bindex : lattice) (idx : list Z) :
  exist_overlap_scan offset lo hi bindex idx = Ok false <->
  forall i, In i idx ->
    exists eojeols, getitem bindex (i - offset) = Ok eojeols
                    /\ existsb (overlaps lo hi) eojeols = false.
Proof.
  induction idx as [|i idx IH]; simpl.
  - split; [intros _ i [] | reflexivity].
  - unfold bind. destruct (getitem bindex (i - offset)) as [eojeols|err] eqn:E.
    + destruct (existsb (overlaps lo hi) eojeols) eqn:Ex.
      * split; [discriminate|]. intros H.
        destruct (H i (or_introl eq_refl)) as (eo & Heo & Hno). congruence.
      * rewrite IH. split.
        -- intros H j [<-|Hj]; [exists eojeols; auto | apply H; exact Hj].
        -- intros H j Hj. apply H. right. exact Hj.
    + split; [discriminate|]. intros H.
      destruct (H i (or_introl eq_refl)) as (eo & Heo & _). congruence.
Qed.

(** C1, as the code has it: the right-hand sub-span [lo, hi) passes the
    overlap test exactly when every bucket with index [i - offset],
    [lo <= i < hi], exists and holds no record whose mid is after [lo] and
    whose begin is before [hi]; records of the other buckets are not read. *)
Theorem exist_overlap_l_reads_span_buckets (offset lo hi : Z) (bindex : lattice) :
  exist_overlap_l offset lo hi bindex = Ok false <->
  forall i, lo <= i < hi ->
    exists eojeols,
      getitem bindex (i - offset) = Ok eojeols
      /\ forall y, In y eojeols -> ~ (lo < m y /\ b y < hi).
Proof.
  unfold exist_overlap_l. rewrite exist_overlap_scan_false.
  assert (Hex : forall eojeols,
             existsb (overlaps lo hi) eojeols = false <->
             forall y, In y eojeols -> ~ (lo < m y /\ b y < hi)).
  { intros eojeols. rewrite <- not_true_iff_false, existsb_exists. split.
    - intros H y Hy [H1 H2]. apply H. exists y. split; [exact Hy|].
      unfold overlaps. apply andb_true_iff. split; apply Z.ltb_lt; assumption.
    - intros H (y & Hy & Hov). unfold overlaps in Hov.
      apply andb_true_iff in Hov. destruct Hov as [H1 H2].
      apply Z.ltb_lt in H1. apply Z.ltb_lt in H2. apply (H y Hy). auto. }
  split.
  - intros H i Hi. destruct (H i) as (eo & Heo & Hno);
      [apply In_py_range; exact Hi|].
    exists eo. split; [exact Heo | apply Hex; exact Hno].
  - intros H i Hi. apply In_py_range in Hi.
    destruct (H i Hi) as (eo & Heo & Hno).
    exists eo. split; [exact Heo | apply Hex; exact Hno].
Qed.

(** C1, refuted as stated: in the candidate lattice of 가나다라 the record
    가나/Noun + 다라/Josa has split point 2 and end 4; the record 나다/Noun of
    bucket 1 begins before 4 and has its mid, 3, after 2, yet the overlap
    test reads buckets 2 and 3 only and answers that nothing overlaps, so
    that the one-part record 가나/Noun of bucket 0 is pruned. *)
Lemma straddler_in_earlier_bucket_not_seen :
  exists bindex,
    template_candidates Fixtures.ganadara Fixtures.no_lemmatizer
      Fixtures.ganadara_dic default_templates 2 0 = Ok bindex
    /\ In Fixtures.gana_dara (nth 0 bindex [])
    /\ In Fixtures.nada (nth 1 bindex [])
    /\ exist_overlap_l 0 (m Fixtures.gana_dara) (e Fixtures.gana_dara) bindex
       = Ok false
    /\ remove_sub bindex 0 = Ok [[Fixtures.gana_dara]; [Fixtures.nada]; []; []]
    /\ ~ no_straddler_anywhere bindex Fixtures.gana_dara.
Proof.
  eexists. split; [vm_compute; reflexivity|].
  split; [simpl; auto|]. split; [simpl; auto|]. split; [reflexivity|].
  split; [reflexivity|].
  intros H. apply (H [Fixtures.nada] Fixtures.nada).
  - simpl. auto.
  - simpl. auto.
  - discriminate.
  - simpl. lia.
Qed.

(** ** The cache and the offsets *)

(** C4, evaluated at the failing input: 나는 is looked up through the cache
    at offset 0 and then at offset 2.  The second call is a hit and returns
    the records of the first call, anchored at 0, while the wrapped strategy
    called at offset 2 anchors them at 2. *)
Lemma cache_hit_returns_first_offset :
  let token := Fixtures.na ++ Fixtures.neun in
  let lookup := Fixtures.na_neun_strategy in
  let '(first, self1, _) :=
    eojeol_lookup lookup (LookupBuffer_init None) token 0 tt in
  let '(hit, _, _) := eojeol_lookup lookup self1 token 2 tt in
  let direct := fst (lookup token 2 tt) in
  dict_get (_buffer_counter self1) token 0 = 1
  /\ hit = first
  /\ hit = Ok [[mkEojeol Fixtures.na Fixtures.neun Noun (Some Josa) 0 1 2]; []]
  /\ direct = Ok [[mkEojeol Fixtures.na Fixtures.neun Noun (Some Josa) 2 3 4]; []]
  /\ hit <> direct.
Proof.
  vm_compute. repeat split; discriminate.
Qed.

(** ** Loops *)

Lemma for_each_inv {A St : Type} (Inv : list A -> St -> Prop)
  (body : A -> St -> result St) (xs : list A) :
  (forall seen x st, Inv seen st -> In x xs ->
     exists st', body x st = Ok st' /\ Inv (seen ++ [x]) st') ->
  forall seen st, Inv seen st ->
    exists st', for_each xs body st = Ok st' /\ Inv (seen ++ xs) st'.
Proof.
  induction xs as [|x xs IH]; intros Hbody seen st Hinv; simpl.
  - exists st. rewrite app_nil_r. auto.
  - destruct (Hbody seen x st Hinv (or_introl eq_refl)) as (st1 & -> & H1).
    simpl. destruct (IH (fun seen y st Hi Hy => Hbody seen y st Hi (or_intror Hy))
                        (seen ++ [x]) st1 H1) as (st2 & -> & H2).
    exists st2. rewrite <- app_assoc in H2. auto.
Qed.

Lemma for_each_preserves {A St : Type} (Inv : St -> Prop)
  (body : A -> St -> result St) (xs : list A) (st : St) :
  (forall x st, Inv st -> In x xs -> exists st', body x st = Ok st' /\ Inv st') ->
  Inv st -> exists st', for_each xs body st = Ok st' /\ Inv st'.
Proof.
  intros Hbody Hinv.
  apply (for_each_inv (fun _ => Inv) body xs (fun _ => Hbody) [] st Hinv).
Qed.

(** ** Growing lattices *)

Lemma grows_refl (bindex : lattice) : grows bindex bindex.
Proof. split; auto. Qed.

Lemma grows_trans (l1 l2 l3 : lattice) : grows l1 l2 -> grows l2 l3 -> grows l1 l3.
Proof. intros [H1 H2] [H3 H4]. split; [congruence | auto]. Qed.

Lemma grows_len (l1 l2 : lattice) : grows l1 l2 -> len l2 = len l1.
Proof. intros [H _]. unfold len. rewrite H. reflexivity. Qed.

Lemma nth_replace_nth {A : Type} (k j : nat) (x d : A) (xs : list A) :
  (k < List.length xs)%nat ->
  nth j (replace_nth k x xs) d = if Nat.eqb j k then x else nth j xs d.
Proof.
  revert k j; induction xs as [|y xs IH]; intros [|k] [|j]; simpl; intros H;
    try lia; try reflexivity.
  apply IH. lia.
Qed.

Lemma extend_at_grows (bindex : lattice) (i : Z) (ys : bucket) :
  0 <= i < len bindex ->
  exists bindex', extend_at bindex i ys = Ok bindex'
                  /\ grows bindex bindex'
                  /\ forall x, In x ys -> In x (nth (Z.to_nat i) bindex' []).
Proof.
  intros Hi. destruct (extend_at_in_range bindex i ys Hi) as (xs & Hxs & ->).
  assert (Hlt : (Z.to_nat i < List.length bindex)%nat) by (unfold len in Hi; lia).
  eexists. split; [reflexivity|]. split; [split|].
  - apply length_replace_nth.
  - intros k x Hx. rewrite nth_replace_nth by exact Hlt.
    destruct (Nat.eqb k (Z.to_nat i)) eqn:E; [|exact Hx].
    apply Nat.eqb_eq in E. subst k.
    rewrite (nth_error_nth _ _ _ Hxs) in Hx. apply in_or_app. auto.
  - intros x Hx. rewrite nth_replace_nth by exact Hlt.
    rewrite Nat.eqb_refl. apply in_or_app. auto.
Qed.

(** ** The LR strategy *)

Ltac len_lia := unfold len in *; lia.

Section LRStrategy.
Variable eojeol : pystr.
Variable lemmatizer : Lemmatizer.
Variable dic : dictionary.
Variable offset : Z.

Lemma truthy_nonempty {A : Type} (s : list A) : truthy s = true <-> s <> [].
Proof. destruct s; simpl; split; congruence. Qed.

Lemma noun_split_recorded_grows (l1 l2 : lattice) (i : Z) :
  grows l1 l2 ->
  noun_split_recorded eojeol lemmatizer dic offset l1 i ->
  noun_split_recorded eojeol lemmatizer dic offset l2 i.
Proof.
  intros [_ Hg] H Hn Hr. destruct (H Hn Hr) as [H0 Hi]. split; auto.
Qed.

Lemma lr_lookup_step_grows (i : Z) (bindex : lattice) :
  len bindex = len eojeol ->
  1 <= i <= len eojeol ->
  (i = len eojeol ->
   lemmatize (slice_from eojeol i) lemmatizer (offset + i) false = []) ->
  exists bindex',
    lr_lookup_step eojeol lemmatizer dic offset i bindex = Ok bindex'
    /\ grows bindex bindex'
    /\ noun_split_recorded eojeol lemmatizer dic offset bindex' i.
Proof.
  intros Hlen Hi Hlast. unfold lr_lookup_step, noun_split_recorded.
  set (l := slice_to eojeol i). set (r := slice_from eojeol i).
  set (l_pred := lemmatize l lemmatizer offset false).
  set (r_pred := lemmatize r lemmatizer (offset + i) false).
  fold r r_pred in Hlast.
  assert (H1 : exists b1,
             (if check_tag l Noun dic && check_tag r Josa dic
              then append_at bindex 0
                     (mkEojeol l r Noun (Some Josa) offset (offset + i)
                        (offset + len eojeol))
              else Ok bindex) = Ok b1 /\ grows bindex b1).
  { destruct (check_tag l Noun dic && check_tag r Josa dic).
    - destruct (extend_at_grows bindex 0
                  [mkEojeol l r Noun (Some Josa) offset (offset + i)
                     (offset + len eojeol)]) as (b1 & E & G & _); [len_lia|].
      exists b1. auto.
    - exists bindex. split; [reflexivity | apply grows_refl]. }
  destruct H1 as (b1 & -> & G1). simpl.
  assert (Hlen1 : len b1 = len eojeol) by exact (eq_trans (grows_len _ _ G1) Hlen).
  destruct ((check_tag l Noun dic || truthy l_pred) && truthy r_pred) eqn:Hc.
  - apply andb_true_iff in Hc. destruct Hc as [Hl Hr].
    apply truthy_nonempty in Hr.
    assert (Hi' : i < len eojeol).
    { destruct (Z.eq_dec i (len eojeol)) as [Heq|Hne]; [|lia].
      exfalso. apply Hr. apply Hlast. exact Heq. }
    destruct (check_tag l Noun dic) eqn:Hn.
    + destruct (extend_at_grows b1 0
                  [mkEojeol l [] Noun None offset (offset + i) (offset + i)])
        as (b2 & E2 & G2 & In2); [len_lia|].
      unfold append_at. rewrite E2. simpl.
      destruct (extend_at_grows b2 i r_pred) as (b3 & E3 & G3 & In3);
        [pose proof (grows_len _ _ G2) as Hlen2; len_lia|].
      exists b3. split; [exact E3|]. split.
      * eapply grows_trans; [exact G1|]. eapply grows_trans; eassumption.
      * intros _ _. split; [|exact In3].
        apply (proj2 G3). apply In2. simpl. auto.
    + destruct (extend_at_grows b1 0 l_pred) as (b2 & E2 & G2 & In2); [len_lia|].
      rewrite E2. simpl.
      destruct (extend_at_grows b2 i r_pred) as (b3 & E3 & G3 & In3);
        [pose proof (grows_len _ _ G2) as Hlen2; len_lia|].
      exists b3. split; [exact E3|]. split.
      * eapply grows_trans; [exact G1|]. eapply grows_trans; eassumption.
      * intros [=].
  - exists b1. split; [reflexivity|]. split; [exact G1|].
    intros Hn Hr. rewrite Hn in Hc. simpl in Hc.
    apply truthy_nonempty in Hr. congruence.
Qed.

(** [lr_lookup] returns for every non-empty token, provided the lemmatizer
    has no analysis of the empty string; the lattice has one bucket per
    character, bucket 0 holds the analyses of the whole token, and every
    split into a noun and a predicate is recorded. *)
Lemma lr_lookup_returns :
  eojeol <> [] ->
  lemmatizer [] = [] ->
  exists bindex,
    lr_lookup eojeol lemmatizer dic offset = Ok bindex
    /\ len bindex = len eojeol
    /\ (forall x, In x (lemmatize eojeol lemmatizer offset false) ->
                  In x (nth 0 bindex []))
    /\ forall i, 1 <= i <= len eojeol ->
                 noun_split_recorded eojeol lemmatizer dic offset bindex i.
Proof.
  intros Hne Hempty. unfold lr_lookup.
  set (n := len eojeol).
  set (predicators := lemmatize eojeol lemmatizer offset false).
  set (bindex0 := map (fun _ => @nil Eojeol) (py_range 0 n)).
  assert (Hn : 1 <= n).
  { unfold n, len. destruct eojeol; [congruence | simpl; lia]. }
  assert (Hlen0 : len bindex0 = n).
  { unfold bindex0, len, py_range. rewrite !length_map, length_seq. lia. }
  unfold setitem. rewrite norm_index_nonneg by lia. simpl.
  set (bindex1 := replace_nth 0 predicators bindex0).
  pose (Inv := fun (seen : list Z) (st : lattice) =>
                 len st = n
                 /\ (forall x, In x predicators -> In x (nth 0 st []))
                 /\ forall i, In i seen ->
                      noun_split_recorded eojeol lemmatizer dic offset st i).
  destruct (for_each_inv Inv (lr_lookup_step eojeol lemmatizer dic offset)
              (py_range 1 (n + 1))) with (seen := @nil Z) (st := bindex1)
    as (bindex & E & Hlen & Hpred & Hrec).
  - intros seen i st (Hl & Hp & Hs) Hi. apply In_py_range in Hi.
    destruct (lr_lookup_step_grows i st Hl) as (st' & Est & G & Hnew).
    + fold n. lia.
    + intros ->. unfold slice_from.
      rewrite clamp_index_nonneg by lia.
      unfold len. rewrite Nat2Z.id, skipn_all.
      unfold lemmatize. simpl. rewrite Hempty. reflexivity.
    + exists st'. split; [exact Est|]. split; [|split].
      * exact (eq_trans (grows_len _ _ G) Hl).
      * intros x Hx. apply (proj2 G). auto.
      * intros j Hj. apply in_app_or in Hj. destruct Hj as [Hj|[<-|[]]].
        -- eapply noun_split_recorded_grows; [exact G | auto].
        -- exact Hnew.
  - split; [|split].
    + unfold bindex1, len. rewrite length_replace_nth. exact Hlen0.
    + intros x Hx. unfold bindex1. rewrite nth_replace_nth; [exact Hx|].
      unfold len in Hlen0. lia.
    + intros i [].
  - exists bindex. split; [exact E|]. split; [exact Hlen|]. split; [exact Hpred|].
    intros i Hi. apply Hrec. simpl. apply In_py_range. lia.
Qed.
End LRStrategy.

(** C5, as the code has it: for the token 사람이다, with 사람 a dictionary
    noun and 이다 analysed by the lemmatizer, the LR strategy returns a
    lattice of four buckets in which bucket 0 holds the one-part record
    사람/Noun over [offset, offset+2) and bucket 2 holds every analysis of
    이다, anchored at offset+2 and ending at offset+4. *)
Theorem lr_lookup_noun_then_predicate (lemmatizer : Lemmatizer) (dic : dictionary)
  (offset : Z) :
  check_tag Fixtures.saram Noun dic = true ->
  lemmatizer Fixtures.ida <> [] ->
  lemmatizer [] = [] ->
  exists bindex,
    lr_lookup (Fixtures.saram ++ Fixtures.ida) lemmatizer dic offset = Ok bindex
    /\ len bindex = 4
    /\ In (mkEojeol Fixtures.saram [] Noun None offset (offset + 2) (offset + 2))
          (nth 0 bindex [])
    /\ forall a0 a1 u0 u1,
         In (a0, a1, u0, u1) (lemmatizer Fixtures.ida) ->
         In (mkEojeol a0 a1 u0 u1 (offset + 2) (offset + 2 + len a0) (offset + 4))
            (nth 2 bindex []).
Proof.
  intros Hnoun Hida Hempty.
  destruct (lr_lookup_returns (Fixtures.saram ++ Fixtures.ida) lemmatizer dic
              offset) as (bindex & E & Hlen & _ & Hrec);
    [discriminate | exact Hempty |].
  exists bindex. split; [exact E|]. split; [exact Hlen|].
  assert (Hr : lemmatize Fixtures.ida lemmatizer (offset + 2) false
               = map (fun a : analysis =>
                        let '(a0, a1, u0, u1) := a in
                        mkEojeol a0 a1 u0 u1 (offset + 2) (offset + 2 + len a0)
                          (offset + 2 + len Fixtures.ida))
                     (lemmatizer Fixtures.ida)) by reflexivity.
  destruct (Hrec 2) as [H0 H2].
  - vm_compute. split; discriminate.
  - exact Hnoun.
  - change (slice_from (Fixtures.saram ++ Fixtures.ida) 2) with Fixtures.ida.
    rewrite Hr. destruct (lemmatizer Fixtures.ida); [congruence | discriminate].
  - split; [exact H0|].
    intros a0 a1 u0 u1 Hin. apply (H2 _).
    change (slice_from (Fixtures.saram ++ Fixtures.ida) 2) with Fixtures.ida.
    rewrite Hr. apply in_map_iff. exists (a0, a1, u0, u1).
    split; [|exact Hin]. simpl. f_equal. unfold len. simpl. lia.
Qed.

Lemma lr_lookup_noun_then_predicate_witness :
  check_tag Fixtures.saram Noun Fixtures.saram_dic = true
  /\ Fixtures.ida_lemmatizer Fixtures.ida <> []
  /\ Fixtures.ida_lemmatizer [] = []
  /\ exists bindex,
       lr_lookup (Fixtures.saram ++ Fixtures.ida) Fixtures.ida_lemmatizer
         Fixtures.saram_dic 0 = Ok bindex
       /\ len bindex = 4
       /\ In (mkEojeol Fixtures.saram [] Noun None 0 (0 + 2) (0 + 2))
             (nth 0 bindex [])
       /\ forall a0 a1 u0 u1,
            In (a0, a1, u0, u1) (Fixtures.ida_lemmatizer Fixtures.ida) ->
            In (mkEojeol a0 a1 u0 u1 (0 + 2) (0 + 2 + len a0) (0 + 4))
               (nth 2 bindex []).
Proof.
  assert (H1 : check_tag Fixtures.saram Noun Fixtures.saram_dic = true)
    by reflexivity.
  assert (H2 : Fixtures.ida_lemmatizer Fixtures.ida <> [])
    by (vm_compute; discriminate).
  assert (H3 : Fixtures.ida_lemmatizer [] = []) by reflexivity.
  split; [exact H1|]. split; [exact H2|]. split; [exact H3|].
  exact (lr_lookup_noun_then_predicate Fixtures.ida_lemmatizer Fixtures.saram_dic 0
           H1 H2 H3).
Defined.

(** C5, refuted as stated: with 사람 in the Noun set and 이다 analysed as
    이/Adjective + 다/Eomi, the lattice of 사람이다 holds the one-part noun
    record and the analysis of 이다, and no record whose left text is 사람
    and whose right text is 이다 (nor any record spanning the whole token). *)
Lemma lr_lookup_saram_ida_has_no_two_part_record :
  lr_lookup (Fixtures.saram ++ Fixtures.ida) Fixtures.ida_lemmatizer
    Fixtures.saram_dic 0
  = Ok [ [mkEojeol Fixtures.saram [] Noun None 0 2 2];
         [];
         [mkEojeol Fixtures.i_ Fixtures.da "Adjective"%string (Some "Eomi"%string) 2 3 4];
         [] ]
  /\ forall bindex,
       lr_lookup (Fixtures.saram ++ Fixtures.ida) Fixtures.ida_lemmatizer
         Fixtures.saram_dic 0 = Ok bindex ->
       forall eojeols x, In eojeols bindex -> In x eojeols ->
         ~ (w0 x = Fixtures.saram /\ w1 x = Fixtures.ida)
         /\ ~ (b x = 0 /\ e x = 4).
Proof.
  split; [reflexivity|].
  intros bindex H. vm_compute in H. injection H as <-.
  intros eojeols x Hb Hx. simpl in Hb.
  destruct Hb as [<-|[<-|[<-|[<-|[]]]]]; simpl in Hx;
    try contradiction; destruct Hx as [<-|[]]; simpl;
    split; intros [H1 H2]; discriminate.
Qed.

(** ** The invariant of segment records *)

Lemma for_each_Ok_inv {A St : Type} (Inv : St -> Prop)
  (body : A -> St -> result St) (xs : list A) :
  (forall x st st', In x xs -> Inv st -> body x st = Ok st' -> Inv st') ->
  forall st st', Inv st -> for_each xs body st = Ok st' -> Inv st'.
Proof.
  induction xs as [|x xs IH]; intros Hbody st st' Hinv; simpl.
  - intros [= <-]. exact Hinv.
  - destruct (body x st) as [st1|err] eqn:E; simpl; [|discriminate].
    apply IH.
    + intros y s1 s2 Hy. apply Hbody. right. exact Hy.
    + eapply Hbody; [left; reflexivity | exact Hinv | exact E].
Qed.

Lemma In_replace_nth {A : Type} (k : nat) (x y : A) (xs : list A) :
  In y (replace_nth k x xs) -> y = x \/ In y xs.
Proof.
  revert k; induction xs as [|z xs IH]; intros [|k]; simpl; try tauto.
  - intros [<-|H]; auto.
  - intros [<-|H]; auto. destruct (IH k H); auto.
Qed.

Lemma extend_at_all_records (P : Eojeol -> Prop) (bindex bindex' : lattice)
  (i : Z) (ys : bucket) :
  extend_at bindex i ys = Ok bindex' ->
  all_records P bindex -> (forall y, In y ys -> P y) ->
  all_records P bindex'.
Proof.
  intros E Hall Hys. apply extend_at_Ok in E.
  destruct E as (k & xs & Hk & Hxs & ->).
  intros eojeols x Hb Hx. apply In_replace_nth in Hb. destruct Hb as [->|Hb].
  - apply in_app_or in Hx. destruct Hx as [Hx|Hx]; [|auto].
    apply (Hall xs x); [|exact Hx]. eapply nth_error_In. exact Hxs.
  - eapply Hall; eassumption.
Qed.

Lemma lemmatize_fits (lemmatizer : Lemmatizer) (word : pystr) (offset : Z)
  (ensure_hangle : bool) (x : Eojeol) :
  analyses_fit lemmatizer ->
  In x (lemmatize word lemmatizer offset ensure_hangle) ->
  segment_invariant x.
Proof.
  intros Hfit. unfold lemmatize.
  destruct (negb ensure_hangle && negb (is_hangle word)); [intros []|].
  rewrite in_map_iff. intros ([[[a0 a1] u0] u1] & <- & Hin).
  destruct (Hfit word a0 a1 u0 u1 Hin) as (Hlen & Hw & Ht).
  unfold segment_invariant. simpl. split; [|split].
  - unfold len in *. lia.
  - exact Hw.
  - rewrite Ht. lia.
Qed.

Lemma lemmatize_anchored (lemmatizer : Lemmatizer) (word : pystr) (offset : Z)
  (ensure_hangle : bool) (x : Eojeol) :
  In x (lemmatize word lemmatizer offset ensure_hangle) -> b x = offset.
Proof.
  unfold lemmatize.
  destruct (negb ensure_hangle && negb (is_hangle word)); [intros []|].
  rewrite in_map_iff. intros ([[[a0 a1] u0] u1] & <- & Hin). reflexivity.
Qed.

Section LRInvariant.
Variable eojeol : pystr.
Variable lemmatizer : Lemmatizer.
Variable dic : dictionary.
Variable offset : Z.
Hypothesis Hfit : analyses_fit lemmatizer.
Hypothesis Hjosa : check_tag [] Josa dic = false.

Lemma lr_lookup_step_invariant (i : Z) (bindex bindex' : lattice) :
  1 <= i <= len eojeol ->
  all_records segment_invariant bindex ->
  lr_lookup_step eojeol lemmatizer dic offset i bindex = Ok bindex' ->
  all_records segment_invariant bindex'.
Proof.
  intros Hi Hall. unfold lr_lookup_step.
  set (l := slice_to eojeol i). set (r := slice_from eojeol i).
  set (l_pred := lemmatize l lemmatizer offset false).
  set (r_pred := lemmatize r lemmatizer (offset + i) false).
  assert (Hlp : forall y, In y l_pred -> segment_invariant y)
    by (intros y; apply lemmatize_fits; exact Hfit).
  assert (Hrp : forall y, In y r_pred -> segment_invariant y)
    by (intros y; apply lemmatize_fits; exact Hfit).
  assert (Hr : len r = len eojeol - i).
  { unfold r. rewrite len_slice_from, clamp_index_nonneg by lia. lia. }
  destruct (check_tag l Noun dic && check_tag r Josa dic) eqn:Hnj.
  - apply andb_true_iff in Hnj. destruct Hnj as [_ Hj].
    assert (Hrne : r <> []) by (intros Heq; rewrite Heq in Hj; congruence).
    assert (Hrlen : 0 < len r) by (destruct r; [congruence | unfold len; simpl; lia]).
    destruct (append_at bindex 0 _) as [b1|err] eqn:E1; simpl; [|discriminate].
    assert (H1 : all_records segment_invariant b1).
    { eapply extend_at_all_records; [exact E1 | exact Hall|].
      intros y [<-|[]]. unfold segment_invariant. simpl.
      split; [lia|]. split; split; try congruence; lia. }
    clear E1 Hall.
    destruct ((check_tag l Noun dic || truthy l_pred) && truthy r_pred);
      [|intros [= <-]; exact H1].
    destruct (check_tag l Noun dic).
    + destruct (append_at b1 0 _) as [b2|err] eqn:E2; simpl; [|discriminate].
      intros E3. eapply extend_at_all_records; [exact E3| |exact Hrp].
      eapply extend_at_all_records; [exact E2 | exact H1|].
      intros y [<-|[]]. unfold segment_invariant. simpl.
      split; [lia|]. split; split; intros; try reflexivity; lia.
    + destruct (extend_at b1 0 l_pred) as [b2|err] eqn:E2; simpl; [|discriminate].
      intros E3. eapply extend_at_all_records; [exact E3| |exact Hrp].
      eapply extend_at_all_records; [exact E2 | exact H1 | exact Hlp].
  - simpl.
    destruct ((check_tag l Noun dic || truthy l_pred) && truthy r_pred);
      [|intros [= <-]; exact Hall].
    destruct (check_tag l Noun dic).
    + destruct (append_at bindex 0 _) as [b2|err] eqn:E2; simpl; [|discriminate].
      intros E3. eapply extend_at_all_records; [exact E3| |exact Hrp].
      eapply extend_at_all_records; [exact E2 | exact Hall|].
      intros y [<-|[]]. unfold segment_invariant. simpl.
      split; [lia|]. split; split; intros; try reflexivity; lia.
    + destruct (extend_at bindex 0 l_pred) as [b2|err] eqn:E2; simpl; [|discriminate].
      intros E3. eapply extend_at_all_records; [exact E3| |exact Hrp].
      eapply extend_at_all_records; [exact E2 | exact Hall | exact Hlp].
Qed.

Lemma lr_lookup_invariant (bindex : lattice) :
  lr_lookup eojeol lemmatizer dic offset = Ok bindex ->
  all_records segment_invariant bindex.
Proof.
  unfold lr_lookup.
  destruct (setitem _ 0 _) as [bindex1|err] eqn:E1; simpl; [|discriminate].
  apply for_each_Ok_inv.
  - intros i st st' Hi Hall. apply In_py_range in Hi.
    apply lr_lookup_step_invariant; [lia | exact Hall].
  - unfold setitem in E1. destruct (norm_index _ 0) as [k|]; [|discriminate].
    injection E1 as <-. intros eojeols x Hb Hx.
    apply In_replace_nth in Hb. destruct Hb as [->|Hb].
    + eapply lemmatize_fits; [exact Hfit | exact Hx].
    + apply in_map_iff in Hb. destruct Hb as (j & <- & _). destruct Hx.
Qed.
End LRInvariant.

(** ** The template strategy: steps 1 and 2 always return *)

Lemma extend_at_nth {A : Type} (xss : list (list A)) (i : Z) (ys : list A) :
  0 <= i < len xss ->
  exists xss',
    extend_at xss i ys = Ok xss'
    /\ len xss' = len xss
    /\ forall k, nth k xss' [] =
                 if Nat.eqb k (Z.to_nat i) then nth k xss [] ++ ys else nth k xss [].
Proof.
  intros Hi. destruct (extend_at_in_range xss i ys Hi) as (xs & Hxs & ->).
  assert (Hlt : (Z.to_nat i < List.length xss)%nat) by (unfold len in Hi; lia).
  eexists. split; [reflexivity|]. split.
  - unfold len. rewrite length_replace_nth. reflexivity.
  - intros k. rewrite nth_replace_nth by exact Hlt.
    destruct (Nat.eqb k (Z.to_nat i)) eqn:E; [|reflexivity].
    apply Nat.eqb_eq in E. subst k. rewrite (nth_error_nth _ _ _ Hxs). reflexivity.
Qed.

Lemma len_slice {A : Type} (s : list A) (lo hi : Z) :
  0 <= lo <= hi -> hi <= len s -> len (slice s lo hi) = hi - lo.
Proof.
  intros H1 H2. unfold slice.
  rewrite !clamp_index_nonneg by lia.
  unfold len in *. rewrite length_firstn, length_skipn. lia.
Qed.

Lemma set_add_In (x y : Eojeol) (xs : list Eojeol) :
  In y (set_add x xs) -> y = x \/ In y xs.
Proof.
  unfold set_add. destruct (existsb (Eojeol_eqb x) xs); [auto|].
  intros H. apply in_app_or in H. destruct H as [H|[<-|[]]]; auto.
Qed.

Lemma set_update_In (xs ys : list Eojeol) (y : Eojeol) :
  In y (set_update xs ys) -> In y xs \/ In y ys.
Proof.
  unfold set_update. revert xs. induction ys as [|z ys IH]; intros xs; simpl.
  - auto.
  - intros H. apply IH in H. destruct H as [H|H]; [|auto].
    apply set_add_In in H. destruct H as [->|H]; auto.
Qed.

Lemma empty_buckets_nth {A B : Type} (l : list B) (k : nat) :
  nth k (map (fun _ => @nil A) l) [] = [].
Proof.
  revert k. induction l as [|z l IH]; intros [|k]; simpl; auto.
Qed.

Section TemplateSteps.
Variable eojeol : pystr.
Variable lemmatizer : Lemmatizer.
Variable dic : dictionary.
Variable templates : list template.
Variables max_len offset : Z.

Let n := len eojeol.

Lemma empty_buckets_len {A : Type} :
  len (map (fun _ => @nil A) (py_range 0 n)) = n.
Proof.
  unfold len, py_range. rewrite !length_map, length_seq. unfold n, len. lia.
Qed.


Lemma append_span_wf (raw : list (list raw_span)) (a : pystr) (u : tag) (lo hi : Z) :
  raw_wf n raw -> 0 <= lo -> lo < hi <= n -> len a = hi - lo ->
  exists raw', append_at raw lo (a, u, lo, hi) = Ok raw' /\ raw_wf n raw'.
Proof.
  intros [Hlen Hwf] Hlo Hhi Ha.
  destruct (extend_at_nth raw lo [(a, u, lo, hi)]) as (raw' & E & Hlen' & Hnth);
    [lia|].
  exists raw'. split; [exact E|]. split; [lia|].
  intros k a' u' lo' hi' Hin. rewrite Hnth in Hin.
  destruct (Nat.eqb k (Z.to_nat lo)) eqn:Ek; [|eapply Hwf; exact Hin].
  apply in_app_or in Hin. destruct Hin as [Hin|[[= <- <- <- <-]|[]]].
  - eapply Hwf; exact Hin.
  - apply Nat.eqb_eq in Ek. lia.
Qed.

Lemma string_match_returns :
  exists raw predicators,
    string_match eojeol lemmatizer dic max_len offset = Ok (raw, predicators)
    /\ raw_wf n raw
    /\ predicators_wf eojeol lemmatizer offset predicators.
Proof.
  unfold string_match. fold n.
  pose (Inv := fun st : list (list raw_span) * list Eojeol =>
                 raw_wf n (fst st)
                 /\ predicators_wf eojeol lemmatizer offset (snd st)).
  match goal with
  | |- context [for_each ?xs ?body ?st0] =>
      destruct (for_each_preserves Inv body xs st0) as ([raw preds] & E & H1 & H2)
  end.
  - intros lo st Hst Hlo. apply In_py_range in Hlo.
    apply for_each_preserves; [|exact Hst].
    intros hi [raw preds] [Hraw Hpreds] Hhi. apply In_py_range in Hhi.
    simpl in Hraw, Hpreds. cbv beta iota zeta.
    set (sub := slice eojeol lo hi).
    assert (Hsub : len sub = hi - lo) by (apply len_slice; fold n; lia).
    destruct (for_each_preserves (raw_wf n)
                (fun tg bindex => append_at bindex lo (sub, tg, lo, hi))
                (get_tag sub dic) raw) as (raw' & E & Hraw').
    + intros tg st' Hst' _. apply append_span_wf; [exact Hst' | lia | lia | exact Hsub].
    + exact Hraw.
    + rewrite E. simpl. eexists. split; [reflexivity|]. split; [exact Hraw'|].
      simpl. intros x Hx. apply set_update_In in Hx. destruct Hx as [Hx|Hx].
      * apply Hpreds. exact Hx.
      * exists lo, hi. split; [fold n; lia | exact Hx].
  - split; simpl.
    + split; [apply empty_buckets_len|].
      intros k a u lo hi Hin. rewrite empty_buckets_nth in Hin. destruct Hin.
    + intros x [].
  - exists raw, preds. auto.
Qed.
End TemplateSteps.

Section TemplateCombination.
Variable n : Z.
Variable offset : Z.
Variable raw : list (list raw_span).
Hypothesis Hraw : raw_wf n raw.

Lemma append_record_wf (bindex_ : lattice) (lo : Z) (x : Eojeol) :
  candidates_inv n offset bindex_ -> 0 <= lo < n ->
  record_wf offset n (Z.to_nat lo) x ->
  exists bindex', append_at bindex_ lo x = Ok bindex' /\ candidates_inv n offset bindex'.
Proof.
  intros [Hlen Hwf] Hlo Hx.
  destruct (extend_at_nth bindex_ lo [x]) as (bindex' & E & Hlen' & Hnth); [lia|].
  exists bindex'. split; [exact E|]. split; [lia|].
  intros k y Hy. rewrite Hlen', Hlen. rewrite Hnth in Hy.
  destruct (Nat.eqb k (Z.to_nat lo)) eqn:Ek.
  - apply in_app_or in Hy. destruct Hy as [Hy|[<-|[]]].
    + rewrite <- Hlen. apply Hwf. exact Hy.
    + apply Nat.eqb_eq in Ek. subst k. exact Hx.
  - rewrite <- Hlen. apply Hwf. exact Hy.
Qed.

Lemma raw_span_wf (morphs : list raw_span) (a : pystr) (u : tag) (lo hi : Z) :
  In morphs raw -> In (a, u, lo, hi) morphs ->
  0 <= lo /\ lo < hi <= n /\ len a = hi - lo.
Proof.
  intros Hm Hin. destruct (In_nth _ _ [] Hm) as (k & _ & Hk).
  rewrite <- Hk in Hin. destruct Hraw as [_ Hwf].
  destruct (Hwf k a u lo hi Hin) as (-> & H2 & H3). lia.
Qed.

Lemma apply_template_returns (morphs : list raw_span) (span : raw_span)
  (t : template) (bindex_ : lattice) :
  In morphs raw -> In span morphs -> candidates_inv n offset bindex_ ->
  exists bindex', apply_template n offset raw span t bindex_ = Ok bindex'
                  /\ candidates_inv n offset bindex'.
Proof.
  intros Hm Hin Hinv. destruct span as [[[a0 u0] lo] hi].
  destruct (raw_span_wf morphs a0 u0 lo hi Hm Hin) as (Hlo & Hhi & Ha0).
  unfold apply_template.
  destruct t as [|x0 [|x1 [|x2 t]]].
  - exists bindex_. auto.
  - destruct (String.eqb u0 x0); [|exists bindex_; auto].
    apply append_record_wf; [exact Hinv | lia|].
    unfold record_wf. simpl. rewrite Z2Nat.id by lia.
    repeat split; intros; try reflexivity; lia.
  - destruct ((hi <? n) && String.eqb u0 x0) eqn:Hc; [|exists bindex_; auto].
    apply andb_true_iff in Hc. destruct Hc as [Hlt _]. apply Z.ltb_lt in Hlt.
    destruct (getitem_in_range raw hi) as (rights & -> & Hr).
    { destruct Hraw as [-> _]. lia. }
    simpl. apply for_each_preserves; [|exact Hinv].
    intros [[[a1 u1] mid] hi_] st Hst Hright.
    destruct (raw_span_wf rights a1 u1 mid hi_) as (Hmid & Hhi_ & Ha1).
    { eapply nth_error_In. exact Hr. }
    { exact Hright. }
    assert (Hmid' : mid = hi).
    { destruct Hraw as [_ Hwf]. rewrite <- (nth_error_nth _ _ [] Hr) in Hright.
      destruct (Hwf _ _ _ _ _ Hright) as (-> & _). lia. }
    destruct (String.eqb u1 x1); [|exists st; auto].
    apply append_record_wf; [exact Hst | lia|].
    assert (Ha1' : a1 <> []) by (intros ->; unfold len in Ha1; simpl in Ha1; lia).
    unfold record_wf. simpl. rewrite Z2Nat.id by lia.
    repeat split; intros; try congruence; lia.
  - exists bindex_. auto.
Qed.

Lemma as_eojeol_returns (templates : list template) :
  exists bindex_, as_eojeol n offset raw templates = Ok bindex_
                  /\ candidates_inv n offset bindex_.
Proof.
  unfold as_eojeol. apply for_each_preserves.
  - intros morphs st Hst Hm. apply for_each_preserves; [|exact Hst].
    intros span st1 Hst1 Hspan. apply for_each_preserves; [|exact Hst1].
    intros t st2 Hst2 _. eapply apply_template_returns; eassumption.
  - assert (Hn : 0 <= n) by (destruct Hraw as [<- _]; unfold len; lia).
    split.
    + unfold len, py_range. rewrite !length_map, length_seq. lia.
    + intros k x Hx. rewrite empty_buckets_nth in Hx. destruct Hx.
Qed.
End TemplateCombination.

Lemma template_candidates_returns (eojeol : pystr) (lemmatizer : Lemmatizer)
  (dic : dictionary) (templates : list template) (max_len offset : Z) :
  exists bindex_,
    template_candidates eojeol lemmatizer dic templates max_len offset = Ok bindex_
    /\ len bindex_ = len eojeol
    /\ lattice_wf offset bindex_.
Proof.
  unfold template_candidates.
  destruct (string_match_returns eojeol lemmatizer dic max_len offset)
    as (raw & preds & -> & Hraw & _).
  simpl. destruct (as_eojeol_returns (len eojeol) offset raw Hraw templates)
    as (bindex_ & E & Hlen & Hwf).
  exists bindex_. auto.
Qed.

(** ** The overlap remover on the candidates of the template strategy *)

Lemma existsb_ext_in {A : Type} (f g : A -> bool) (l : list A) :
  (forall x, In x l -> f x = g x) -> existsb f l = existsb g l.
Proof.
  induction l as [|x l IH]; simpl; intros H; [reflexivity|].
  rewrite (H x) by auto. rewrite IH by auto. reflexivity.
Qed.

Lemma exist_overlap_scan_wf (offset lo hi : Z) (bindex : lattice) (idx : list Z) :
  lattice_wf offset bindex ->
  (forall i, In i idx -> lo <= i < hi /\ 0 <= i - offset < len bindex) ->
  exist_overlap_scan offset lo hi bindex idx
  = Ok (existsb (fun i => truthy (nth (Z.to_nat (i - offset)) bindex [])) idx).
Proof.
  intros Hwf. induction idx as [|i idx IH]; intros Hidx; simpl; [reflexivity|].
  destruct (Hidx i (or_introl eq_refl)) as [Hi Hr].
  destruct (getitem_in_range bindex (i - offset) Hr) as (eojeols & -> & Hnth).
  simpl. rewrite (nth_error_nth _ _ [] Hnth).
  assert (Hov : existsb (overlaps lo hi) eojeols = truthy eojeols).
  { destruct eojeols as [|y ys]; [reflexivity|]. simpl.
    assert (Hy : record_wf offset (len bindex) (Z.to_nat (i - offset)) y).
    { apply Hwf. rewrite (nth_error_nth _ _ [] Hnth). left. reflexivity. }
    destruct Hy as (Hb & Hm & _). unfold overlaps.
    replace (lo <? m y) with true by (symmetry; apply Z.ltb_lt; lia).
    replace (b y <? hi) with true by (symmetry; apply Z.ltb_lt; lia).
    reflexivity. }
  rewrite Hov. destruct (truthy eojeols); [reflexivity|].
  simpl. apply IH. intros j Hj. apply Hidx. right. exact Hj.
Qed.

Lemma exist_overlap_l_wf (offset : Z) (bindex : lattice) (k : nat) (x : Eojeol) :
  lattice_wf offset bindex ->
  record_wf offset (len bindex) k x ->
  exist_overlap_l offset (m x) (e x) bindex = Ok (occupied offset bindex x).
Proof.
  intros Hwf (Hb & Hm & He & _). unfold exist_overlap_l, occupied, span_occupied.
  apply exist_overlap_scan_wf; [exact Hwf|].
  intros i Hi. apply In_py_range in Hi. lia.
Qed.

Lemma span_occupied_same_emptiness (offset lo hi : Z) (l1 l2 : lattice) :
  (forall j, truthy (nth j l1 []) = truthy (nth j l2 [])) ->
  span_occupied offset lo hi l1 = span_occupied offset lo hi l2.
Proof.
  intros H. unfold span_occupied. apply existsb_ext_in. intros i _. apply H.
Qed.

Lemma collect_pairs_acc (offset : Z) (bindex : lattice) (k : nat) (eojeols : bucket)
  (bm0 : list bm_entry) (me0 : list me_entry) :
  lattice_wf offset bindex ->
  (forall x, In x eojeols -> record_wf offset (len bindex) k x) ->
  for_each eojeols (collect_step offset bindex) (bm0, me0)
  = Ok (bm0 ++ map bm_of (filter (contributes (occupied offset bindex)) eojeols),
        me0 ++ map me_of (filter (contributes (occupied offset bindex)) eojeols)).
Proof.
  intros Hwf. revert bm0 me0.
  induction eojeols as [|x xs IH]; intros bm0 me0 Hrec.
  - simpl. rewrite !app_nil_r. reflexivity.
  - assert (Hxs : forall y, In y xs -> record_wf offset (len bindex) k y)
      by (intros y Hy; apply Hrec; right; exact Hy).
    pose proof (exist_overlap_l_wf offset bindex k x Hwf
                  (Hrec x (or_introl eq_refl))) as Hov.
    cbn [for_each filter]. unfold collect_step at 1.
    destruct (contributes (occupied offset bindex) x) eqn:Hc;
      unfold contributes in Hc.
    + apply andb_true_iff in Hc. destruct Hc as [Hw Ho].
      apply negb_true_iff in Ho. rewrite Hw, Hov, Ho. cbn [negb bind].
      rewrite (IH _ _ Hxs). cbn [map]. unfold bm_of at 2, me_of at 2.
      rewrite <- !app_assoc. reflexivity.
    + destruct (truthy (w1 x)); cbn [andb] in Hc.
      * apply negb_false_iff in Hc. rewrite Hov, Hc. cbn [negb bind].
        apply IH. exact Hxs.
      * cbn [bind]. apply IH. exact Hxs.
Qed.

Lemma collect_pairs_wf (offset : Z) (bindex : lattice) (k : nat) (eojeols : bucket) :
  lattice_wf offset bindex ->
  (forall x, In x eojeols -> record_wf offset (len bindex) k x) ->
  collect_pairs offset bindex eojeols
  = Ok (map bm_of (filter (contributes (occupied offset bindex)) eojeols),
        map me_of (filter (contributes (occupied offset bindex)) eojeols)).
Proof.
  intros Hwf Hrec. unfold collect_pairs.
  rewrite (collect_pairs_acc offset bindex k eojeols [] [] Hwf Hrec). reflexivity.
Qed.

(** *** One bucket *)

Lemma prune_bucket_In (occ : Eojeol -> bool) (eojeols : bucket) (x : Eojeol) :
  In x (prune_bucket occ eojeols) -> In x eojeols.
Proof. unfold prune_bucket. intros H. apply filter_In in H. tauto. Qed.

Lemma prune_bucket_ext (occ occ' : Eojeol -> bool) (eojeols : bucket) :
  (forall x, occ x = occ' x) ->
  prune_bucket occ eojeols = prune_bucket occ' eojeols.
Proof.
  intros H. unfold prune_bucket.
  rewrite (filter_ext (contributes occ) (contributes occ')); [reflexivity|].
  intros x. unfold contributes. rewrite H. reflexivity.
Qed.

Lemma latest_end_exists (cs : bucket) :
  cs <> [] -> exists c, In c cs /\ forall c', In c' cs -> e c' <= e c.
Proof.
  induction cs as [|x cs IH]; [congruence|]. intros _.
  destruct cs as [|y cs].
  - exists x. split; [left; reflexivity|]. intros c' [<-|[]]. lia.
  - destruct IH as (c & Hc & Hmax); [discriminate|].
    destruct (Z_le_gt_dec (e x) (e c)) as [Hle|Hgt].
    + exists c. split; [right; exact Hc|].
      intros c' [<-|Hc']; [exact Hle | apply Hmax; exact Hc'].
    + exists x. split; [left; reflexivity|].
      intros c' [<-|Hc']; [lia | specialize (Hmax c' Hc'); lia].
Qed.

Lemma skip_false_iff (x : Eojeol) (bm_pair : list bm_entry) (me_pair : list me_entry) :
  skip x bm_pair me_pair = false <->
  (forall p, In p bm_pair ->
     (let '(b', m', t) := p in
      negb (truthy (w1 x)) && (b x =? b') && (m x =? m') && String.eqb (t0 x) t)
     = false)
  /\ (forall p, In p me_pair ->
     (let '(m', e', t) := p in
      truthy (w1 x) && (m x =? m') && (e x <? e') && opt_tag_eqb (t1 x) t)
     = false).
Proof.
  unfold skip. rewrite orb_false_iff.
  rewrite <- !not_true_iff_false, !existsb_exists.
  split.
  - intros [H1 H2]. split; intros p Hp; apply not_true_iff_false; intros Ht.
    + apply H1. exists p. auto.
    + apply H2. exists p. auto.
  - intros [H1 H2]. split; intros (p & Hp & Ht).
    + rewrite (H1 p Hp) in Ht. discriminate.
    + rewrite (H2 p Hp) in Ht. discriminate.
Qed.

Lemma skip_false_incl (x : Eojeol) (bm bm' : list bm_entry) (me me' : list me_entry) :
  incl bm' bm -> incl me' me ->
  skip x bm me = false -> skip x bm' me' = false.
Proof.
  intros Hb Hm. rewrite !skip_false_iff. intros [H1 H2]. split.
  - intros p Hp. apply H1. apply Hb. exact Hp.
  - intros p Hp. apply H2. apply Hm. exact Hp.
Qed.

(** A round never empties a bucket: among the records that prune, the one
    that ends last is kept. *)
Lemma prune_bucket_truthy (occ : Eojeol -> bool) (eojeols : bucket) :
  truthy (prune_bucket occ eojeols) = truthy eojeols.
Proof.
  destruct eojeols as [|x0 xs]; [reflexivity|].
  set (eojeols := x0 :: xs). cbn [truthy].
  enough (H : exists x, In x (prune_bucket occ eojeols)).
  { destruct H as (x & Hx). destruct (prune_bucket occ eojeols);
      [destruct Hx | reflexivity]. }
  unfold prune_bucket. set (cs := filter (contributes occ) eojeols).
  destruct cs as [|c0 cs'] eqn:Ecs.
  - exists x0. apply filter_In. split; [left; reflexivity | reflexivity].
  - destruct (latest_end_exists cs) as (c & Hc & Hmax).
    { rewrite Ecs. discriminate. }
    rewrite <- Ecs. exists c.
    assert (Hc' := Hc). unfold cs in Hc'. apply filter_In in Hc'.
    destruct Hc' as [Hin Hcon]. unfold contributes in Hcon.
    apply andb_true_iff in Hcon. destruct Hcon as [Hw _].
    apply filter_In. split; [exact Hin|]. apply negb_true_iff.
    apply skip_false_iff. split.
    + intros [[b' m'] t] _. rewrite Hw. reflexivity.
    + intros [[m' e'] t] Hp. apply in_map_iff in Hp.
      destruct Hp as (c' & [= <- <- <-] & Hc'').
      specialize (Hmax c' Hc'').
      replace (e c <? e c') with false by (symmetry; apply Z.ltb_ge; lia).
      rewrite andb_false_r. reflexivity.
Qed.

Lemma filter_all {A : Type} (f : A -> bool) (l : list A) :
  (forall x, In x l -> f x = true) -> filter f l = l.
Proof.
  induction l as [|x l IH]; simpl; intros H; [reflexivity|].
  rewrite (H x) by auto. rewrite IH by auto. reflexivity.
Qed.

(** A pruned bucket is not pruned further. *)
Lemma prune_bucket_idempotent (occ : Eojeol -> bool) (eojeols : bucket) :
  prune_bucket occ (prune_bucket occ eojeols) = prune_bucket occ eojeols.
Proof.
  set (kept := prune_bucket occ eojeols).
  unfold prune_bucket at 1. apply filter_all. intros x Hx.
  apply negb_true_iff.
  assert (Hsub : incl (filter (contributes occ) kept)
                      (filter (contributes occ) eojeols)).
  { intros y Hy. apply filter_In in Hy. destruct Hy as [Hy Hc].
    apply filter_In. split; [|exact Hc]. eapply prune_bucket_In. exact Hy. }
  apply (skip_false_incl x (map bm_of (filter (contributes occ) eojeols)) _
           (map me_of (filter (contributes occ) eojeols)) _).
  - apply incl_map. exact Hsub.
  - apply incl_map. exact Hsub.
  - unfold kept, prune_bucket in Hx. apply filter_In in Hx.
    destruct Hx as [_ Hx]. apply negb_true_iff in Hx. exact Hx.
Qed.

(** *** The whole lattice *)

Lemma for_each_seq_inv {St : Type} (Inv : nat -> St -> Prop)
  (body : nat -> St -> result St) (count : nat) :
  forall start st,
    (forall k st, (start <= k < start + count)%nat -> Inv k st ->
       exists st', body k st = Ok st' /\ Inv (S k) st') ->
    Inv start st ->
    exists st', for_each (seq start count) body st = Ok st'
                /\ Inv (start + count)%nat st'.
Proof.
  induction count as [|count IH]; intros start st Hbody Hinv; simpl.
  - exists st. rewrite Nat.add_0_r. auto.
  - destruct (Hbody start st) as (st1 & -> & H1); [lia | exact Hinv|].
    simpl. destruct (IH (S start) st1) as (st2 & -> & H2).
    + intros k st' Hk. apply Hbody. lia.
    + exact H1.
    + exists st2. split; [reflexivity|].
      replace (start + S count)%nat with (S start + count)%nat by lia. exact H2.
Qed.

Section RemoveSub.
Variable offset : Z.
Variable bindex0 : lattice.
Hypothesis Hwf0 : lattice_wf offset bindex0.

Let occ0 := occupied offset bindex0.

(** After [k] rounds the first [k] buckets are pruned, the others are as
    they were. *)
Let rounds_done (k : nat) (bindex : lattice) : Prop :=
  List.length bindex = List.length bindex0
  /\ forall j, nth j bindex [] =
               if (j <? k)%nat then prune_bucket occ0 (nth j bindex0 [])
               else nth j bindex0 [].

Lemma rounds_done_wf (k : nat) (bindex : lattice) :
  rounds_done k bindex -> lattice_wf offset bindex.
Proof.
  intros [Hlen Hnth] j x Hx. unfold len. rewrite Hlen.
  apply Hwf0. rewrite Hnth in Hx.
  destruct (j <? k)%nat; [eapply prune_bucket_In; exact Hx | exact Hx].
Qed.

Lemma rounds_done_occupied (k : nat) (bindex : lattice) (x : Eojeol) :
  rounds_done k bindex -> occupied offset bindex x = occ0 x.
Proof.
  intros [_ Hnth]. unfold occ0, occupied.
  apply span_occupied_same_emptiness. intros j. rewrite Hnth.
  destruct (j <? k)%nat; [apply prune_bucket_truthy | reflexivity].
Qed.

Lemma remove_sub_step_round (k : nat) (bindex : lattice) :
  (k < List.length bindex0)%nat ->
  rounds_done k bindex ->
  exists bindex', remove_sub_step offset k bindex = Ok bindex'
                  /\ rounds_done (S k) bindex'.
Proof.
  intros Hk Hdone. pose proof Hdone as [Hlen Hnth].
  unfold remove_sub_step.
  rewrite (nth_error_nth' bindex [] (n := k)) by lia.
  rewrite Hnth, Nat.ltb_irrefl.
  set (eojeols := nth k bindex0 []).
  rewrite (collect_pairs_wf offset bindex k eojeols).
  - cbn [bind fst snd].
    rewrite (filter_ext (contributes (occupied offset bindex)) (contributes occ0)).
    + eexists. split; [reflexivity|]. split.
      * rewrite length_replace_nth. exact Hlen.
      * intros j. rewrite nth_replace_nth by lia. rewrite Hnth.
        destruct (Nat.eqb j k) eqn:Ejk.
        -- apply Nat.eqb_eq in Ejk. subst j.
           replace (k <? S k)%nat with true by (symmetry; apply Nat.ltb_lt; lia).
           reflexivity.
        -- apply Nat.eqb_neq in Ejk.
           destruct (j <? k)%nat eqn:E1.
           ++ apply Nat.ltb_lt in E1.
              replace (j <? S k)%nat with true by (symmetry; apply Nat.ltb_lt; lia).
              reflexivity.
           ++ apply Nat.ltb_ge in E1.
              replace (j <? S k)%nat with false by (symmetry; apply Nat.ltb_ge; lia).
              reflexivity.
    + intros x. unfold contributes.
      rewrite (rounds_done_occupied k bindex x Hdone). reflexivity.
  - eapply rounds_done_wf. exact Hdone.
  - intros x Hx. unfold len. rewrite Hlen. apply Hwf0. exact Hx.
Qed.

Lemma nth_map_prune (j : nat) :
  nth j (map (prune_bucket occ0) bindex0) [] = prune_bucket occ0 (nth j bindex0 []).
Proof.
  change (@nil Eojeol) with (prune_bucket occ0 []) at 1. apply map_nth.
Qed.

(** On a well-formed lattice [remove_sub] returns, and prunes every bucket
    with the overlap test of the lattice it was given. *)
Lemma remove_sub_wf :
  remove_sub bindex0 offset = Ok (map (prune_bucket occ0) bindex0).
Proof.
  unfold remove_sub.
  destruct (for_each_seq_inv rounds_done (remove_sub_step offset)
              (List.length bindex0) 0%nat bindex0) as (bindex & E & Hlen & Hnth).
  - intros k st Hk. apply remove_sub_step_round. lia.
  - split; [reflexivity|]. intros j. reflexivity.
  - rewrite E. f_equal. apply (nth_ext _ _ [] []).
    + rewrite length_map. exact Hlen.
    + intros j Hj. rewrite nth_map_prune, Hnth.
      replace (j <? 0 + List.length bindex0)%nat with true
        by (symmetry; apply Nat.ltb_lt; lia).
      reflexivity.
Qed.

Lemma pruned_lattice_wf : lattice_wf offset (map (prune_bucket occ0) bindex0).
Proof.
  intros j x Hx. unfold len. rewrite length_map. apply Hwf0.
  rewrite nth_map_prune in Hx. eapply prune_bucket_In. exact Hx.
Qed.

Lemma pruned_lattice_occupied (x : Eojeol) :
  occupied offset (map (prune_bucket occ0) bindex0) x = occ0 x.
Proof.
  unfold occ0, occupied. apply span_occupied_same_emptiness.
  intros j. rewrite nth_map_prune. apply prune_bucket_truthy.
Qed.
End RemoveSub.

(** [remove_sub] is idempotent on every well-formed lattice. *)
Lemma remove_sub_idempotent_wf (offset : Z) (bindex : lattice) :
  lattice_wf offset bindex ->
  exists pruned,
    remove_sub bindex offset = Ok pruned
    /\ remove_sub pruned offset = Ok pruned
    /\ len pruned = len bindex
    /\ forall k x, In x (nth k pruned []) -> In x (nth k bindex []).
Proof.
  intros Hwf. exists (map (prune_bucket (occupied offset bindex)) bindex).
  split; [apply remove_sub_wf; exact Hwf|]. split; [|split].
  - rewrite (remove_sub_wf offset _ (pruned_lattice_wf offset bindex Hwf)).
    f_equal. rewrite map_map. apply map_ext. intros eojeols.
    rewrite (prune_bucket_ext _ (occupied offset bindex)).
    + apply prune_bucket_idempotent.
    + intros x. apply pruned_lattice_occupied.
  - unfold len. rewrite length_map. reflexivity.
  - intros k x Hx. rewrite nth_map_prune in Hx. eapply prune_bucket_In. exact Hx.
Qed.

(** C3: the candidates of the template strategy are always built, the
    overlap remover returns on them, and applied to its own result it
    returns that result unchanged. *)
Theorem remove_sub_idempotent_on_template_candidates (eojeol : pystr)
  (lemmatizer : Lemmatizer) (dic : dictionary) (templates : list template)
  (max_len offset : Z) :
  exists candidates pruned,
    template_candidates eojeol lemmatizer dic templates max_len offset
    = Ok candidates
    /\ remove_sub candidates offset = Ok pruned
    /\ remove_sub pruned offset = Ok pruned.
Proof.
  destruct (template_candidates_returns eojeol lemmatizer dic templates max_len
              offset) as (candidates & E & _ & Hwf).
  destruct (remove_sub_idempotent_wf offset candidates Hwf)
    as (pruned & E1 & E2 & _).
  exists candidates, pruned. auto.
Qed.

(** ** The template strategy as a whole *)

Lemma lattice_wf_invariant (offset : Z) (bindex : lattice) :
  lattice_wf offset bindex -> all_records segment_invariant bindex.
Proof.
  intros Hwf eojeols x Hb Hx. destruct (In_nth _ _ [] Hb) as (k & _ & Hk).
  rewrite <- Hk in Hx. destruct (Hwf k x Hx) as (_ & H1 & H2 & H3 & H4).
  unfold segment_invariant. split; [lia | auto].
Qed.

Lemma all_records_nth (P : Eojeol -> Prop) (bindex : lattice) :
  all_records P bindex <-> forall k x, In x (nth k bindex []) -> P x.
Proof.
  split.
  - intros H k x Hx. destruct (Nat.lt_ge_cases k (List.length bindex)) as [Hk|Hk].
    + apply (H (nth k bindex []) x); [apply nth_In; exact Hk | exact Hx].
    + rewrite nth_overflow in Hx by exact Hk. destruct Hx.
  - intros H eojeols x Hb Hx. destruct (In_nth _ _ [] Hb) as (k & _ & Hk).
    apply (H k). rewrite Hk. exact Hx.
Qed.

Lemma add_predicators_returns (eojeol : pystr) (lemmatizer : Lemmatizer)
  (offset : Z) (predicators : list Eojeol) (bindex_ : lattice) :
  predicators_wf eojeol lemmatizer offset predicators ->
  len bindex_ = len eojeol ->
  exists bindex,
    add_predicators offset predicators bindex_ = Ok bindex
    /\ len bindex = len eojeol
    /\ forall k x, In x (nth k bindex []) ->
                   In x (nth k bindex_ []) \/ In x predicators.
Proof.
  intros Hp Hlen. unfold add_predicators.
  pose (Inv := fun st : lattice =>
                 len st = len eojeol
                 /\ forall k x, In x (nth k st []) ->
                                In x (nth k bindex_ []) \/ In x predicators).
  destruct (for_each_preserves Inv
              (fun word st => append_at st (b word - offset) word)
              predicators bindex_) as (bindex & E & H).
  - intros word st [Hl Hst] Hword.
    destruct (Hp word Hword) as (lo & hi & Hlo & Hin).
    rewrite (lemmatize_anchored _ _ _ _ _ Hin).
    destruct (extend_at_nth st (offset + lo - offset) [word])
      as (st' & Est & Hl' & Hnth); [lia|].
    exists st'. split; [exact Est|]. split; [lia|].
    intros k x Hx. rewrite Hnth in Hx.
    destruct (Nat.eqb k _); [|apply Hst; exact Hx].
    apply in_app_or in Hx. destruct Hx as [Hx|[<-|[]]]; [apply Hst; exact Hx | auto].
  - split; [exact Hlen | auto].
  - exists bindex. split; [exact E | exact H].
Qed.

(** [template_lookup] hands the candidates of steps 1 and 2 to [remove_sub]
    and adds the pending predicators to what [remove_sub] returns. *)
Lemma template_lookup_steps (eojeol : pystr) (lemmatizer : Lemmatizer)
  (dic : dictionary) (templates : list template) (max_len offset : Z) :
  template_lookup eojeol lemmatizer dic templates max_len offset
  = (st <- string_match eojeol lemmatizer dic max_len offset ;;
     candidates <- template_candidates eojeol lemmatizer dic templates max_len offset ;;
     pruned <- remove_sub candidates offset ;;
     add_predicators offset (snd st) pruned).
Proof.
  unfold template_lookup, template_candidates.
  destruct (string_match eojeol lemmatizer dic max_len offset) as [st|err];
    reflexivity.
Qed.

(** [template_lookup] returns for every input; its lattice has one bucket
    per character, and each record is a pruned candidate of step 2 or a
    predicate analysis of step 1. *)
Lemma template_lookup_returns (eojeol : pystr) (lemmatizer : Lemmatizer)
  (dic : dictionary) (templates : list template) (max_len offset : Z) :
  exists bindex,
    template_lookup eojeol lemmatizer dic templates max_len offset = Ok bindex
    /\ len bindex = len eojeol
    /\ forall k x, In x (nth k bindex []) ->
         record_wf offset (len eojeol) k x
         \/ exists word anchor, In x (lemmatize word lemmatizer anchor false).
Proof.
  unfold template_lookup.
  destruct (string_match_returns eojeol lemmatizer dic max_len offset)
    as (raw & preds & -> & Hraw & Hpreds).
  cbn [bind fst snd].
  destruct (as_eojeol_returns (len eojeol) offset raw Hraw templates)
    as (candidates & -> & Hlen & Hwf).
  cbn [bind].
  destruct (remove_sub_idempotent_wf offset candidates Hwf)
    as (pruned & -> & _ & Hlenp & Hsub).
  cbn [bind].
  destruct (add_predicators_returns eojeol lemmatizer offset preds pruned Hpreds)
    as (bindex & -> & Hlenb & Hfrom); [lia|].
  exists bindex. split; [reflexivity|]. split; [exact Hlenb|].
  intros k x Hx. destruct (Hfrom k x Hx) as [Hc|Hp].
  - left. rewrite <- Hlen. apply Hwf. apply Hsub. exact Hc.
  - right. destruct (Hpreds x Hp) as (lo & hi & _ & Hin). eauto.
Qed.

(** C2, as the code has it: when the analyses of the lemmatizer fit the
    invariant (stem no longer than the word, ending empty iff its tag is
    absent iff the stem covers the word) and the empty string is no Josa,
    every record of [lemmatize], of the lattice [lr_lookup] returns and of
    the lattice [template_lookup] returns has [begin <= mid <= end], and its
    right text is empty iff its right tag is absent iff [mid = end]. *)
Theorem lookup_records_satisfy_invariant (lemmatizer : Lemmatizer) (dic : dictionary) :
  analyses_fit lemmatizer ->
  check_tag [] Josa dic = false ->
  (forall word offset ensure_hangle x,
     In x (lemmatize word lemmatizer offset ensure_hangle) -> segment_invariant x)
  /\ (forall eojeol offset bindex,
        lr_lookup eojeol lemmatizer dic offset = Ok bindex ->
        all_records segment_invariant bindex)
  /\ (forall eojeol templates max_len offset,
        exists bindex,
          template_lookup eojeol lemmatizer dic templates max_len offset = Ok bindex
          /\ all_records segment_invariant bindex).
Proof.
  intros Hfit Hjosa. split; [|split].
  - intros word offset eh x. apply lemmatize_fits. exact Hfit.
  - intros eojeol offset bindex. apply lr_lookup_invariant; assumption.
  - intros eojeol templates max_len offset.
    destruct (template_lookup_returns eojeol lemmatizer dic templates max_len offset)
      as (bindex & E & _ & Hrec).
    exists bindex. split; [exact E|]. apply all_records_nth.
    intros k x Hx. destruct (Hrec k x Hx) as [Hwf | (word & anchor & Hin)].
    + destruct Hwf as (_ & H1 & H2 & H3 & H4).
      unfold segment_invariant. split; [lia | auto].
    + eapply lemmatize_fits; [exact Hfit | exact Hin].
Qed.

Lemma ida_lemmatizer_fits : analyses_fit Fixtures.ida_lemmatizer.
Proof.
  intros word a0 a1 u0 u1. unfold Fixtures.ida_lemmatizer.
  destruct (str_eqb word Fixtures.ida) eqn:E; [|intros []].
  apply str_eqb_eq in E. subst word.
  intros [[= <- <- <- <-]|[]]. vm_compute.
  repeat split; intros; discriminate.
Qed.

Lemma lookup_records_satisfy_invariant_witness :
  analyses_fit Fixtures.ida_lemmatizer
  /\ check_tag [] Josa Fixtures.saram_dic = false
  /\ forall eojeol offset bindex,
       lr_lookup eojeol Fixtures.ida_lemmatizer Fixtures.saram_dic offset
       = Ok bindex ->
       all_records segment_invariant bindex.
Proof.
  split; [exact ida_lemmatizer_fits|]. split; [reflexivity|].
  exact (proj1 (proj2 (lookup_records_satisfy_invariant Fixtures.ida_lemmatizer
                         Fixtures.saram_dic ida_lemmatizer_fits eq_refl))).
Defined.

(** C2, refuted as stated: the lemmatizer analyses 해 as 하 + 아, a stem as
    long as the word with a non-empty ending; the record has [mid = end]
    with a right text and a right tag, and [lr_lookup] returns it. *)
Lemma lemmatized_hae_breaks_invariant :
  let x := mkEojeol Fixtures.ha Fixtures.a_ "Verb" (Some "Eomi"%string) 0 1 1 in
  lemmatize Fixtures.hae Fixtures.hae_lemmatizer 0 false = [x]
  /\ lr_lookup Fixtures.hae Fixtures.hae_lemmatizer [] 0 = Ok [[x]]
  /\ m x = e x /\ w1 x <> [] /\ t1 x <> None
  /\ ~ segment_invariant x.
Proof.
  intros x. split; [reflexivity|]. split; [reflexivity|].
  split; [reflexivity|]. split; [discriminate|]. split; [discriminate|].
  intros (_ & _ & H). destruct H as [_ H].
  specialize (H eq_refl). discriminate.
Qed.

(** ** Sentences: where the offsets count from *)

Lemma split_acc_concat (s cur : pystr) :
  List.concat (split_acc s cur) = rev cur ++ filter (fun c => negb (is_space c)) s.
Proof.
  revert cur. induction s as [|c s IH]; intros cur; simpl.
  - destruct cur; simpl; rewrite ?app_nil_r; reflexivity.
  - destruct (is_space c); simpl.
    + destruct cur as [|d cur]; [apply IH|].
      cbn [List.concat]. rewrite IH. reflexivity.
    + rewrite IH. simpl. rewrite <- app_assoc. reflexivity.
Qed.

(** The tokens of a sentence, put end to end, are the sentence without its
    whitespace. *)
Lemma split_concat (s : pystr) :
  List.concat (split s) = filter (fun c => negb (is_space c)) s.
Proof. apply split_acc_concat. Qed.

Lemma lr_lookup_len (eojeol : pystr) (lemmatizer : Lemmatizer) (dic : dictionary)
  (offset : Z) (bindex : lattice) :
  lr_lookup eojeol lemmatizer dic offset = Ok bindex -> len bindex = len eojeol.
Proof.
  unfold lr_lookup.
  destruct (setitem _ 0 _) as [bindex1|err] eqn:E1; cbn [bind]; [|discriminate].
  assert (Hext : forall (l l' : lattice) i ys,
             extend_at l i ys = Ok l' -> len l' = len l).
  { intros l l' i ys E. apply extend_at_Ok in E.
    destruct E as (k & xs & _ & _ & ->). unfold len.
    rewrite length_replace_nth. reflexivity. }
  apply (for_each_Ok_inv (fun st : lattice => len st = len eojeol)).
  - intros i st st' _ Hst. unfold lr_lookup_step.
    destruct (check_tag _ Noun dic && check_tag _ Josa dic).
    + destruct (append_at st 0 _) as [b1|err] eqn:Ea; cbn [bind]; [|discriminate].
      apply Hext in Ea.
      destruct ((check_tag _ Noun dic || truthy _) && truthy _);
        [|intros [= <-]; lia].
      destruct (check_tag _ Noun dic).
      * destruct (append_at b1 0 _) as [b2|err] eqn:Eb; cbn [bind]; [|discriminate].
        apply Hext in Eb. intros Ec. apply Hext in Ec. lia.
      * destruct (extend_at b1 0 _) as [b2|err] eqn:Eb; cbn [bind]; [|discriminate].
        apply Hext in Eb. intros Ec. apply Hext in Ec. lia.
    + cbn [bind].
      destruct ((check_tag _ Noun dic || truthy _) && truthy _);
        [|intros [= <-]; lia].
      destruct (check_tag _ Noun dic).
      * destruct (append_at st 0 _) as [b2|err] eqn:Eb; cbn [bind]; [|discriminate].
        apply Hext in Eb. intros Ec. apply Hext in Ec. lia.
      * destruct (extend_at st 0 _) as [b2|err] eqn:Eb; cbn [bind]; [|discriminate].
        apply Hext in Eb. intros Ec. apply Hext in Ec. lia.
  - unfold setitem in E1. destruct (norm_index _ 0) as [k|]; [|discriminate].
    injection E1 as <-. unfold len.
    rewrite length_replace_nth, length_map. unfold py_range.
    rewrite length_map, length_seq. lia.
Qed.

Lemma sentence_loop_offsets (eojeol_lookup : pystr -> Z -> result lattice)
  (eojeols : list pystr) :
  (forall eojeol offset bindex,
     eojeol_lookup eojeol offset = Ok bindex -> len bindex = len eojeol) ->
  forall sent : lattice,
    for_each eojeols
      (fun eojeol sent => r <- eojeol_lookup eojeol (len sent) ;; Ok (sent ++ r))
      sent
    = (rs <- lookup_tokens eojeol_lookup eojeols (len sent) ;; Ok (sent ++ rs)).
Proof.
  intros Hlen. induction eojeols as [|eojeol rest IH]; intros sent.
  - simpl. rewrite app_nil_r. reflexivity.
  - cbn [for_each lookup_tokens].
    destruct (eojeol_lookup eojeol (len sent)) as [r|err] eqn:E; cbn [bind];
      [|reflexivity].
    rewrite IH. rewrite len_app, (Hlen _ _ _ E).
    destruct (lookup_tokens eojeol_lookup rest (len sent + len eojeol))
      as [rs|err]; cbn [bind]; [|reflexivity].
    rewrite app_assoc. reflexivity.
Qed.

Lemma sentence_lookup_with_offsets (eojeol_lookup : pystr -> Z -> result lattice)
  (sentence : pystr) :
  (forall eojeol offset bindex,
     eojeol_lookup eojeol offset = Ok bindex -> len bindex = len eojeol) ->
  sentence_lookup_with eojeol_lookup sentence
  = lookup_tokens eojeol_lookup (split (remove_doublespace sentence)) 0.
Proof.
  intros Hlen. unfold sentence_lookup_with.
  rewrite (sentence_loop_offsets eojeol_lookup _ Hlen []).
  change (len (@nil (list Eojeol))) with 0.
  destruct (lookup_tokens _ _ 0); reflexivity.
Qed.

Lemma dict_get_set_other {V : Type} (d : list (pystr * V)) (k k' : pystr)
  (v dflt : V) :
  k <> k' -> dict_get (dict_set d k v) k' dflt = dict_get d k' dflt.
Proof.
  intros Hne. induction d as [|[k0 v0] d IH]; simpl.
  - destruct (str_eqb k' k) eqn:E; [|reflexivity].
    apply str_eqb_eq in E. congruence.
  - destruct (str_eqb k k0) eqn:E; simpl.
    + apply str_eqb_eq in E. subst k0.
      destruct (str_eqb k' k) eqn:E'; [|reflexivity].
      apply str_eqb_eq in E'. congruence.
    + rewrite IH. reflexivity.
Qed.

(** Through the cache, tokens that are looked up for the first time are
    looked up at the same offsets. *)
Lemma cached_sentence_first_occurrences
  (eojeol_lookup0 : pystr -> Z -> result lattice) (eojeols : list pystr) :
  (forall eojeol offset bindex,
     eojeol_lookup0 eojeol offset = Ok bindex -> len bindex = len eojeol) ->
  NoDup eojeols ->
  forall (sent : lattice) (self : LookupBuffer),
    (forall t, In t eojeols -> dict_get (_buffer_counter self) t 0 = 0) ->
    fst (fst (sentence_lookup_loop (stateless eojeol_lookup0) eojeols sent self tt))
    = (rs <- lookup_tokens eojeol_lookup0 eojeols (len sent) ;; Ok (sent ++ rs)).
Proof.
  intros Hlen Hnd. induction Hnd as [|eojeol rest Hnin Hnd IH]; intros sent self Hfresh.
  - simpl. rewrite app_nil_r. reflexivity.
  - cbn [sentence_lookup_loop lookup_tokens].
    rewrite eojeol_lookup_miss by (apply Hfresh; left; reflexivity).
    unfold stateless at 1.
    destruct (eojeol_lookup0 eojeol (len sent)) as [r|err] eqn:E; cbn [bind];
      [|reflexivity].
    rewrite IH.
    + rewrite len_app, (Hlen _ _ _ E).
      destruct (lookup_tokens eojeol_lookup0 rest (len sent + len eojeol))
        as [rs|err]; cbn [bind]; [|reflexivity].
      rewrite app_assoc. reflexivity.
    + intros t Ht. cbn [_buffer_counter].
      rewrite dict_get_set_other; [apply Hfresh; right; exact Ht|].
      intros ->. contradiction.
Qed.

(** C6, refuted as stated: in the normalized sentence 나는 나는 the second
    token occupies the positions 3 and 4, yet its record is anchored at 2
    and ends at 4; read as positions in the normalized sentence these
    delimit the text 는 followed by the space, not 나는. *)
Lemma second_token_anchored_before_its_position :
  let sentence := Fixtures.na_neun_twice in
  let x := Fixtures.second_na_neun in
  remove_doublespace sentence = sentence
  /\ LRLookup_init Fixtures.no_lemmatizer_class Fixtures.na_neun_dic 0
       (Some Fixtures.no_lemmatizer) = Ok Fixtures.na_neun_lookup
  /\ LRLookup_sentence_lookup Fixtures.na_neun_lookup sentence
     = Ok [ [mkEojeol Fixtures.na Fixtures.neun Noun (Some Josa) 0 1 2]; [];
            [x]; [] ]
  /\ slice sentence 3 5 = w0 x ++ w1 x
  /\ covered_text (remove_doublespace sentence) x <> w0 x ++ w1 x.
Proof.
  intros sentence x. split; [reflexivity|]. split; [reflexivity|].
  split; [reflexivity|]. split; [reflexivity|]. vm_compute. discriminate.
Qed.

(** ** The cache keeps its two dicts in step *)

Lemma dict_set_keys {V : Type} (d : list (pystr * V)) (k : pystr) (v : V) :
  map fst (dict_set d k v) = if dict_mem d k then map fst d else map fst d ++ [k].
Proof.
  unfold dict_mem. induction d as [|[k' v'] d IH]; simpl; [reflexivity|].
  destruct (str_eqb k k') eqn:E; simpl; [reflexivity|].
  rewrite IH. destruct (existsb _ d); reflexivity.
Qed.

Lemma NoDup_snoc {A : Type} (l : list A) (x : A) :
  NoDup l -> ~ In x l -> NoDup (l ++ [x]).
Proof.
  intros Hl Hx. apply NoDup_rev in Hl.
  rewrite <- (rev_involutive (l ++ [x])). apply NoDup_rev.
  rewrite rev_app_distr. simpl. constructor; [|exact Hl].
  rewrite <- in_rev. exact Hx.
Qed.

Lemma dict_get_nonzero_mem (d : list (pystr * Z)) (k : pystr) :
  dict_get d k 0 <> 0 -> dict_mem d k = true.
Proof.
  intros H. destruct (dict_mem d k) eqn:E; [reflexivity|].
  rewrite (dict_get_absent d k 0 E) in H. congruence.
Qed.

Lemma cache_wf_init (preanalyzed : list (pystr * lattice)) :
  NoDup (map fst preanalyzed) ->
  cache_wf (LookupBuffer_init (Some preanalyzed))
  /\ cache_wf (LookupBuffer_init None).
Proof.
  intros H. unfold cache_wf. simpl. rewrite map_map. simpl.
  repeat split; try assumption; try constructor; auto.
Qed.

Lemma cache_wf_eojeol_lookup {St : Type} (lookup : Strategy St)
  (self : LookupBuffer) (eojeol : pystr) (offset : Z) (st : St) :
  cache_wf self ->
  cache_wf (snd (fst (eojeol_lookup lookup self eojeol offset st))).
Proof.
  intros (Hb & Hc & Hk). unfold eojeol_lookup.
  assert (Hmem : dict_mem (buffer self) eojeol = dict_mem (_buffer_counter self) eojeol).
  { destruct (dict_mem (_buffer_counter self) eojeol) eqn:E.
    - apply dict_mem_In. apply Hk. apply dict_mem_In. exact E.
    - apply not_true_iff_false. rewrite dict_mem_In, Hk, <- dict_mem_In. congruence. }
  destruct (dict_get (_buffer_counter self) eojeol 0 =? 0) eqn:E0.
  - destruct (lookup eojeol offset st) as [[res|err] st']; simpl;
      [|unfold cache_wf; auto].
    unfold cache_wf. simpl. rewrite !dict_set_keys, Hmem.
    destruct (dict_mem (_buffer_counter self) eojeol) eqn:E; [auto|].
    assert (Hnc : ~ In eojeol (map fst (_buffer_counter self)))
      by (rewrite <- dict_mem_In; congruence).
    split; [|split].
    + apply NoDup_snoc; [exact Hb | rewrite Hk; exact Hnc].
    + apply NoDup_snoc; assumption.
    + intros k. rewrite !in_app_iff, Hk. tauto.
  - apply Z.eqb_neq in E0. apply dict_get_nonzero_mem in E0.
    destruct (dict_lookup (buffer self) eojeol) as [res|err]; simpl;
      [|unfold cache_wf; auto].
    unfold cache_wf. simpl. rewrite dict_set_keys, E0. auto.
Qed.

(** * Further properties *)

(** ** When the LR strategy raises *)

Lemma for_each_app {A St : Type} (xs ys : list A) (body : A -> St -> result St)
  (st : St) :
  for_each (xs ++ ys) body st = (st' <- for_each xs body st ;; for_each ys body st').
Proof.
  revert st. induction xs as [|x xs IH]; intros st; simpl; [reflexivity|].
  destruct (body x st) as [st1|err]; simpl; [apply IH | reflexivity].
Qed.

Lemma py_range_snoc (lo hi : Z) :
  lo <= hi -> py_range lo (hi + 1) = py_range lo hi ++ [hi].
Proof.
  intros H. unfold py_range.
  replace (Z.to_nat (hi + 1 - lo)) with (S (Z.to_nat (hi - lo))) by lia.
  rewrite seq_S, map_app. simpl. f_equal. f_equal. lia.
Qed.

Lemma extend_at_past_end {A : Type} (xss : list (list A)) (i : Z) (ys : list A) :
  len xss <= i -> extend_at xss i ys = Raise IndexError.
Proof.
  intros H. unfold extend_at, getitem, norm_index.
  assert (Hl : 0 <= len xss) by (unfold len; lia).
  replace (i <? len xss) with false by (symmetry; apply Z.ltb_ge; lia).
  replace (i <? 0) with false by (symmetry; apply Z.ltb_ge; lia).
  rewrite !andb_false_r. reflexivity.
Qed.

Lemma extend_at_len {A : Type} (xss xss' : list (list A)) (i : Z) (ys : list A) :
  extend_at xss i ys = Ok xss' -> len xss' = len xss.
Proof.
  intros E. apply extend_at_Ok in E. destruct E as (k & xs & _ & _ & ->).
  unfold len. rewrite length_replace_nth. reflexivity.
Qed.

Lemma lemmatize_empty_word (lemmatizer : Lemmatizer) (offset : Z) :
  lemmatize [] lemmatizer offset false = [] <-> lemmatizer [] = [].
Proof.
  unfold lemmatize. simpl. destruct (lemmatizer []); simpl; split; congruence.
Qed.

Section LRLastSplit.
Variable eojeol : pystr.
Variable lemmatizer : Lemmatizer.
Variable dic : dictionary.
Variable offset : Z.
Hypothesis Hne : eojeol <> [].

Lemma lr_lookup_last_split (bindex : lattice) :
  len bindex = len eojeol ->
  match lr_lookup_step eojeol lemmatizer dic offset (len eojeol) bindex with
  | Ok bindex' =>
      len bindex' = len eojeol
      /\ ~ lr_lookup_blocked eojeol lemmatizer dic offset
  | Raise err =>
      err = IndexError /\ lr_lookup_blocked eojeol lemmatizer dic offset
  end.
Proof.
  intros Hlen.
  assert (Hn : 1 <= len eojeol).
  { unfold len. destruct eojeol; [congruence | simpl; lia]. }
  unfold lr_lookup_step.
  assert (Hl : slice_to eojeol (len eojeol) = eojeol).
  { unfold slice_to. rewrite clamp_index_nonneg by lia.
    unfold len. rewrite Nat2Z.id. apply firstn_all. }
  assert (Hr : slice_from eojeol (len eojeol) = []).
  { unfold slice_from. rewrite clamp_index_nonneg by lia.
    unfold len. rewrite Nat2Z.id. apply skipn_all. }
  rewrite Hl, Hr.
  set (l_pred := lemmatize eojeol lemmatizer offset false).
  set (r_pred := lemmatize [] lemmatizer (offset + len eojeol) false).
  assert (H1 : exists b1,
             (if check_tag eojeol Noun dic && check_tag [] Josa dic
              then append_at bindex 0
                     (mkEojeol eojeol [] Noun (Some Josa) offset
                        (offset + len eojeol) (offset + len eojeol))
              else Ok bindex) = Ok b1 /\ len b1 = len eojeol).
  { destruct (check_tag eojeol Noun dic && check_tag [] Josa dic).
    - destruct (extend_at_nth bindex 0
                  [mkEojeol eojeol [] Noun (Some Josa) offset
                     (offset + len eojeol) (offset + len eojeol)])
        as (b1 & E & Hl1 & _); [lia|].
      exists b1. split; [exact E | lia].
    - exists bindex. auto. }
  destruct H1 as (b1 & -> & Hlen1). cbn [bind].
  assert (Hrp : truthy r_pred = true <-> lemmatizer [] <> []).
  { rewrite truthy_nonempty. unfold r_pred. rewrite lemmatize_empty_word. tauto. }
  destruct ((check_tag eojeol Noun dic || truthy l_pred) && truthy r_pred) eqn:Hc.
  - apply andb_true_iff in Hc. destruct Hc as [Hleft Hright].
    assert (Hblocked : lr_lookup_blocked eojeol lemmatizer dic offset).
    { right. split; [apply Hrp; exact Hright|].
      apply orb_true_iff in Hleft. destruct Hleft as [Hleft|Hleft]; [auto|].
      right. apply truthy_nonempty. exact Hleft. }
    destruct (check_tag eojeol Noun dic).
    + destruct (extend_at_nth b1 0
                  [mkEojeol eojeol [] Noun None offset (offset + len eojeol)
                     (offset + len eojeol)]) as (b2 & E2 & Hl2 & _); [lia|].
      unfold append_at. rewrite E2. cbn [bind].
      rewrite extend_at_past_end by lia. auto.
    + destruct (extend_at_nth b1 0 l_pred) as (b2 & E2 & Hl2 & _); [lia|].
      rewrite E2. cbn [bind]. rewrite extend_at_past_end by lia. auto.
  - split; [exact Hlen1|]. intros [Hempty | (Hlem & Hleft)]; [contradiction|].
    apply Hrp in Hlem. rewrite Hlem, andb_true_r in Hc.
    apply orb_false_iff in Hc. destruct Hc as [Hc1 Hc2].
    destruct Hleft as [Hleft|Hleft]; [congruence|].
    apply truthy_nonempty in Hleft. fold l_pred in Hleft. congruence.
Qed.

Lemma lr_lookup_inner_splits (bindex : lattice) :
  len bindex = len eojeol ->
  exists bindex',
    for_each (py_range 1 (len eojeol)) (lr_lookup_step eojeol lemmatizer dic offset)
      bindex = Ok bindex'
    /\ len bindex' = len eojeol.
Proof.
  intros Hlen.
  apply (for_each_preserves (fun st : lattice => len st = len eojeol)); [|exact Hlen].
  intros i st Hst Hi. apply In_py_range in Hi.
  destruct (lr_lookup_step_grows eojeol lemmatizer dic offset i st Hst)
    as (st' & E & G & _); [lia | intros ->; lia|].
  exists st'. split; [exact E|]. exact (eq_trans (grows_len _ _ G) Hst).
Qed.
End LRLastSplit.

(** X1: [lr_lookup] raises exactly when the token is empty, or when the
    lemmatizer analyses the empty string and the whole token is a noun or
    has an analysis; the exception is IndexError, and in every other case
    the lattice returned has one bucket per character. *)
Theorem lr_lookup_raises_exactly_when_blocked (eojeol : pystr)
  (lemmatizer : Lemmatizer) (dic : dictionary) (offset : Z) :
  match lr_lookup eojeol lemmatizer dic offset with
  | Ok bindex =>
      len bindex = len eojeol /\ ~ lr_lookup_blocked eojeol lemmatizer dic offset
  | Raise err =>
      err = IndexError /\ lr_lookup_blocked eojeol lemmatizer dic offset
  end.
Proof.
  destruct eojeol as [|c rest] eqn:Heo.
  - simpl. split; [reflexivity | left; reflexivity].
  - rewrite <- Heo. assert (Hne : eojeol <> []) by (rewrite Heo; discriminate).
    clear Heo. unfold lr_lookup.
    assert (Hn : 1 <= len eojeol).
    { unfold len. destruct eojeol; [congruence | simpl; lia]. }
    set (bindex0 := map (fun _ => @nil Eojeol) (py_range 0 (len eojeol))).
    assert (Hlen0 : len bindex0 = len eojeol).
    { unfold bindex0, len, py_range. rewrite !length_map, length_seq. lia. }
    unfold setitem. rewrite norm_index_nonneg by lia. cbn [bind].
    rewrite py_range_snoc by lia. rewrite for_each_app.
    destruct (lr_lookup_inner_splits eojeol lemmatizer dic offset
                (replace_nth (Z.to_nat 0) (lemmatize eojeol lemmatizer offset false)
                   bindex0)) as (bindex1 & -> & Hlen1).
    { unfold len. rewrite length_replace_nth. exact Hlen0. }
    cbn [bind for_each].
    pose proof (lr_lookup_last_split eojeol lemmatizer dic offset Hne bindex1 Hlen1)
      as Hlast.
    destruct (lr_lookup_step eojeol lemmatizer dic offset (len eojeol) bindex1);
      exact Hlast.
Qed.

(** ** Where the records of the LR strategy come from *)

Lemma norm_index_nonneg_inv {A : Type} (xs : list A) (i : Z) (k : nat) :
  0 <= i -> norm_index xs i = Some k -> k = Z.to_nat i /\ i < len xs.
Proof.
  intros Hi. unfold norm_index.
  destruct ((0 <=? i) && (i <? len xs)) eqn:E.
  - apply andb_true_iff in E. destruct E as [_ E]. apply Z.ltb_lt in E.
    intros [= <-]. auto.
  - replace (i <? 0) with false by (symmetry; apply Z.ltb_ge; lia).
    rewrite andb_false_r. discriminate.
Qed.

Lemma extend_at_Ok_nth {A : Type} (xss xss' : list (list A)) (i : Z) (ys : list A) :
  0 <= i -> extend_at xss i ys = Ok xss' ->
  forall k, nth k xss' [] =
            if Nat.eqb k (Z.to_nat i) then nth k xss [] ++ ys else nth k xss [].
Proof.
  intros Hi E. apply extend_at_Ok in E. destruct E as (k0 & xs & Hk & Hxs & ->).
  pose proof (norm_index_lt _ _ _ Hk) as Hlt.
  destruct (norm_index_nonneg_inv _ _ _ Hi Hk) as [-> _].
  intros k. rewrite nth_replace_nth by exact Hlt.
  destruct (Nat.eqb k (Z.to_nat i)) eqn:Ek; [|reflexivity].
  apply Nat.eqb_eq in Ek. subst k. rewrite (nth_error_nth _ _ _ Hxs). reflexivity.
Qed.

Lemma extend_at_pointwise {A : Type} (P : nat -> A -> Prop)
  (xss xss' : list (list A)) (i : Z) (ys : list A) :
  0 <= i -> extend_at xss i ys = Ok xss' ->
  (forall k x, In x (nth k xss []) -> P k x) ->
  (forall y, In y ys -> P (Z.to_nat i) y) ->
  forall k x, In x (nth k xss' []) -> P k x.
Proof.
  intros Hi E Hold Hnew k x Hx.
  rewrite (extend_at_Ok_nth _ _ _ _ Hi E) in Hx.
  destruct (Nat.eqb k (Z.to_nat i)) eqn:Ek; [|apply Hold; exact Hx].
  apply Nat.eqb_eq in Ek. subst k. apply in_app_or in Hx.
  destruct Hx as [Hx|Hx]; [apply Hold | apply Hnew]; exact Hx.
Qed.

Section LRSources.
Variable eojeol : pystr.
Variable lemmatizer : Lemmatizer.
Variable dic : dictionary.
Variable offset : Z.

Local Abbreviation sourced bindex :=
  (forall k x, In x (nth k bindex []) -> lr_source eojeol lemmatizer dic offset k x).

Lemma prefix_analysis_sourced (i : Z) (y : Eojeol) :
  In y (lemmatize (slice_to eojeol i) lemmatizer offset false) ->
  lr_source eojeol lemmatizer dic offset (Z.to_nat 0) y.
Proof.
  intros Hy. split.
  - rewrite (lemmatize_anchored _ _ _ _ _ Hy). simpl. lia.
  - left. exists (slice_to eojeol i). split; [left; eauto|].
    simpl. rewrite Z.add_0_r. exact Hy.
Qed.

Lemma suffix_analysis_sourced (i : Z) (y : Eojeol) :
  0 <= i ->
  In y (lemmatize (slice_from eojeol i) lemmatizer (offset + i) false) ->
  lr_source eojeol lemmatizer dic offset (Z.to_nat i) y.
Proof.
  intros Hi Hy. rewrite <- (Z2Nat.id i Hi) in Hy at 2. split.
  - rewrite (lemmatize_anchored _ _ _ _ _ Hy). reflexivity.
  - left. exists (slice_from eojeol i). split; [right|exact Hy].
    rewrite Z2Nat.id by exact Hi. reflexivity.
Qed.

Lemma lr_lookup_step_sourced (i : Z) (bindex bindex' : lattice) :
  1 <= i <= len eojeol ->
  sourced bindex ->
  lr_lookup_step eojeol lemmatizer dic offset i bindex = Ok bindex' ->
  sourced bindex'.
Proof.
  intros Hi Hsrc. unfold lr_lookup_step.
  set (l := slice_to eojeol i). set (r := slice_from eojeol i).
  set (l_pred := lemmatize l lemmatizer offset false).
  set (r_pred := lemmatize r lemmatizer (offset + i) false).
  assert (Hz : (0 : Z) <= 0) by lia.
  assert (H1 : forall b1,
             (if check_tag l Noun dic && check_tag r Josa dic
              then append_at bindex 0
                     (mkEojeol l r Noun (Some Josa) offset (offset + i)
                        (offset + len eojeol))
              else Ok bindex) = Ok b1 -> sourced b1).
  { intros b1. destruct (check_tag l Noun dic && check_tag r Josa dic) eqn:Hnj.
    - apply andb_true_iff in Hnj. destruct Hnj as [Hn Hj]. intros E.
      apply (extend_at_pointwise (lr_source eojeol lemmatizer dic offset) _ _ _ _ Hz E Hsrc).
      intros y [<-|[]]. split; [simpl; lia|].
      right. split; [reflexivity|]. exists i. split; [exact Hi|].
      split; [exact Hn|]. left. auto.
    - intros [= <-]. exact Hsrc. }
  destruct (if check_tag l Noun dic && check_tag r Josa dic then _ else _)
    as [b1|err]; cbn [bind]; [|discriminate].
  specialize (H1 b1 eq_refl).
  destruct ((check_tag l Noun dic || truthy l_pred) && truthy r_pred) eqn:Hc;
    [|intros [= <-]; exact H1].
  apply andb_true_iff in Hc. destruct Hc as [_ Hrp].
  apply truthy_nonempty in Hrp.
  assert (Hr : forall y, In y r_pred ->
                 lr_source eojeol lemmatizer dic offset (Z.to_nat i) y).
  { intros y. apply suffix_analysis_sourced. lia. }
  assert (Hi0 : 0 <= i) by lia.
  destruct (check_tag l Noun dic) eqn:Hn.
  - destruct (append_at b1 0 _) as [b2|err] eqn:E2; cbn [bind]; [|discriminate].
    intros E3. apply (extend_at_pointwise (lr_source eojeol lemmatizer dic offset) _ _ _ _ Hi0 E3); [|exact Hr].
    apply (extend_at_pointwise (lr_source eojeol lemmatizer dic offset) _ _ _ _ Hz E2 H1).
    intros y [<-|[]]. split; [simpl; lia|].
    right. split; [reflexivity|]. exists i. split; [exact Hi|].
    split; [exact Hn|]. right. auto.
  - destruct (extend_at b1 0 l_pred) as [b2|err] eqn:E2; cbn [bind]; [|discriminate].
    intros E3. apply (extend_at_pointwise (lr_source eojeol lemmatizer dic offset) _ _ _ _ Hi0 E3); [|exact Hr].
    apply (extend_at_pointwise (lr_source eojeol lemmatizer dic offset) _ _ _ _ Hz E2 H1).
    intros y. apply prefix_analysis_sourced.
Qed.

Lemma lr_lookup_sourced (bindex : lattice) :
  lr_lookup eojeol lemmatizer dic offset = Ok bindex -> sourced bindex.
Proof.
  unfold lr_lookup.
  destruct (setitem _ 0 _) as [bindex1|err] eqn:E1; cbn [bind]; [|discriminate].
  apply (for_each_Ok_inv (fun st : lattice => sourced st)).
  - intros i st st' Hi Hst. apply In_py_range in Hi.
    apply lr_lookup_step_sourced; [lia | exact Hst].
  - unfold setitem in E1.
    destruct (norm_index _ 0) as [k0|] eqn:Hk; [|discriminate].
    injection E1 as <-. pose proof (norm_index_lt _ _ _ Hk) as Hlt.
    destruct (norm_index_nonneg_inv _ _ _ (Z.le_refl 0) Hk) as [-> _].
    intros k x Hx. rewrite nth_replace_nth in Hx by exact Hlt.
    destruct (Nat.eqb k (Z.to_nat 0)) eqn:Ek.
    + apply Nat.eqb_eq in Ek. subst k.
      apply (prefix_analysis_sourced (len eojeol)).
      replace (slice_to eojeol (len eojeol)) with eojeol; [exact Hx|].
      unfold slice_to. rewrite clamp_index_nonneg by (unfold len; lia).
      unfold len. rewrite Nat2Z.id, firstn_all. reflexivity.
    + rewrite empty_buckets_nth in Hx. destruct Hx.
Qed.
End LRSources.

(** X2: every record of a lattice that [lr_lookup] returns lies in the
    bucket of its begin offset, and it is an analysis of a prefix of the
    token or of the suffix that starts at its bucket, the record of a split
    into a dictionary noun and a dictionary particle, or the one-part record
    of a dictionary noun followed by an analysed suffix. *)
Theorem lr_lookup_records_have_a_source (eojeol : pystr) (lemmatizer : Lemmatizer)
  (dic : dictionary) (offset : Z) :
  match lr_lookup eojeol lemmatizer dic offset with
  | Ok bindex =>
      forall k x, In x (nth k bindex []) ->
                  lr_source eojeol lemmatizer dic offset k x
  | Raise _ => True
  end.
Proof.
  destruct (lr_lookup eojeol lemmatizer dic offset) as [bindex|err] eqn:E;
    [|exact I].
  apply lr_lookup_sourced. exact E.
Qed.

(** ** Where the records of the template strategy come from *)

Section TemplateSources.
Variable eojeol : pystr.
Variable lemmatizer : Lemmatizer.
Variable dic : dictionary.
Variable templates : list template.
Variables max_len offset : Z.

Local Abbreviation raw_sound raw :=
  (forall k span, In span (nth k raw []) -> raw_sound_at eojeol dic max_len k span).

Local Abbreviation preds_sound preds :=
  (forall x, In x preds ->
     exists k, analysis_source eojeol lemmatizer max_len offset k x).

Local Abbreviation cands_sound bindex_ :=
  (forall k x, In x (nth k bindex_ []) ->
     dictionary_source eojeol dic templates max_len offset k x).

Lemma string_match_sound (raw : list (list raw_span)) (preds : list Eojeol) :
  string_match eojeol lemmatizer dic max_len offset = Ok (raw, preds) ->
  raw_sound raw /\ preds_sound preds.
Proof.
  unfold string_match. intros E.
  apply (for_each_Ok_inv
           (fun st : list (list raw_span) * list Eojeol =>
              raw_sound (fst st) /\ preds_sound (snd st))) in E; [exact E| |].
  - intros lo st st' Hlo Hst. apply In_py_range in Hlo.
    apply (for_each_Ok_inv
             (fun st : list (list raw_span) * list Eojeol =>
                raw_sound (fst st) /\ preds_sound (snd st))); [|exact Hst].
    intros hi [raw0 preds0] [raw1 preds1] Hhi [Hraw Hpreds].
    apply In_py_range in Hhi. cbn [fst snd] in Hraw, Hpreds. cbv beta iota zeta.
    set (sub := slice eojeol lo hi).
    destruct (for_each (get_tag sub dic) _ raw0) as [raw2|err] eqn:Etags;
      cbn [bind]; [|discriminate].
    intros [= <- <-]. cbn [fst snd]. split.
    + revert Etags. apply (for_each_Ok_inv (fun r : list (list raw_span) => raw_sound r));
        [|exact Hraw].
      intros tg r r' Htg Hr Ea.
      apply (extend_at_pointwise (raw_sound_at eojeol dic max_len) _ _ _ _
               (proj1 Hlo) Ea Hr).
      intros y [<-|[]]. unfold raw_sound_at. rewrite Z2Nat.id by lia.
      repeat split; try lia. exact Htg.
    + intros x Hx. apply set_update_In in Hx. destruct Hx as [Hx|Hx];
        [apply Hpreds; exact Hx|].
      exists (Z.to_nat lo). exists hi. rewrite Z2Nat.id by lia.
      split; [lia|]. split; [lia | exact Hx].
  - cbn [fst snd]. split.
    + intros k span Hin. rewrite empty_buckets_nth in Hin. destruct Hin.
    + intros x [].
Qed.

Lemma apply_template_sound (raw : list (list raw_span)) (k : nat) (span : raw_span)
  (t : template) (bindex_ bindex' : lattice) :
  raw_sound raw -> In span (nth k raw []) -> In t templates ->
  cands_sound bindex_ ->
  apply_template (len eojeol) offset raw span t bindex_ = Ok bindex' ->
  cands_sound bindex'.
Proof.
  intros Hraw Hspan Ht Hc. destruct span as [[[a0 u0] lo] hi].
  destruct (Hraw k _ Hspan) as (Hlo & Hhi & Hmax & Ha0 & Hu0).
  assert (Hlo0 : 0 <= lo) by lia.
  unfold apply_template. destruct t as [|x0 [|x1 [|x2 t]]].
  - intros [= <-]. exact Hc.
  - destruct (String.eqb u0 x0) eqn:Eu; [|intros [= <-]; exact Hc].
    apply String.eqb_eq in Eu. subst x0. intros Ea.
    apply (extend_at_pointwise
             (dictionary_source eojeol dic templates max_len offset) _ _ _ _
             Hlo0 Ea Hc).
    intros y [<-|[]]. left. exists hi, u0. rewrite Hlo, Nat2Z.id, <- Hlo, <- Ha0.
    repeat split; try lia; assumption.
  - destruct ((hi <? len eojeol) && String.eqb u0 x0) eqn:Ec;
      [|intros [= <-]; exact Hc].
    apply andb_true_iff in Ec. destruct Ec as [Hlt Eu].
    apply Z.ltb_lt in Hlt. apply String.eqb_eq in Eu. subst x0.
    destruct (getitem raw hi) as [rights|err] eqn:Eg; cbn [bind]; [|discriminate].
    apply getitem_Ok in Eg. destruct Eg as (k' & Hk' & Hnth).
    destruct (norm_index_nonneg_inv _ _ _ (ltac:(lia) : 0 <= hi) Hk') as [-> _].
    apply (for_each_Ok_inv (fun st : lattice => cands_sound st)); [|exact Hc].
    intros [[[a1 u1] mid] hi_] st st' Hright Hst.
    rewrite <- (nth_error_nth _ _ [] Hnth) in Hright.
    destruct (Hraw _ _ Hright) as (Hmid & Hhi_ & Hmax1 & Ha1 & Hu1).
    rewrite Z2Nat.id in Hmid by lia.
    destruct (String.eqb u1 x1) eqn:Eu1; [|intros [= <-]; exact Hst].
    apply String.eqb_eq in Eu1. subst x1. intros Ea.
    apply (extend_at_pointwise
             (dictionary_source eojeol dic templates max_len offset) _ _ _ _
             Hlo0 Ea Hst).
    intros y [<-|[]]. right. exists hi, hi_, u0, u1.
    rewrite Hlo, Nat2Z.id, <- Hlo. subst mid. rewrite <- Ha0, <- Ha1.
    repeat split; try lia; assumption.
  - intros [= <-]. exact Hc.
Qed.

Lemma as_eojeol_sound (raw : list (list raw_span)) (bindex_ : lattice) :
  raw_sound raw ->
  as_eojeol (len eojeol) offset raw templates = Ok bindex_ ->
  cands_sound bindex_.
Proof.
  intros Hraw. unfold as_eojeol.
  apply (for_each_Ok_inv (fun st : lattice => cands_sound st)).
  - intros morphs st st' Hm Hst. destruct (In_nth _ _ [] Hm) as (k & _ & Hk).
    apply (for_each_Ok_inv (fun st : lattice => cands_sound st)); [|exact Hst].
    intros span st1 st1' Hspan Hst1. rewrite <- Hk in Hspan.
    apply (for_each_Ok_inv (fun st : lattice => cands_sound st)); [|exact Hst1].
    intros t st2 st2' Ht Hst2. eapply apply_template_sound; eassumption.
  - intros k x Hx. rewrite empty_buckets_nth in Hx. destruct Hx.
Qed.

Lemma add_predicators_sorted_in (preds : list Eojeol) (pruned bindex : lattice) :
  (forall x, In x preds -> offset <= b x) ->
  add_predicators offset preds pruned = Ok bindex ->
  forall k x, In x (nth k bindex []) ->
    In x (nth k pruned []) \/ (In x preds /\ b x = offset + Z.of_nat k).
Proof.
  intros Hb. unfold add_predicators.
  pose (P := fun (k : nat) (x : Eojeol) =>
               In x (nth k pruned []) \/ (In x preds /\ b x = offset + Z.of_nat k)).
  intros E. revert E.
  apply (for_each_Ok_inv (fun st : lattice => forall k x, In x (nth k st []) -> P k x)).
  - intros word st st' Hword Hst Ea.
    assert (H0 : 0 <= b word - offset) by (specialize (Hb word Hword); lia).
    apply (extend_at_pointwise P _ _ _ _ H0 Ea Hst).
    intros y [<-|[]]. right. split; [exact Hword | lia].
  - intros k x Hx. left. exact Hx.
Qed.
End TemplateSources.

Lemma template_lookup_sources (eojeol : pystr) (lemmatizer : Lemmatizer)
  (dic : dictionary) (templates : list template) (max_len offset : Z) :
  exists bindex,
    template_lookup eojeol lemmatizer dic templates max_len offset = Ok bindex
    /\ len bindex = len eojeol
    /\ forall k x, In x (nth k bindex []) ->
         analysis_source eojeol lemmatizer max_len offset k x
         \/ dictionary_source eojeol dic templates max_len offset k x.
Proof.
  unfold template_lookup.
  destruct (string_match_returns eojeol lemmatizer dic max_len offset)
    as (raw & preds & E1 & Hraw & Hpreds).
  destruct (string_match_sound eojeol lemmatizer dic max_len offset raw preds E1)
    as [Hrs Hps].
  rewrite E1. cbn [bind fst snd].
  destruct (as_eojeol_returns (len eojeol) offset raw Hraw templates)
    as (cands & E2 & Hlen & Hwf).
  pose proof (as_eojeol_sound eojeol dic templates max_len offset raw cands Hrs E2)
    as Hcs.
  rewrite E2. cbn [bind].
  destruct (remove_sub_idempotent_wf offset cands Hwf)
    as (pruned & -> & _ & Hlenp & Hsub).
  cbn [bind].
  destruct (add_predicators_returns eojeol lemmatizer offset preds pruned Hpreds)
    as (bindex & E4 & Hlenb & _); [lia|].
  rewrite E4. exists bindex. split; [reflexivity|]. split; [exact Hlenb|].
  assert (Hanch : forall x, In x preds -> offset <= b x).
  { intros x Hx. destruct (Hps x Hx) as (k & hi & _ & _ & Hin).
    rewrite (lemmatize_anchored _ _ _ _ _ Hin). lia. }
  intros k x Hx.
  destruct (add_predicators_sorted_in offset preds pruned bindex Hanch E4 k x Hx)
    as [Hc | [Hp Hb]].
  - right. apply Hcs. apply Hsub. exact Hc.
  - left. destruct (Hps x Hp) as (k' & hi & H1 & H2 & Hin).
    pose proof (lemmatize_anchored _ _ _ _ _ Hin) as Hb'.
    assert (k' = k) by lia. subst k'. exists hi. auto.
Qed.

(** X3: [template_lookup] returns for every token, dictionary, lemmatizer,
    template list, maximal length and offset (it never raises); the lattice
    has one bucket per character of the token, and every record lies in the
    bucket of its begin offset. *)
Theorem template_lookup_returns_a_lattice (eojeol : pystr) (lemmatizer : Lemmatizer)
  (dic : dictionary) (templates : list template) (max_len offset : Z) :
  exists bindex,
    template_lookup eojeol lemmatizer dic templates max_len offset = Ok bindex
    /\ len bindex = len eojeol
    /\ forall k x, In x (nth k bindex []) -> b x = offset + Z.of_nat k.
Proof.
  destruct (template_lookup_sources eojeol lemmatizer dic templates max_len offset)
    as (bindex & E & Hlen & Hsrc).
  exists bindex. split; [exact E|]. split; [exact Hlen|].
  intros k x Hx. destruct (Hsrc k x Hx) as [(hi & _ & _ & Hin) | Hd].
  - apply (lemmatize_anchored _ _ _ _ _ Hin).
  - destruct Hd as [(hi & u & _ & _ & _ & _ & ->)
                   | (mid & hi & u0 & u1 & _ & _ & _ & _ & _ & _ & _ & ->)];
      reflexivity.
Qed.

(** X4: every record of the lattice of [template_lookup] is justified by
    the inputs.  It is an analysis the lemmatizer gives for a substring that
    starts at the record's bucket and is at most [max_len] long; or a
    one-part record of a dictionary word of at most [max_len] characters,
    tagged as the dictionary tags it, under a one-tag template of the list;
    or a two-part record of two adjacent dictionary words, each at most
    [max_len] long, under a two-tag template of the list.  Texts and offsets
    are those of the substrings. *)
Theorem template_lookup_records_have_a_source (eojeol : pystr)
  (lemmatizer : Lemmatizer) (dic : dictionary) (templates : list template)
  (max_len offset : Z) :
  match template_lookup eojeol lemmatizer dic templates max_len offset with
  | Ok bindex =>
      forall k x, In x (nth k bindex []) ->
        analysis_source eojeol lemmatizer max_len offset k x
        \/ dictionary_source eojeol dic templates max_len offset k x
  | Raise _ => False
  end.
Proof.
  destruct (template_lookup_sources eojeol lemmatizer dic templates max_len offset)
    as (bindex & -> & _ & Hsrc).
  exact Hsrc.
Qed.

(** X5: with a maximal length that is not positive (as a dictionary without
    words derives it) [template_lookup] finds nothing: every bucket of the
    lattice is empty, whatever the dictionary, the lemmatizer and the
    templates are. *)
Theorem template_lookup_without_length_finds_nothing (eojeol : pystr)
  (lemmatizer : Lemmatizer) (dic : dictionary) (templates : list template)
  (max_len offset : Z) :
  max_len <= 0 ->
  template_lookup eojeol lemmatizer dic templates max_len offset
  = Ok (repeat [] (List.length eojeol)).
Proof.
  intros Hmax.
  destruct (template_lookup_sources eojeol lemmatizer dic templates max_len offset)
    as (bindex & -> & Hlen & Hsrc).
  f_equal. apply (nth_ext _ _ [] []).
  - rewrite repeat_length. unfold len in Hlen. lia.
  - intros k _. rewrite nth_repeat.
    destruct (nth k bindex []) as [|x xs] eqn:Ek; [reflexivity|]. exfalso.
    destruct (Hsrc k x) as [(hi & H1 & H2 & _) | Hd];
      [rewrite Ek; left; reflexivity | lia |].
    destruct Hd as [(hi & u & H1 & H2 & _)
                   | (mid & hi & u0 & u1 & H1 & H2 & H3 & _)]; lia.
Qed.

Lemma template_lookup_without_length_finds_nothing_witness :
  0 <= 0
  /\ template_lookup (Fixtures.saram ++ Fixtures.ida) Fixtures.ida_lemmatizer
       Fixtures.saram_dic default_templates 0 0
     = Ok (repeat [] (List.length (Fixtures.saram ++ Fixtures.ida))).
Proof.
  split; [lia|].
  apply (template_lookup_without_length_finds_nothing
           (Fixtures.saram ++ Fixtures.ida) Fixtures.ida_lemmatizer
           Fixtures.saram_dic default_templates 0 0).
  lia.
Defined.

(** ** What the overlap remover does to any lattice *)

Lemma for_each_Raise_inv {A St : Type} (P : pyerror -> Prop)
  (body : A -> St -> result St) (xs : list A) :
  (forall x st err, In x xs -> body x st = Raise err -> P err) ->
  forall st err, for_each xs body st = Raise err -> P err.
Proof.
  induction xs as [|x xs IH]; intros Hbody st err; simpl; [discriminate|].
  destruct (body x st) as [st1|err1] eqn:E; simpl.
  - apply IH. intros y s e1 Hy. apply Hbody. right. exact Hy.
  - intros [= <-]. eapply Hbody; [left; reflexivity | exact E].
Qed.

Lemma getitem_raises_IndexError {A : Type} (xs : list A) (i : Z) (err : pyerror) :
  getitem xs i = Raise err -> err = IndexError.
Proof.
  unfold getitem. destruct (norm_index xs i) as [k|];
    [destruct (nth_error xs k)|]; congruence.
Qed.

Lemma exist_overlap_l_raises_IndexError (offset lo hi : Z) (bindex : lattice)
  (err : pyerror) :
  exist_overlap_l offset lo hi bindex = Raise err -> err = IndexError.
Proof.
  unfold exist_overlap_l. induction (py_range lo hi) as [|i idx IH]; simpl;
    [discriminate|].
  destruct (getitem bindex (i - offset)) as [eojeols|err1] eqn:E; simpl.
  - destruct (existsb (overlaps lo hi) eojeols); [discriminate | exact IH].
  - intros [= <-]. eapply getitem_raises_IndexError. exact E.
Qed.

Lemma collect_step_raises_IndexError (offset : Z) (bindex : lattice) (x : Eojeol)
  (st : list bm_entry * list me_entry) (err : pyerror) :
  collect_step offset bindex x st = Raise err -> err = IndexError.
Proof.
  unfold collect_step. destruct st as [bm me].
  destruct (truthy (w1 x)); [|discriminate].
  destruct (exist_overlap_l offset (m x) (e x) bindex) as [ov|err1] eqn:E; simpl.
  - destruct (negb ov); discriminate.
  - intros [= <-]. eapply exist_overlap_l_raises_IndexError. exact E.
Qed.

(** The pairs collected from a bucket come from two-part records of that
    bucket. *)
Lemma collect_pairs_from_bucket (offset : Z) (bindex : lattice) (eojeols : bucket)
  (bm0 bm : list bm_entry) (me0 me : list me_entry) :
  for_each eojeols (collect_step offset bindex) (bm0, me0) = Ok (bm, me) ->
  exists cs,
    incl cs eojeols
    /\ (forall c, In c cs -> truthy (w1 c) = true)
    /\ bm = bm0 ++ map bm_of cs /\ me = me0 ++ map me_of cs.
Proof.
  revert bm0 me0. induction eojeols as [|x xs IH]; intros bm0 me0; simpl.
  - intros [= <- <-]. exists []. rewrite !app_nil_r.
    repeat split; [intros y [] | intros c []].
  - destruct (truthy (w1 x)) eqn:Hw.
    + destruct (exist_overlap_l offset (m x) (e x) bindex) as [ov|err];
        cbn [bind]; [|discriminate].
      destruct ov; cbn [negb bind]; intros E; apply IH in E;
        destruct E as (cs & Hincl & Hall & -> & ->).
      * exists cs. repeat split; auto. intros y Hy. right. apply Hincl. exact Hy.
      * exists (x :: cs). rewrite <- !app_assoc. repeat split.
        -- intros y [<-|Hy]; [left; reflexivity | right; apply Hincl; exact Hy].
        -- intros c [<-|Hc]; [exact Hw | apply Hall; exact Hc].
    + cbn [bind]. intros E. apply IH in E.
      destruct E as (cs & Hincl & Hall & -> & ->).
      exists cs. repeat split; auto. intros y Hy. right. apply Hincl. exact Hy.
Qed.

Lemma filter_skip_truthy (eojeols cs : bucket) :
  incl cs eojeols ->
  (forall c, In c cs -> truthy (w1 c) = true) ->
  truthy (filter (fun x => negb (skip x (map bm_of cs) (map me_of cs))) eojeols)
  = truthy eojeols.
Proof.
  intros Hincl Hall. destruct eojeols as [|x0 xs]; [reflexivity|].
  set (eojeols := x0 :: xs) in *. cbn [truthy].
  enough (H : exists x, In x (filter (fun x => negb (skip x (map bm_of cs)
                                                       (map me_of cs))) eojeols)).
  { destruct H as (x & Hx). destruct (filter _ eojeols);
      [destruct Hx | reflexivity]. }
  destruct cs as [|c0 cs'] eqn:Ecs.
  - exists x0. apply filter_In. split; [left; reflexivity | reflexivity].
  - rewrite <- Ecs in *. destruct (latest_end_exists cs) as (c & Hc & Hmax).
    { rewrite Ecs. discriminate. }
    exists c. apply filter_In. split; [apply Hincl; exact Hc|].
    apply negb_true_iff. apply skip_false_iff. split.
    + intros [[b' m'] t] _. rewrite (Hall c Hc). reflexivity.
    + intros [[m' e'] t] Hp. apply in_map_iff in Hp.
      destruct Hp as (c' & [= <- <- <-] & Hc').
      specialize (Hmax c' Hc').
      replace (e c <? e c') with false by (symmetry; apply Z.ltb_ge; lia).
      rewrite andb_false_r. reflexivity.
Qed.

Lemma filter_filter {A : Type} (f g : A -> bool) (l : list A) :
  filter f (filter g l) = filter (fun x => g x && f x) l.
Proof.
  induction l as [|x l IH]; simpl; [reflexivity|].
  destruct (g x); simpl; [destruct (f x)|]; rewrite IH; reflexivity.
Qed.

Section RemoveSubAnyLattice.
Variable offset : Z.
Variable bindex0 : lattice.

Local Abbreviation filtered bindex :=
  (List.length bindex = List.length bindex0
   /\ forall k,
        (exists keep, nth k bindex [] = filter keep (nth k bindex0 []))
        /\ truthy (nth k bindex []) = truthy (nth k bindex0 [])).

Lemma remove_sub_step_filters (k : nat) (bindex bindex' : lattice) :
  filtered bindex ->
  remove_sub_step offset k bindex = Ok bindex' ->
  filtered bindex'.
Proof.
  intros [Hlen Hk]. unfold remove_sub_step.
  destruct (nth_error bindex k) as [eojeols|] eqn:Enth;
    [|intros [= <-]; split; assumption].
  assert (Hlt : (k < List.length bindex)%nat)
    by (apply nth_error_Some; congruence).
  destruct (collect_pairs offset bindex eojeols) as [[bm me]|err] eqn:Ec;
    cbn [bind fst snd]; [|discriminate].
  intros [= <-]. unfold collect_pairs in Ec.
  apply collect_pairs_from_bucket in Ec.
  destruct Ec as (cs & Hincl & Hall & -> & ->). cbn [app].
  split; [rewrite length_replace_nth; exact Hlen|].
  intros j. rewrite nth_replace_nth by exact Hlt.
  destruct (Nat.eqb j k) eqn:Ej; [|apply Hk].
  apply Nat.eqb_eq in Ej. subst j.
  destruct (Hk k) as [(keep & Hkeep) Htr].
  rewrite (nth_error_nth _ _ [] Enth) in Hkeep, Htr. split.
  - eexists. rewrite Hkeep. apply filter_filter.
  - rewrite filter_skip_truthy by assumption. exact Htr.
Qed.

Lemma remove_sub_filters (pruned : lattice) :
  remove_sub bindex0 offset = Ok pruned -> filtered pruned.
Proof.
  unfold remove_sub.
  apply (for_each_Ok_inv (fun st : lattice => filtered st)).
  - intros k st st' _. apply remove_sub_step_filters.
  - split; [reflexivity|]. intros k. split; [|reflexivity].
    exists (fun _ => true). symmetry. apply filter_all. reflexivity.
Qed.

Lemma remove_sub_raises_IndexError (err : pyerror) :
  remove_sub bindex0 offset = Raise err -> err = IndexError.
Proof.
  unfold remove_sub. apply (for_each_Raise_inv (fun e0 => e0 = IndexError)).
  intros k st err1 _. unfold remove_sub_step.
  destruct (nth_error st k) as [eojeols|]; [|discriminate].
  destruct (collect_pairs offset st eojeols) as [pairs|err2] eqn:Ec;
    cbn [bind]; [discriminate|].
  intros [= <-]. revert Ec. unfold collect_pairs.
  apply (for_each_Raise_inv (fun e0 => e0 = IndexError)).
  intros x s e1 _. apply collect_step_raises_IndexError.
Qed.
End RemoveSubAnyLattice.

(** X6: on any lattice, [remove_sub] only removes records: when it returns,
    the lattice has as many buckets as before and every bucket is the old
    bucket filtered, in the old order; when it raises, the exception is
    IndexError. *)
Theorem remove_sub_only_removes (bindex : lattice) (offset : Z) :
  match remove_sub bindex offset with
  | Ok pruned =>
      List.length pruned = List.length bindex
      /\ forall k, exists keep, nth k pruned [] = filter keep (nth k bindex [])
  | Raise err => err = IndexError
  end.
Proof.
  destruct (remove_sub bindex offset) as [pruned|err] eqn:E.
  - destruct (remove_sub_filters offset bindex pruned E) as [Hlen Hk].
    split; [exact Hlen|]. intros k. apply Hk.
  - eapply remove_sub_raises_IndexError. exact E.
Qed.

(** X7: on any lattice, [remove_sub] never empties a bucket: a bucket that
    held a record still holds one afterwards (of the records that prune the
    others, the one that ends last is kept). *)
Theorem remove_sub_never_empties_a_bucket (bindex : lattice) (offset : Z) :
  match remove_sub bindex offset with
  | Ok pruned => forall k, nth k bindex [] <> [] -> nth k pruned [] <> []
  | Raise _ => True
  end.
Proof.
  destruct (remove_sub bindex offset) as [pruned|err] eqn:E; [|exact I].
  destruct (remove_sub_filters offset bindex pruned E) as [_ Hk].
  intros k Hne. destruct (Hk k) as [_ Htr].
  apply truthy_nonempty. rewrite Htr. apply truthy_nonempty. exact Hne.
Qed.

(** ** The pruning rule on the candidates of the template strategy *)

Lemma opt_tag_eqb_eq (x y : option tag) : opt_tag_eqb x y = true <-> x = y.
Proof.
  destruct x as [s|], y as [t|]; simpl; split; try congruence.
  - intros H. apply String.eqb_eq in H. congruence.
  - intros [= ->]. apply String.eqb_refl.
Qed.

Lemma occupied_false_iff (offset : Z) (bindex : lattice) (y : Eojeol) :
  occupied offset bindex y = false <-> right_span_free offset bindex y.
Proof.
  unfold occupied, span_occupied, right_span_free.
  rewrite <- not_true_iff_false, existsb_exists. split.
  - intros H i Hi. destruct (nth (Z.to_nat (i - offset)) bindex []) eqn:E;
      [reflexivity|].
    exfalso. apply H. exists i. split; [apply In_py_range; exact Hi|].
    rewrite E. reflexivity.
  - intros H (i & Hi & Ht). apply In_py_range in Hi.
    rewrite (H i Hi) in Ht. discriminate.
Qed.

Lemma skip_true_iff (x : Eojeol) (cs : bucket) :
  skip x (map bm_of cs) (map me_of cs) = true <->
  exists y,
    In y cs
    /\ ((w1 x = [] /\ b x = b y /\ m x = m y /\ t0 x = t0 y)
        \/ (w1 x <> [] /\ m x = m y /\ e x < e y /\ t1 x = t1 y)).
Proof.
  unfold skip. rewrite orb_true_iff, !existsb_exists. split.
  - intros [([[b' m'] t] & Hp & Ht) | ([[m' e'] t] & Hp & Ht)];
      apply in_map_iff in Hp; destruct Hp as (y & [= <- <- <-] & Hy);
      exists y; (split; [exact Hy|]);
      rewrite !andb_true_iff in Ht; destruct Ht as [[[H1 H2] H3] H4].
    + left. apply negb_true_iff in H1.
      apply Z.eqb_eq in H2. apply Z.eqb_eq in H3. apply String.eqb_eq in H4.
      repeat split; try assumption. destruct (w1 x); [reflexivity | discriminate].
    + right. apply truthy_nonempty in H1.
      apply Z.eqb_eq in H2. apply Z.ltb_lt in H3. apply opt_tag_eqb_eq in H4.
      repeat split; assumption.
  - intros (y & Hy & [(H1 & H2 & H3 & H4) | (H1 & H2 & H3 & H4)]).
    + left. exists (bm_of y). split; [apply in_map; exact Hy|].
      unfold bm_of. rewrite H1, H2, H3, H4, !Z.eqb_refl, String.eqb_refl.
      reflexivity.
    + right. exists (me_of y). split; [apply in_map; exact Hy|].
      unfold me_of. apply truthy_nonempty in H1.
      rewrite H1, H2, H4, Z.eqb_refl. cbn [andb].
      rewrite (proj2 (Z.ltb_lt _ _) H3). cbn [andb]. apply opt_tag_eqb_eq.
      reflexivity.
Qed.

(** X8: on the candidates that [template_lookup] builds, [remove_sub] keeps
    exactly the records that are not dominated: a one-part record goes when
    its bucket holds a two-part record with the same split point and left
    tag whose right-hand span is free, a two-part record goes when its
    bucket holds a longer two-part record with the same split point and
    right tag whose right-hand span is free. *)
Theorem remove_sub_keeps_the_undominated (eojeol : pystr) (lemmatizer : Lemmatizer)
  (dic : dictionary) (templates : list template) (max_len offset : Z) :
  exists candidates pruned,
    template_candidates eojeol lemmatizer dic templates max_len offset
    = Ok candidates
    /\ remove_sub candidates offset = Ok pruned
    /\ forall k x,
         In x (nth k pruned []) <->
         In x (nth k candidates []) /\ ~ dominated offset candidates k x.
Proof.
  destruct (template_candidates_returns eojeol lemmatizer dic templates max_len
              offset) as (cands & E & _ & Hwf).
  exists cands, (map (prune_bucket (occupied offset cands)) cands).
  split; [exact E|]. split; [apply remove_sub_wf; exact Hwf|].
  intros k x. rewrite nth_map_prune. unfold prune_bucket.
  rewrite filter_In, negb_true_iff, <- not_true_iff_false, skip_true_iff.
  enough (Hiff : In x (nth k cands []) ->
                 (~ (exists y,
                       In y (filter (contributes (occupied offset cands))
                               (nth k cands []))
                       /\ ((w1 x = [] /\ b x = b y /\ m x = m y /\ t0 x = t0 y)
                           \/ (w1 x <> [] /\ m x = m y /\ e x < e y
                               /\ t1 x = t1 y)))
                  <-> ~ dominated offset cands k x)).
  { split; intros [Hx H]; (split; [exact Hx|]); apply (Hiff Hx); exact H. }
  intros Hx.
  assert (Hcs : forall y,
             In y (filter (contributes (occupied offset cands)) (nth k cands [])) <->
             In y (nth k cands []) /\ w1 y <> []
             /\ right_span_free offset cands y).
  { intros y. rewrite filter_In. unfold contributes.
    rewrite andb_true_iff, negb_true_iff, truthy_nonempty, occupied_false_iff.
    tauto. }
  split; intros Hnot Hdom; apply Hnot.
  - destruct Hdom as (y & Hy & Hw & Hfree & Hm & Hcase).
    exists y. split; [apply Hcs; auto|].
    destruct Hcase as [(H1 & H2) | (H1 & H2 & H3)].
    + left. split; [exact H1|]. split; [|split; congruence].
      destruct (Hwf k x Hx) as (Hbx & _). destruct (Hwf k y Hy) as (Hby & _).
      congruence.
    + right. split; [exact H1|]. split; [congruence|]. split; [exact H3 | congruence].
  - destruct Hdom as (y & Hy & Hcase). apply Hcs in Hy.
    destruct Hy as (Hy & Hw & Hfree). exists y.
    split; [exact Hy|]. split; [exact Hw|]. split; [exact Hfree|].
    destruct Hcase as [(H1 & H2 & H3 & H4) | (H1 & H2 & H3 & H4)].
    + split; [congruence|]. left. split; congruence.
    + split; [congruence|]. right. split; [exact H1|]. split; [congruence | exact H3].
Qed.

(** ** The cache: invariant, hits and use counts *)

Lemma cache_wf_compatify (self : LookupBuffer) (topk : Z) :
  cache_wf self -> cache_wf (compatify_buffer self topk).
Proof.
  intros Hwf. unfold compatify_buffer.
  destruct (len (_buffer_counter self) <=? topk); [exact Hwf|].
  destruct Hwf as (Hb & Hc & Hk). unfold slice_to.
  set (sorted := sorted_by_count (_buffer_counter self)).
  set (counter := firstn (clamp_index sorted topk) sorted).
  assert (Hperm : Permutation (_buffer_counter self) sorted)
    by apply sorted_by_count_perm.
  assert (Hsub : forall kc, In kc counter -> In kc (_buffer_counter self)).
  { intros kc Hin. apply (Permutation_in _ (Permutation_sym Hperm)).
    eapply In_firstn. exact Hin. }
  unfold cache_wf. cbn [buffer _buffer_counter]. split; [|split].
  - apply NoDup_keys_filter. exact Hb.
  - unfold counter. rewrite <- firstn_map. apply NoDup_firstn.
    eapply Permutation_NoDup; [|exact Hc]. apply Permutation_map. exact Hperm.
  - intros k. rewrite !in_map_iff. split.
    + intros (kv & <- & Hin). apply filter_In in Hin. destruct Hin as [_ Hin].
      apply dict_mem_In in Hin. apply in_map_iff in Hin. exact Hin.
    + intros (kc & <- & Hin).
      assert (Hbk : In (fst kc) (map fst (buffer self))).
      { apply Hk. apply in_map. apply Hsub. exact Hin. }
      apply in_map_iff in Hbk. destruct Hbk as (kv & Heq & Hbk).
      exists kv. split; [exact Heq|]. apply filter_In. split; [exact Hbk|].
      apply dict_mem_In. rewrite Heq. apply in_map. exact Hin.
Qed.

Lemma cache_wf_sentence_loop {St : Type} (lookup : Strategy St)
  (eojeols : list pystr) :
  forall (sent : lattice) (self : LookupBuffer) (st : St),
    cache_wf self ->
    cache_wf (snd (fst (sentence_lookup_loop lookup eojeols sent self st))).
Proof.
  induction eojeols as [|eojeol rest IH]; intros sent self st Hwf; simpl;
    [exact Hwf|].
  pose proof (cache_wf_eojeol_lookup lookup self eojeol (len sent) st Hwf) as H1.
  destruct (eojeol_lookup lookup self eojeol (len sent) st) as [[[res|err] self1] st1];
    cbn [fst snd] in H1.
  - apply IH. exact H1.
  - exact H1.
Qed.

(** X9: the two dicts of the cache stay in step.  When the buffer and the
    counter have the same keys, they still have after [eojeol_lookup]
    (whether the wrapped strategy returns or raises), after
    [sentence_lookup] and after [compatify_buffer] with any capacity; a
    cache built without a preanalyzed mapping starts that way. *)
Theorem cache_keys_stay_in_step (self : LookupBuffer) :
  cache_wf self ->
  (forall (St : Type) (lookup : Strategy St) eojeol offset st,
     cache_wf (snd (fst (eojeol_lookup lookup self eojeol offset st))))
  /\ (forall (St : Type) (lookup : Strategy St) sentence st,
        cache_wf (snd (fst (sentence_lookup lookup self sentence st))))
  /\ (forall topk, cache_wf (compatify_buffer self topk))
  /\ cache_wf (LookupBuffer_init None).
Proof.
  intros Hwf. split; [|split; [|split]].
  - intros St lookup eojeol offset st. apply cache_wf_eojeol_lookup. exact Hwf.
  - intros St lookup sentence st. apply cache_wf_sentence_loop. exact Hwf.
  - intros topk. apply cache_wf_compatify. exact Hwf.
  - unfold cache_wf. simpl. repeat split; try constructor; auto.
Qed.

Lemma three_tokens_wf : cache_wf Fixtures.three_tokens.
Proof.
  unfold cache_wf. simpl. split; [|split].
  - repeat constructor; simpl; intuition discriminate.
  - repeat constructor; simpl; intuition discriminate.
  - intros k. tauto.
Qed.

Lemma cache_keys_stay_in_step_witness :
  cache_wf Fixtures.three_tokens
  /\ forall topk, cache_wf (compatify_buffer Fixtures.three_tokens topk).
Proof.
  split; [exact three_tokens_wf|].
  exact (proj1 (proj2 (proj2 (cache_keys_stay_in_step Fixtures.three_tokens
                                 three_tokens_wf)))).
Defined.

(** X10: once a token has been looked up with success, looking it up
    again, at whatever offset, is a hit: it returns the same list, leaves
    the wrapped strategy alone, keeps the buffer and adds one to the use
    count. *)
Theorem second_lookup_is_a_hit {St : Type} (lookup : Strategy St)
  (self self1 : LookupBuffer) (eojeol : pystr) (offset offset' : Z) (st st1 : St)
  (res : lattice) :
  0 <= dict_get (_buffer_counter self) eojeol 0 ->
  eojeol_lookup lookup self eojeol offset st = (Ok res, self1, st1) ->
  eojeol_lookup lookup self1 eojeol offset' st1
  = (Ok res,
     mkLookupBuffer (buffer self1)
       (dict_set (_buffer_counter self1) eojeol
          (dict_get (_buffer_counter self) eojeol 0 + 2)),
     st1).
Proof.
  intros Hnn. unfold eojeol_lookup at 1.
  set (count := dict_get (_buffer_counter self) eojeol 0) in *.
  assert (Hhit : forall self2 : LookupBuffer,
             dict_get (_buffer_counter self2) eojeol 0 = count + 1 ->
             dict_lookup (buffer self2) eojeol = Ok res ->
             eojeol_lookup lookup self2 eojeol offset' st1
             = (Ok res,
                mkLookupBuffer (buffer self2)
                  (dict_set (_buffer_counter self2) eojeol (count + 2)), st1)).
  { intros self2 Hc Hb. unfold eojeol_lookup. rewrite Hc, Hb.
    replace (count + 1 =? 0) with false by (symmetry; apply Z.eqb_neq; lia).
    replace (count + 1 + 1) with (count + 2) by lia. reflexivity. }
  destruct (count =? 0) eqn:E0.
  - destruct (lookup eojeol offset st) as [[r|err] st']; [|discriminate].
    intros [= <- <- <-]. apply Hhit; cbn [buffer _buffer_counter].
    + apply dict_get_set.
    + apply dict_lookup_set.
  - destruct (dict_lookup (buffer self) eojeol) as [r|err] eqn:Eb; [|discriminate].
    intros [= <- <- <-]. apply Hhit; cbn [buffer _buffer_counter].
    + apply dict_get_set.
    + exact Eb.
Qed.

Lemma second_lookup_is_a_hit_witness :
  let token := Fixtures.na ++ Fixtures.neun in
  let self := LookupBuffer_init None in
  let self1 := mkLookupBuffer
                 [(token, [[mkEojeol Fixtures.na Fixtures.neun Noun (Some Josa) 0 1 2];
                           []])]
                 [(token, 1)] in
  0 <= dict_get (_buffer_counter self) token 0
  /\ eojeol_lookup Fixtures.na_neun_strategy self token 0 tt
     = (Ok [[mkEojeol Fixtures.na Fixtures.neun Noun (Some Josa) 0 1 2]; []],
        self1, tt)
  /\ eojeol_lookup Fixtures.na_neun_strategy self1 token 2 tt
     = (Ok [[mkEojeol Fixtures.na Fixtures.neun Noun (Some Josa) 0 1 2]; []],
        mkLookupBuffer (buffer self1)
          (dict_set (_buffer_counter self1) token
             (dict_get (_buffer_counter self) token 0 + 2)),
        tt).
Proof.
  intros token self self1.
  assert (H1 : 0 <= dict_get (_buffer_counter self) token 0) by (simpl; lia).
  assert (H2 : eojeol_lookup Fixtures.na_neun_strategy self token 0 tt
               = (Ok [[mkEojeol Fixtures.na Fixtures.neun Noun (Some Josa) 0 1 2];
                      []], self1, tt)) by reflexivity.
  split; [exact H1|]. split; [exact H2|].
  exact (second_lookup_is_a_hit Fixtures.na_neun_strategy self self1 token 0 2 tt tt
           _ H1 H2).
Defined.

Lemma dict_get_set_any {V : Type} (d : list (pystr * V)) (k t : pystr) (v dflt : V) :
  dict_get (dict_set d k v) t dflt = if str_eqb t k then v else dict_get d t dflt.
Proof.
  destruct (str_eqb t k) eqn:E.
  - apply str_eqb_eq in E. subst t. apply dict_get_set.
  - apply dict_get_set_other. apply str_eqb_neq in E. congruence.
Qed.

Lemma dict_lookup_set_other {V : Type} (d : list (pystr * V)) (k t : pystr) (v : V) :
  t <> k -> dict_lookup (dict_set d k v) t = dict_lookup d t.
Proof.
  intros Hne. apply str_eqb_neq in Hne.
  induction d as [|[k0 v0] d IH]; simpl.
  - rewrite Hne. reflexivity.
  - destruct (str_eqb k k0) eqn:E; simpl.
    + apply str_eqb_eq in E. subst k0. rewrite Hne. reflexivity.
    + rewrite IH. reflexivity.
Qed.

Lemma first_seen_spec (eojeols : list pystr) :
  forall seen,
    NoDup (first_seen seen eojeols)
    /\ forall t, In t (first_seen seen eojeols) <-> In t eojeols /\ ~ In t seen.
Proof.
  induction eojeols as [|e0 rest IH]; intros seen; simpl.
  - split; [constructor | tauto].
  - destruct (str_in e0 seen) eqn:E.
    + apply str_in_In in E. destruct (IH seen) as [Hnd Hin].
      split; [exact Hnd|]. intros t. rewrite Hin. split; [tauto|].
      intros [[<-|Ht] Hn]; [contradiction | tauto].
    + assert (Hn0 : ~ In e0 seen) by (rewrite <- str_in_In; congruence).
      destruct (IH (e0 :: seen)) as [Hnd Hin]. split.
      * constructor; [|exact Hnd]. rewrite Hin. simpl. tauto.
      * intros t. simpl. rewrite Hin. simpl. split.
        -- intros [<-|[Ht Hn]]; [tauto | tauto].
        -- intros [[<-|Ht] Hn]; [tauto|].
           destruct (list_eq_dec N.eq_dec e0 t) as [->|Hne]; [tauto|].
           right. tauto.
Qed.

Section CachedSentence.
Variable f : pystr -> Z -> result lattice.
Hypothesis f_returns : forall eojeol offset, exists r, f eojeol offset = Ok r.

Lemma cached_loop_logged (eojeols : list pystr) :
  forall (seen : list pystr) (sent : lattice) (self : LookupBuffer)
         (calls : list (pystr * Z)),
    cache_tracks seen self ->
    exists res self' new,
      sentence_lookup_loop (logging f) eojeols sent self calls
      = (Ok res, self', calls ++ new)
      /\ map fst new = first_seen seen eojeols
      /\ forall t, dict_get (_buffer_counter self') t 0
                   = dict_get (_buffer_counter self) t 0 + occurrences t eojeols.
Proof.
  induction eojeols as [|eojeol rest IH]; intros seen sent self calls Htr.
  - exists sent, self, []. simpl. rewrite app_nil_r.
    repeat split. intros t. unfold occurrences, len. simpl. lia.
  - destruct Htr as (Hnn & Hseen & Hbuf).
    cbn [sentence_lookup_loop first_seen]. unfold eojeol_lookup.
    set (count := dict_get (_buffer_counter self) eojeol 0).
    assert (Hocc : forall t count',
               count' = dict_get (_buffer_counter self) eojeol 0 + 1 ->
               (if str_eqb t eojeol then count'
                else dict_get (_buffer_counter self) t 0)
               + occurrences t rest
               = dict_get (_buffer_counter self) t 0
                 + occurrences t (eojeol :: rest)).
    { intros t count' ->. unfold occurrences, len. cbn [filter].
      destruct (str_eqb t eojeol) eqn:E; [|lia].
      apply str_eqb_eq in E. subst t. cbn [List.length]. lia. }
    rewrite (Hseen eojeol). fold count.
    destruct (count =? 0) eqn:E0; cbn [negb].
    + destruct (f_returns eojeol (len sent)) as (r & Hr).
      unfold logging at 1. rewrite Hr.
      destruct (IH (eojeol :: seen) (sent ++ r)
                  (mkLookupBuffer (dict_set (buffer self) eojeol r)
                     (dict_set (_buffer_counter self) eojeol (count + 1)))
                  (calls ++ [(eojeol, len sent)]))
        as (res & self' & new & E & Hnew & Hcount).
      { split; [|split].
        - intros t. cbn [buffer _buffer_counter]. rewrite dict_get_set_any.
          destruct (str_eqb t eojeol); [specialize (Hnn eojeol); fold count in Hnn; lia
                                       | apply Hnn].
        - intros t. cbn [buffer _buffer_counter str_in existsb].
          fold (str_in t seen). rewrite dict_get_set_any, Hseen.
          destruct (str_eqb t eojeol); [|reflexivity].
          apply Z.eqb_eq in E0. rewrite E0. reflexivity.
        - intros t. cbn [buffer _buffer_counter]. rewrite dict_get_set_any.
          destruct (str_eqb t eojeol) eqn:Et.
          + apply str_eqb_eq in Et. subst t. intros _. exists r.
            apply dict_lookup_set.
          + intros Hc. rewrite dict_lookup_set_other
              by (apply str_eqb_neq; exact Et).
            apply Hbuf. exact Hc. }
      rewrite E. exists res, self', ((eojeol, len sent) :: new).
      split; [rewrite <- app_assoc; reflexivity|].
      split; [cbn [map fst]; rewrite Hnew; reflexivity|].
      intros t. rewrite Hcount. cbn [_buffer_counter]. rewrite dict_get_set_any.
      apply Hocc. reflexivity.
    + apply Z.eqb_neq in E0.
      destruct (Hbuf eojeol E0) as (r & Hr). rewrite Hr.
      destruct (IH seen (sent ++ r)
                  (mkLookupBuffer (buffer self)
                     (dict_set (_buffer_counter self) eojeol (count + 1))) calls)
        as (res & self' & new & E & Hnew & Hcount).
      { split; [|split].
        - intros t. cbn [buffer _buffer_counter]. rewrite dict_get_set_any.
          destruct (str_eqb t eojeol); [specialize (Hnn eojeol); fold count in Hnn; lia
                                       | apply Hnn].
        - intros t. cbn [buffer _buffer_counter]. rewrite dict_get_set_any, Hseen.
          destruct (str_eqb t eojeol) eqn:Et; [|reflexivity].
          apply str_eqb_eq in Et. subst t. fold count.
          specialize (Hnn eojeol). fold count in Hnn.
          replace (count =? 0) with false by (symmetry; apply Z.eqb_neq; lia).
          replace (count + 1 =? 0) with false by (symmetry; apply Z.eqb_neq; lia).
          reflexivity.
        - intros t. cbn [buffer _buffer_counter]. rewrite dict_get_set_any.
          destruct (str_eqb t eojeol) eqn:Et.
          + apply str_eqb_eq in Et. subst t. intros _. exists r. exact Hr.
          + apply Hbuf. }
      rewrite E. exists res, self', new.
      split; [reflexivity|]. split; [exact Hnew|].
      intros t. rewrite Hcount. cbn [_buffer_counter]. rewrite dict_get_set_any.
      apply Hocc. reflexivity.
Qed.
End CachedSentence.

Lemma template_strategy_returns (tl : TemplateLookup) (eojeol : pystr) (offset : Z) :
  exists r, TemplateLookup_eojeol_lookup tl eojeol offset = Ok r.
Proof.
  unfold TemplateLookup_eojeol_lookup.
  destruct (template_lookup_sources eojeol (lemmatizer_of (base tl))
              (pos_to_words (base tl)) (templates_of tl) (max_word_len (base tl))
              offset) as (bindex & E & _).
  exists bindex. exact E.
Qed.

Lemma fresh_cache_tracks : cache_tracks [] (LookupBuffer_init None).
Proof.
  split; [|split]; intros t; simpl; [lia | reflexivity | congruence].
Qed.

(** X11: through a new cache, [sentence_lookup] over the template strategy
    returns, and it calls the strategy once for each distinct token of the
    sentence, in the order in which the tokens first occur; a token that
    comes again is served from the buffer. *)
Theorem cached_sentence_calls_strategy_once_per_token (tl : TemplateLookup)
  (sentence : pystr) :
  let eojeols := split (remove_doublespace sentence) in
  exists res self' calls,
    sentence_lookup (logging (TemplateLookup_eojeol_lookup tl))
      (LookupBuffer_init None) sentence []
    = (Ok res, self', calls)
    /\ NoDup (map fst calls)
    /\ (forall t, In t (map fst calls) <-> In t eojeols)
    /\ map fst calls = first_seen [] eojeols.
Proof.
  intros eojeols. unfold sentence_lookup. fold eojeols.
  destruct (cached_loop_logged (TemplateLookup_eojeol_lookup tl)
              (template_strategy_returns tl) eojeols [] [] (LookupBuffer_init None)
              [] fresh_cache_tracks) as (res & self' & new & E & Hnew & _).
  exists res, self', new. split; [exact E|]. rewrite Hnew.
  destruct (first_seen_spec eojeols []) as [Hnd Hin].
  split; [exact Hnd|]. split; [|reflexivity].
  intros t. rewrite Hin. simpl. tauto.
Qed.

(** X12: after [sentence_lookup] through a new cache over the template
    strategy, the use count of every token is the number of times it occurs
    in the sentence (0 for a string that is no token of it). *)
Theorem cached_sentence_counts_occurrences (tl : TemplateLookup) (sentence : pystr) :
  let eojeols := split (remove_doublespace sentence) in
  exists res self' calls,
    sentence_lookup (logging (TemplateLookup_eojeol_lookup tl))
      (LookupBuffer_init None) sentence []
    = (Ok res, self', calls)
    /\ forall t, dict_get (_buffer_counter self') t 0 = occurrences t eojeols.
Proof.
  intros eojeols. unfold sentence_lookup. fold eojeols.
  destruct (cached_loop_logged (TemplateLookup_eojeol_lookup tl)
              (template_strategy_returns tl) eojeols [] [] (LookupBuffer_init None)
              [] fresh_cache_tracks) as (res & self' & new & E & _ & Hcount).
  exists res, self', new. split; [exact E|].
  intros t. rewrite Hcount. simpl. lia.
Qed.

(** X13: a negative capacity does not empty the cache: [compatify_buffer]
    then drops the entries that come last in the order of decreasing use
    count, as many as the capacity is below zero, and keeps the others. *)
Theorem compatify_buffer_negative_capacity (self : LookupBuffer) (topk : Z) :
  topk < 0 ->
  len (_buffer_counter (compatify_buffer self topk))
  = Z.max 0 (len (_buffer_counter self) + topk).
Proof.
  intros Hneg. unfold compatify_buffer.
  assert (Hl : 0 <= len (_buffer_counter self)) by (unfold len; lia).
  replace (len (_buffer_counter self) <=? topk) with false
    by (symmetry; apply Z.leb_gt; lia).
  cbn [_buffer_counter]. rewrite len_slice_to.
  assert (Hs : len (sorted_by_count (_buffer_counter self))
               = len (_buffer_counter self)).
  { unfold len. rewrite <- (Permutation_length (sorted_by_count_perm _)).
    reflexivity. }
  unfold clamp_index. rewrite Hs.
  replace (topk <? 0) with true by (symmetry; apply Z.ltb_lt; lia). lia.
Qed.

Lemma compatify_buffer_negative_capacity_witness :
  -1 < 0
  /\ len (_buffer_counter (compatify_buffer Fixtures.three_tokens (-1)))
     = Z.max 0 (len (_buffer_counter Fixtures.three_tokens) + -1).
Proof.
  split; [lia|].
  apply (compatify_buffer_negative_capacity Fixtures.three_tokens (-1)). lia.
Defined.

(** ** Construction: the lemmatizer tags and the template list *)

Lemma dict_getitem_spec (dic : dictionary) (k : tag) :
  match dict_getitem dic k with
  | Ok ws => In k (map fst dic)
  | Raise err => err = KeyError /\ ~ In k (map fst dic)
  end.
Proof.
  induction dic as [|[k' ws] dic IH]; simpl; [auto|].
  destruct (String.eqb k k') eqn:E.
  - apply String.eqb_eq in E. auto.
  - apply String.eqb_neq in E.
    destruct (dict_getitem dic k); [right; exact IH|].
    destruct IH as [-> Hn]. split; [reflexivity|]. intros [H|H]; congruence.
Qed.

(** X14: built without a lemmatizer, an [LRLookup] needs the tags
    Adjective, Verb and Eomi in its dictionary: if one is missing the
    construction raises KeyError (so the ValueError for an empty dictionary
    cannot be reached), and otherwise it succeeds, with the lemmatizer built
    from the words of these tags for formal text and the maximal length
    given or, when 0 is given, derived from the dictionary. *)
Theorem LRLookup_init_without_lemmatizer (new_lemmatizer : LemmatizerClass)
  (dic : dictionary) (max_len : Z) :
  match LRLookup_init new_lemmatizer dic max_len None with
  | Ok self =>
      has_lemmatizer_tags dic
      /\ pos_to_words self = dic
      /\ formal_text self = true
      /\ max_word_len self = (if max_len =? 0 then longest_word dic else max_len)
      /\ lemmatizer_of self
         = new_lemmatizer (dict_get_words dic "Adjective")
             (dict_get_words dic "Verb") (dict_get_words dic "Eomi") true
  | Raise err => err = KeyError /\ ~ has_lemmatizer_tags dic
  end.
Proof.
  unfold LRLookup_init, _set_lemmatizer, has_lemmatizer_tags.
  assert (Hget : forall k ws, dict_getitem dic k = Ok ws -> dict_get_words dic k = ws).
  { intros k ws. induction dic as [|[k' ws'] d IH]; simpl; [discriminate|].
    destruct (String.eqb k k'); [congruence | exact IH]. }
  pose proof (dict_getitem_spec dic "Adjective") as Ha.
  pose proof (dict_getitem_spec dic "Verb") as Hv.
  pose proof (dict_getitem_spec dic "Eomi") as He.
  destruct (dict_getitem dic "Adjective") as [a|err] eqn:Ea; cbn [bind];
    [|destruct Ha as [-> Ha]; split; [reflexivity | tauto]].
  destruct (dict_getitem dic "Verb") as [v|err] eqn:Ev; cbn [bind];
    [|destruct Hv as [-> Hv]; split; [reflexivity | tauto]].
  destruct (dict_getitem dic "Eomi") as [eo|err] eqn:Ee; cbn [bind];
    [|destruct He as [-> He]; split; [reflexivity | tauto]].
  rewrite (Hget _ _ Ea), (Hget _ _ Ev), (Hget _ _ Ee).
  destruct (max_len =? 0) eqn:E0.
  - apply Z.eqb_eq in E0. subst max_len. unfold _check_max_word_len.
    destruct dic as [|entry dic']; [destruct Ha|].
    cbn [bind]. rewrite check_max_word_len_fold by lia.
    pose proof (longest_word_nonneg (entry :: dic')).
    rewrite Z.max_r by lia. cbn [pos_to_words formal_text max_word_len lemmatizer_of].
    auto.
  - cbn [bind pos_to_words formal_text max_word_len lemmatizer_of]. auto.
Qed.

Lemma template_eqb_eq (s t : template) : template_eqb s t = true <-> s = t.
Proof.
  unfold template_eqb. revert t.
  induction s as [|x s IH]; intros [|y t]; simpl; split; try congruence;
    try reflexivity.
  - intros H. apply andb_true_iff in H. destruct H as [Hl H].
    apply andb_true_iff in H. destruct H as [Hxy H]. cbn [fst snd] in Hxy.
    apply String.eqb_eq in Hxy. subst y. f_equal. apply IH.
    apply andb_true_iff. split; [exact Hl | exact H].
  - intros [= <- <-]. specialize (proj2 (IH s) eq_refl). intros H.
    apply andb_true_iff in H. destruct H as [Hl H].
    cbn [fst snd]. rewrite Hl, String.eqb_refl, H. reflexivity.
Qed.

Lemma dedup_templates_spec (ts : list template) :
  NoDup (dedup_templates ts)
  /\ forall t, In t (dedup_templates ts) <-> In t ts.
Proof.
  induction ts as [|t0 ts [Hnd Hin]]; simpl.
  - split; [constructor | tauto].
  - assert (Hf : forall t,
               In t (filter (fun u => negb (template_eqb t0 u)) (dedup_templates ts))
               <-> In t ts /\ t <> t0).
    { intros t. rewrite filter_In, Hin, negb_true_iff, <- not_true_iff_false,
        template_eqb_eq. split; intros [H1 H2]; split; congruence. }
    split.
    + constructor; [rewrite Hf; tauto|]. apply NoDup_filter. exact Hnd.
    + intros t. rewrite Hf. split; [tauto|].
      destruct (list_eq_dec string_dec t t0) as [->|Hne]; [tauto|].
      intros [H|H]; [congruence | tauto].
Qed.

Lemma insert_by_len_perm (t : template) (ts : list template) :
  Permutation (t :: ts) (insert_by_len t ts).
Proof.
  induction ts as [|u ts IH]; simpl; [reflexivity|].
  destruct (len t <=? len u); [reflexivity|].
  rewrite perm_swap. apply perm_skip. exact IH.
Qed.

Lemma insert_by_len_sorted (t : template) (ts : list template) :
  StronglySorted by_length ts -> StronglySorted by_length (insert_by_len t ts).
Proof.
  induction 1 as [|u ts Hs IH Hall]; simpl.
  - constructor; constructor.
  - destruct (len t <=? len u) eqn:E.
    + apply Z.leb_le in E. constructor; [constructor; assumption|].
      constructor; [exact E|].
      eapply Forall_impl; [|exact Hall]. unfold by_length. intros; lia.
    + apply Z.leb_gt in E. constructor; [exact IH|].
      rewrite <- insert_by_len_perm. constructor; [unfold by_length; lia | exact Hall].
Qed.

Lemma sort_templates_spec (ts : list template) :
  Permutation ts (fold_right insert_by_len [] ts)
  /\ StronglySorted by_length (fold_right insert_by_len [] ts).
Proof.
  induction ts as [|t ts [Hp Hs]]; simpl.
  - split; constructor.
  - split.
    + rewrite <- insert_by_len_perm. apply perm_skip. exact Hp.
    + apply insert_by_len_sorted. exact Hs.
Qed.

Lemma template_format_check_Raise (templates : list template) (err : pyerror) :
  _template_format_check templates = Raise err ->
  err = ValueError /\ exists t, In t templates /\ 2 < len t.
Proof.
  unfold _template_format_check.
  destruct (existsb (fun t => 2 <? len t) templates) eqn:E; [|discriminate].
  intros [= <-]. split; [reflexivity|]. apply existsb_exists in E.
  destruct E as (t & Ht & Hlen). apply Z.ltb_lt in Hlen. eauto.
Qed.

Lemma template_format_check_Ok (templates ts : list template) :
  _template_format_check templates = Ok ts ->
  (forall t, In t templates -> len t <= 2)
  /\ (forall t, In t ts <-> In t templates)
  /\ NoDup ts
  /\ StronglySorted by_length ts.
Proof.
  unfold _template_format_check.
  destruct (existsb (fun t => 2 <? len t) templates) eqn:E; [discriminate|].
  intros [= <-].
  destruct (dedup_templates_spec templates) as [Hnd Hin].
  destruct (sort_templates_spec (dedup_templates templates)) as [Hp Hs].
  split; [|split; [|split]].
  - intros t Ht. apply not_true_iff_false in E.
    destruct (Z_le_gt_dec (len t) 2) as [Hle|Hgt]; [exact Hle|].
    exfalso. apply E. apply existsb_exists. exists t.
    split; [exact Ht | apply Z.ltb_lt; lia].
  - intros t. rewrite <- Hin. split; intros H.
    + eapply Permutation_in; [apply Permutation_sym; exact Hp | exact H].
    + eapply Permutation_in; [exact Hp | exact H].
  - eapply Permutation_NoDup; [exact Hp | exact Hnd].
  - exact Hs.
Qed.

(** X15: the template format check raises ValueError exactly when some
    template has more than two slots; otherwise it returns the same
    templates without duplicates, shorter templates first. *)
Theorem template_format_check_sorts_and_dedups (templates : list template) :
  match _template_format_check templates with
  | Ok ts =>
      (forall t, In t templates -> len t <= 2)
      /\ (forall t, In t ts <-> In t templates)
      /\ NoDup ts
      /\ StronglySorted by_length ts
  | Raise err => err = ValueError /\ exists t, In t templates /\ 2 < len t
  end.
Proof.
  destruct (_template_format_check templates) as [ts|err] eqn:E.
  - apply template_format_check_Ok. exact E.
  - apply template_format_check_Raise. exact E.
Qed.

(** X16: [append_templates] on a strategy whose templates have at most two
    slots raises ValueError exactly when a template that is added has more
    than two slots: when it raises, such a template is among the added
    ones, and when it returns, every added template has at most two slots.
    When it returns, the strategy keeps its dictionary, lemmatizer and
    maximal length, and its templates are the old ones and the added ones
    (a tag name given alone is added as a one-tag template), without
    duplicates, shorter templates first. *)
Theorem append_templates_extends (self : TemplateLookup) (template : template_arg) :
  (forall t, In t (templates_of self) -> len t <= 2) ->
  let added := match template with
               | OneTag t => [[t]]
               | Templates ts => ts
               end in
  match append_templates self template with
  | Ok self' =>
      (forall t, In t added -> len t <= 2)
      /\ base self' = base self
      /\ (forall t, In t (templates_of self') <->
                    In t (templates_of self) \/ In t added)
      /\ NoDup (templates_of self')
      /\ StronglySorted by_length (templates_of self')
  | Raise err => err = ValueError /\ exists t, In t added /\ 2 < len t
  end.
Proof.
  intros Hold added. unfold append_templates, set_templates. fold added.
  destruct (_template_format_check (templates_of self ++ added)) as [ts|err] eqn:E;
    cbn [bind].
  - apply template_format_check_Ok in E.
    destruct E as (Hle & Hin & Hnd & Hs). cbn [base templates_of].
    split; [intros t Ht; apply Hle, in_or_app; right; exact Ht|].
    split; [reflexivity|]. split; [|split; assumption].
    intros t. rewrite Hin, in_app_iff. reflexivity.
  - apply template_format_check_Raise in E.
    destruct E as (-> & t & Ht & Hlen). split; [reflexivity|].
    apply in_app_or in Ht. destruct Ht as [Ht|Ht]; [|eauto].
    specialize (Hold t Ht). lia.
Qed.

Lemma append_templates_extends_witness :
  let self := mkTemplateLookup Fixtures.na_neun_lookup [[Noun]; [Noun; Josa]] in
  (forall t, In t (templates_of self) -> len t <= 2)
  /\ match append_templates self (OneTag "Adverb") with
     | Ok self' =>
         (forall t, In t [["Adverb"%string]] -> len t <= 2)
         /\ base self' = base self
         /\ (forall t, In t (templates_of self') <->
                       In t (templates_of self) \/ In t [["Adverb"%string]])
         /\ NoDup (templates_of self')
         /\ StronglySorted by_length (templates_of self')
     | Raise err =>
         err = ValueError /\ exists t, In t [["Adverb"%string]] /\ 2 < len t
     end.
Proof.
  intros self.
  assert (H : forall t, In t (templates_of self) -> len t <= 2).
  { intros t [<-|[<-|[]]]; vm_compute; discriminate. }
  split; [exact H|].
  exact (append_templates_extends self (OneTag "Adverb") H).
Defined.

(** ** The lattice of a sentence *)

Lemma split_acc_nonempty (s cur : pystr) (t : pystr) :
  In t (split_acc s cur) -> t <> [].
Proof.
  revert cur. induction s as [|c s IH]; intros cur; simpl.
  - destruct cur as [|d cur]; [intros [] | intros [<-|[]]].
    simpl. intros H. apply app_eq_nil in H. destruct H as [_ H]. discriminate.
  - destruct (is_space c); [|apply IH].
    destruct cur as [|d cur]; [apply IH|].
    intros [<-|H]; [|eapply IH; exact H].
    simpl. intros H. apply app_eq_nil in H. destruct H as [_ H]. discriminate.
Qed.

Lemma lookup_tokens_lattice (f : pystr -> Z -> result lattice) :
  (forall eojeol offset r,
     f eojeol offset = Ok r ->
     len r = len eojeol
     /\ forall k x, In x (nth k r []) -> b x = offset + Z.of_nat k) ->
  forall eojeols offset res,
    lookup_tokens f eojeols offset = Ok res ->
    len res = len (List.concat eojeols)
    /\ forall k x, In x (nth k res []) -> b x = offset + Z.of_nat k.
Proof.
  intros Hf. induction eojeols as [|eojeol rest IH]; intros offset res; simpl.
  - intros [= <-]. split; [reflexivity|]. intros [|k] x [].
  - destruct (f eojeol offset) as [r|err] eqn:Er; cbn [bind]; [|discriminate].
    destruct (lookup_tokens f rest (offset + len eojeol)) as [rs|err] eqn:Ers;
      cbn [bind]; [|discriminate].
    intros [= <-]. destruct (Hf _ _ _ Er) as [Hlen Hb].
    destruct (IH _ _ Ers) as [Hlens Hbs]. split.
    + rewrite !len_app. lia.
    + intros k x Hx.
      destruct (Nat.lt_ge_cases k (List.length r)) as [Hk|Hk].
      * rewrite app_nth1 in Hx by exact Hk. apply Hb. exact Hx.
      * rewrite app_nth2 in Hx by exact Hk. apply Hbs in Hx.
        unfold len in *. lia.
Qed.

Lemma lookup_tokens_returns (f : pystr -> Z -> result lattice)
  (eojeols : list pystr) :
  (forall eojeol offset, In eojeol eojeols -> exists r, f eojeol offset = Ok r) ->
  forall offset, exists res, lookup_tokens f eojeols offset = Ok res.
Proof.
  induction eojeols as [|eojeol rest IH]; intros Hf offset; simpl.
  - exists []. reflexivity.
  - destruct (Hf eojeol offset (or_introl eq_refl)) as (r & ->).
    destruct (IH (fun e0 o Hin => Hf e0 o (or_intror Hin)) (offset + len eojeol))
      as (rs & ->).
    exists (r ++ rs). reflexivity.
Qed.

Lemma template_strategy_lattice (tl : TemplateLookup) (eojeol : pystr) (offset : Z)
  (r : lattice) :
  TemplateLookup_eojeol_lookup tl eojeol offset = Ok r ->
  len r = len eojeol
  /\ forall k x, In x (nth k r []) -> b x = offset + Z.of_nat k.
Proof.
  unfold TemplateLookup_eojeol_lookup. intros E.
  destruct (template_lookup_sources eojeol (lemmatizer_of (base tl))
              (pos_to_words (base tl)) (templates_of tl) (max_word_len (base tl))
              offset) as (bindex & E' & Hlen & Hsrc).
  assert (bindex = r) by congruence. subst bindex.
  split; [exact Hlen|]. intros k x Hx.
  destruct (Hsrc k x Hx) as [(hi & _ & _ & Hin) | Hd].
  - apply (lemmatize_anchored _ _ _ _ _ Hin).
  - destruct Hd as [(hi & u & _ & _ & _ & _ & ->)
                   | (mid & hi & u0 & u1 & _ & _ & _ & _ & _ & _ & _ & ->)];
      reflexivity.
Qed.

Lemma lr_strategy_lattice (lr : LRLookup) (eojeol : pystr) (offset : Z) (r : lattice) :
  LRLookup_eojeol_lookup lr eojeol offset = Ok r ->
  len r = len eojeol
  /\ forall k x, In x (nth k r []) -> b x = offset + Z.of_nat k.
Proof.
  unfold LRLookup_eojeol_lookup. intros E. split.
  - eapply lr_lookup_len. exact E.
  - intros k x Hx.
    exact (proj1 (lr_lookup_sourced _ _ _ _ _ E k x Hx)).
Qed.

(** X17: [sentence_lookup] of the template strategy returns for every
    sentence; the lattice has one bucket for each character of the sentence
    that is not whitespace, and the records of bucket [k] begin at [k]. *)
Theorem template_sentence_lookup_lattice (tl : TemplateLookup) (sentence : pystr) :
  exists result,
    TemplateLookup_sentence_lookup tl sentence = Ok result
    /\ len result
       = len (filter (fun c => negb (is_space c)) (remove_doublespace sentence))
    /\ forall k x, In x (nth k result []) -> b x = Z.of_nat k.
Proof.
  unfold TemplateLookup_sentence_lookup.
  rewrite sentence_lookup_with_offsets
    by (intros eojeol offset r E; apply (template_strategy_lattice tl _ _ _ E)).
  destruct (lookup_tokens_returns (TemplateLookup_eojeol_lookup tl)
              (split (remove_doublespace sentence))
              (fun e0 o _ => template_strategy_returns tl e0 o) 0) as (res & E).
  exists res. split; [exact E|].
  destruct (lookup_tokens_lattice _ (template_strategy_lattice tl) _ _ _ E)
    as [Hlen Hb].
  split; [rewrite Hlen, split_concat; reflexivity|].
  intros k x Hx. rewrite (Hb k x Hx). lia.
Qed.

(** X18: when the lemmatizer has no analysis of the empty string,
    [sentence_lookup] of the LR strategy returns for every sentence (the
    tokens it looks up are never empty); the lattice has one bucket for
    each character that is not whitespace, and the records of bucket [k]
    begin at [k]. *)
Theorem lr_sentence_lookup_lattice (lr : LRLookup) (sentence : pystr) :
  lemmatizer_of lr [] = [] ->
  exists result,
    LRLookup_sentence_lookup lr sentence = Ok result
    /\ len result
       = len (filter (fun c => negb (is_space c)) (remove_doublespace sentence))
    /\ forall k x, In x (nth k result []) -> b x = Z.of_nat k.
Proof.
  intros Hempty. unfold LRLookup_sentence_lookup.
  rewrite sentence_lookup_with_offsets
    by (intros eojeol offset r E; apply (lr_strategy_lattice lr _ _ _ E)).
  destruct (lookup_tokens_returns (LRLookup_eojeol_lookup lr)
              (split (remove_doublespace sentence))) with (offset := 0)
    as (res & E).
  { intros eojeol offset Hin. unfold LRLookup_eojeol_lookup.
    destruct (lr_lookup_returns eojeol (lemmatizer_of lr) (pos_to_words lr) offset)
      as (bindex & Eb & _); [|exact Hempty|eauto].
    eapply split_acc_nonempty. exact Hin. }
  exists res. split; [exact E|].
  destruct (lookup_tokens_lattice _ (lr_strategy_lattice lr) _ _ _ E) as [Hlen Hb].
  split; [rewrite Hlen, split_concat; reflexivity|].
  intros k x Hx. rewrite (Hb k x Hx). lia.
Qed.

Lemma lr_sentence_lookup_lattice_witness :
  lemmatizer_of Fixtures.na_neun_lookup [] = []
  /\ exists result,
       LRLookup_sentence_lookup Fixtures.na_neun_lookup Fixtures.na_neun_twice
       = Ok result
       /\ len result
          = len (filter (fun c => negb (is_space c))
                   (remove_doublespace Fixtures.na_neun_twice))
       /\ forall k x, In x (nth k result []) -> b x = Z.of_nat k.
Proof.
  split; [reflexivity|].
  exact (lr_sentence_lookup_lattice Fixtures.na_neun_lookup Fixtures.na_neun_twice
           eq_refl).
Defined.

(** ** The noun filter and the dictionary *)

Lemma filter_split_perm {A : Type} (f : A -> bool) (l : list A) :
  Permutation l (filter (fun x => negb (f x)) l ++ filter f l).
Proof.
  induction l as [|x l IH]; simpl; [constructor|].
  destruct (f x); simpl.
  - apply Permutation_cons_app. exact IH.
  - apply perm_skip. exact IH.
Qed.

Section ConfusedNouns.
Context {score : Type}.
Variable nouns : list (pystr * score).
Variables predicators pos_features common_features : list pystr.

Local Abbreviation compound w :=
  (_is_noun_predicator_compound nouns predicators pos_features common_features w).

(** X19: [_remove_confused_nouns] splits the noun mapping in two: every
    noun, with its score, is either kept or removed and never both, the
    removed ones are those the compound test accepts, each part keeps the
    order of the mapping, and the predicators are handed back unchanged. *)
Theorem remove_confused_nouns_partitions :
  let '(nouns_, removals, predicators') :=
    _remove_confused_nouns nouns predicators pos_features common_features in
  predicators' = predicators
  /\ Permutation nouns (nouns_ ++ removals)
  /\ (forall ns, In ns nouns_ <-> In ns nouns /\ compound (fst ns) = false)
  /\ (forall ns, In ns removals <-> In ns nouns /\ compound (fst ns) = true)
  /\ (forall ns, In ns nouns_ -> ~ In ns removals).
Proof.
  unfold _remove_confused_nouns. split; [reflexivity|]. split; [|split; [|split]].
  - apply (filter_split_perm (fun ns : pystr * score => compound (fst ns))).
  - intros ns. rewrite filter_In, negb_true_iff. reflexivity.
  - intros ns. rewrite filter_In. reflexivity.
  - intros ns H1 H2. apply filter_In in H1. apply filter_In in H2.
    destruct H1 as [_ H1]. destruct H2 as [_ H2].
    rewrite H2 in H1. discriminate.
Qed.

(** X20: a noun is kept whenever it is no predicator and none of its
    suffixes of 1 to [n - 2] characters is a predicator; so a noun of one or
    two characters is removed only if it is itself a predicator. *)
Theorem noun_without_predicator_suffix_is_kept (w : pystr) :
  ~ In w predicators ->
  (forall prefix suffix,
     w = prefix ++ suffix -> 1 <= len suffix <= len w - 2 ->
     ~ In suffix predicators) ->
  compound w = false.
Proof.
  intros Hw Hsuf. unfold _is_noun_predicator_compound.
  replace (str_in w predicators) with false
    by (symmetry; apply not_true_iff_false; rewrite str_in_In; exact Hw).
  apply not_true_iff_false. rewrite existsb_exists.
  intros (i & Hi & H). apply In_py_range_down in Hi.
  assert (Hs : ~ In (slice_from w i) predicators).
  { apply (Hsuf (slice_to w i)).
    - symmetry. apply slice_to_from.
    - rewrite len_slice_from, clamp_index_neg by lia. lia. }
  apply Hs. apply str_in_In.
  apply orb_true_iff in H. destruct H as [H|H];
    apply andb_true_iff in H; destruct H as [_ H]; exact H.
Qed.
End ConfusedNouns.

Lemma noun_without_predicator_suffix_is_kept_witness :
  ~ In Fixtures.ga Fixtures.da_predicators
  /\ (forall prefix suffix,
        Fixtures.ga = prefix ++ suffix -> 1 <= len suffix <= len Fixtures.ga - 2 ->
        ~ In suffix Fixtures.da_predicators)
  /\ _is_noun_predicator_compound Fixtures.noun_scores Fixtures.da_predicators
       Fixtures.na_features [] Fixtures.ga = false.
Proof.
  assert (H1 : ~ In Fixtures.ga Fixtures.da_predicators)
    by (simpl; intros [H|[]]; discriminate).
  assert (H2 : forall prefix suffix,
             Fixtures.ga = prefix ++ suffix ->
             1 <= len suffix <= len Fixtures.ga - 2 ->
             ~ In suffix Fixtures.da_predicators)
    by (intros prefix suffix _ Hlen; unfold Fixtures.ga, len in Hlen;
        simpl in Hlen; lia).
  split; [exact H1|]. split; [exact H2|].
  exact (noun_without_predicator_suffix_is_kept Fixtures.noun_scores
           Fixtures.da_predicators Fixtures.na_features [] Fixtures.ga H1 H2).
Defined.

(** X21: on a dictionary (its tags are distinct, as the keys of a dict
    are), [get_tag] returns exactly the tags under which [check_tag] finds
    the word, each once. *)
Theorem get_tag_lists_the_checked_tags (word : pystr) (dic : dictionary) :
  NoDup (map fst dic) ->
  NoDup (get_tag word dic)
  /\ forall t, In t (get_tag word dic) <-> check_tag word t dic = true.
Proof.
  unfold get_tag, check_tag. induction dic as [|[t0 ws] dic IH]; intros Hnd.
  - simpl. split; [constructor|]. intros t. split; [intros [] | discriminate].
  - inversion Hnd as [|? ? Hnin Hnd']; subst. destruct (IH Hnd') as [IHnd IHin].
    assert (Hsub : forall t,
               In t (map fst (filter (fun tw : tag * list pystr =>
                                        str_in word (snd tw)) dic)) ->
               In t (map fst dic)).
    { intros t Ht. apply in_map_iff in Ht. destruct Ht as (tw & <- & Htw).
      apply filter_In in Htw. apply in_map. tauto. }
    cbn [filter snd dict_get_words]. split.
    + destruct (str_in word ws); [|exact IHnd].
      cbn [map fst]. constructor; [|exact IHnd].
      intros H. apply Hnin. apply Hsub. exact H.
    + intros t. destruct (String.eqb t t0) eqn:Et.
      * apply String.eqb_eq in Et. subst t0.
        destruct (str_in word ws); cbn [map fst].
        -- split; [reflexivity | intros _; left; reflexivity].
        -- split; [|discriminate]. intros H. exfalso. apply Hnin.
           apply Hsub. exact H.
      * apply String.eqb_neq in Et. rewrite <- IHin.
        destruct (str_in word ws); cbn [map fst]; [|reflexivity].
        split; [intros [H|H]; [congruence | exact H] | intros H; right; exact H].
Qed.

Lemma get_tag_lists_the_checked_tags_witness :
  NoDup (map fst Fixtures.na_neun_dic)
  /\ NoDup (get_tag Fixtures.na Fixtures.na_neun_dic)
  /\ forall t, In t (get_tag Fixtures.na Fixtures.na_neun_dic) <->
               check_tag Fixtures.na t Fixtures.na_neun_dic = true.
Proof.
  assert (H : NoDup (map fst Fixtures.na_neun_dic)).
  { simpl. repeat constructor; simpl; intuition discriminate. }
  split; [exact H|].
  exact (get_tag_lists_the_checked_tags Fixtures.na Fixtures.na_neun_dic H).
Defined.

(** ** The offset only moves the records *)

Lemma for_each_map {A St St' : Type} (g : St -> St')
  (body : A -> St -> result St) (body' : A -> St' -> result St') (xs : list A) :
  (forall x st, In x xs -> body' x (g st) = result_map g (body x st)) ->
  forall st, for_each xs body' (g st) = result_map g (for_each xs body st).
Proof.
  induction xs as [|x xs IH]; intros Hbody st; simpl; [reflexivity|].
  rewrite Hbody by (left; reflexivity).
  destruct (body x st) as [st1|err]; simpl; [|reflexivity].
  apply IH. intros y s Hy. apply Hbody. right. exact Hy.
Qed.

Lemma norm_index_map {A B : Type} (g : A -> B) (xs : list A) (i : Z) :
  norm_index (map g xs) i = norm_index xs i.
Proof. unfold norm_index, len. rewrite length_map. reflexivity. Qed.

Lemma replace_nth_map {A B : Type} (g : A -> B) (k : nat) (x : A) (xs : list A) :
  replace_nth k (g x) (map g xs) = map g (replace_nth k x xs).
Proof.
  revert k. induction xs as [|y xs IH]; intros [|k]; simpl; try reflexivity.
  rewrite IH. reflexivity.
Qed.

Lemma extend_at_map {A B : Type} (h : A -> B) (xss : list (list A)) (i : Z)
  (ys : list A) :
  extend_at (map (map h) xss) i (map h ys)
  = result_map (map (map h)) (extend_at xss i ys).
Proof.
  unfold extend_at, getitem, setitem. rewrite norm_index_map.
  destruct (norm_index xss i) as [k|]; [|reflexivity].
  rewrite nth_error_map. destruct (nth_error xss k) as [xs|]; [|reflexivity].
  simpl. rewrite <- map_app, replace_nth_map. reflexivity.
Qed.

Lemma truthy_map {A B : Type} (h : A -> B) (l : list A) :
  truthy (map h l) = truthy l.
Proof. destruct l; reflexivity. Qed.

Lemma shift_lemmatize (word : pystr) (lemmatizer : Lemmatizer) (anchor d : Z)
  (ensure_hangle : bool) :
  map (shift d) (lemmatize word lemmatizer anchor ensure_hangle)
  = lemmatize word lemmatizer (anchor + d) ensure_hangle.
Proof.
  unfold lemmatize.
  destruct (negb ensure_hangle && negb (is_hangle word)); [reflexivity|].
  rewrite map_map. apply map_ext. intros [[[a0 a1] u0] u1].
  unfold shift. simpl. f_equal; lia.
Qed.

Section LROffset.
Variable eojeol : pystr.
Variable lemmatizer : Lemmatizer.
Variable dic : dictionary.
Variable offset : Z.

Lemma lr_lookup_step_shift (i : Z) (bindex : lattice) :
  lr_lookup_step eojeol lemmatizer dic offset i (shift_lattice offset bindex)
  = result_map (shift_lattice offset)
      (lr_lookup_step eojeol lemmatizer dic 0 i bindex).
Proof.
  unfold lr_lookup_step, shift_lattice.
  set (l := slice_to eojeol i). set (r := slice_from eojeol i).
  assert (Hl : lemmatize l lemmatizer offset false
               = map (shift offset) (lemmatize l lemmatizer 0 false))
    by (rewrite shift_lemmatize; reflexivity).
  assert (Hr : lemmatize r lemmatizer (offset + i) false
               = map (shift offset) (lemmatize r lemmatizer (0 + i) false))
    by (rewrite shift_lemmatize; f_equal; lia).
  rewrite Hl, Hr, !truthy_map.
  assert (Hnj : mkEojeol l r Noun (Some Josa) offset (offset + i)
                  (offset + len eojeol)
                = shift offset (mkEojeol l r Noun (Some Josa) 0 (0 + i)
                                  (0 + len eojeol)))
    by (unfold shift; simpl; f_equal; lia).
  assert (Hn : mkEojeol l [] Noun None offset (offset + i) (offset + i)
               = shift offset (mkEojeol l [] Noun None 0 (0 + i) (0 + i)))
    by (unfold shift; simpl; f_equal; lia).
  rewrite Hnj, Hn. unfold append_at.
  change [shift offset ?x] with (map (shift offset) [x]).
  destruct (check_tag l Noun dic && check_tag r Josa dic).
  - rewrite extend_at_map.
    destruct (extend_at bindex 0 _) as [b1|err]; cbn [result_map bind];
      [|reflexivity].
    destruct ((check_tag l Noun dic || truthy (lemmatize l lemmatizer 0 false))
              && truthy (lemmatize r lemmatizer (0 + i) false)); [|reflexivity].
    destruct (check_tag l Noun dic); rewrite extend_at_map;
      (destruct (extend_at b1 0 _) as [b2|err]; cbn [result_map bind];
         [apply extend_at_map | reflexivity]).
  - cbn [bind].
    destruct ((check_tag l Noun dic || truthy (lemmatize l lemmatizer 0 false))
              && truthy (lemmatize r lemmatizer (0 + i) false)); [|reflexivity].
    destruct (check_tag l Noun dic); rewrite extend_at_map;
      (destruct (extend_at bindex 0 _) as [b2|err]; cbn [result_map bind];
         [apply extend_at_map | reflexivity]).
Qed.
End LROffset.

(** X22: the offset of [lr_lookup] only moves the records: looking a token
    up at [offset] raises exactly when looking it up at 0 raises, and
    otherwise returns the lattice of offset 0 with begin, mid and end of
    every record increased by [offset]. *)
Theorem lr_lookup_offset_moves_records (eojeol : pystr) (lemmatizer : Lemmatizer)
  (dic : dictionary) (offset : Z) :
  lr_lookup eojeol lemmatizer dic offset
  = result_map (shift_lattice offset) (lr_lookup eojeol lemmatizer dic 0).
Proof.
  unfold lr_lookup, setitem.
  set (bindex0 := map (fun _ => @nil Eojeol) (py_range 0 (len eojeol))).
  assert (H0 : shift_lattice offset bindex0 = bindex0).
  { unfold bindex0, shift_lattice. rewrite map_map. reflexivity. }
  destruct (norm_index bindex0 0) as [k|]; [|reflexivity]. cbn [bind].
  assert (Hw : lemmatize eojeol lemmatizer offset false
               = map (shift offset) (lemmatize eojeol lemmatizer 0 false))
    by (rewrite shift_lemmatize; reflexivity).
  rewrite Hw.
  replace (replace_nth k (map (shift offset) (lemmatize eojeol lemmatizer 0 false))
             bindex0)
    with (shift_lattice offset
            (replace_nth k (lemmatize eojeol lemmatizer 0 false) bindex0)).
  - apply for_each_map. intros i st _. apply lr_lookup_step_shift.
  - unfold shift_lattice. rewrite <- replace_nth_map. fold (shift_lattice offset bindex0).
    rewrite H0. reflexivity.
Qed.

Lemma for_each_map_both {A A' St St' : Type} (h : A -> A') (g : St -> St')
  (body : A -> St -> result St) (body' : A' -> St' -> result St') (xs : list A) :
  (forall x st, In x xs -> body' (h x) (g st) = result_map g (body x st)) ->
  forall st, for_each (map h xs) body' (g st) = result_map g (for_each xs body st).
Proof.
  induction xs as [|x xs IH]; intros Hbody st; simpl; [reflexivity|].
  rewrite Hbody by (left; reflexivity).
  destruct (body x st) as [st1|err]; simpl; [|reflexivity].
  apply IH. intros y s Hy. apply Hbody. right. exact Hy.
Qed.

Lemma Eojeol_eqb_shift (d : Z) (x y : Eojeol) :
  Eojeol_eqb (shift d x) (shift d y) = Eojeol_eqb x y.
Proof.
  unfold Eojeol_eqb, shift. simpl.
  assert (H : forall u v, (u + d =? v + d) = (u =? v)).
  { intros u v. destruct (u =? v) eqn:E.
    - apply Z.eqb_eq in E. apply Z.eqb_eq. lia.
    - apply Z.eqb_neq in E. apply Z.eqb_neq. lia. }
  rewrite !H. reflexivity.
Qed.

Lemma set_update_shift (d : Z) (xs ys : list Eojeol) :
  set_update (map (shift d) xs) (map (shift d) ys)
  = map (shift d) (set_update xs ys).
Proof.
  unfold set_update. revert xs. induction ys as [|y ys IH]; intros xs; simpl;
    [reflexivity|].
  replace (set_add (shift d y) (map (shift d) xs))
    with (map (shift d) (set_add y xs)); [apply IH|].
  unfold set_add.
  replace (existsb (Eojeol_eqb (shift d y)) (map (shift d) xs))
    with (existsb (Eojeol_eqb y) xs).
  - destruct (existsb (Eojeol_eqb y) xs); [reflexivity|].
    rewrite map_app. reflexivity.
  - induction xs as [|x xs IHx]; simpl; [reflexivity|].
    rewrite Eojeol_eqb_shift, IHx. reflexivity.
Qed.

Section TemplateOffset.
Variable eojeol : pystr.
Variable lemmatizer : Lemmatizer.
Variable dic : dictionary.
Variable templates : list template.
Variables max_len offset : Z.

Let shift_preds (st : list (list raw_span) * list Eojeol) :=
  (fst st, map (shift offset) (snd st)).

Lemma string_match_shift :
  string_match eojeol lemmatizer dic max_len offset
  = result_map shift_preds (string_match eojeol lemmatizer dic max_len 0).
Proof.
  unfold string_match.
  change (map (fun _ : Z => @nil raw_span) (py_range 0 (len eojeol)), @nil Eojeol)
    with (shift_preds (map (fun _ : Z => @nil raw_span) (py_range 0 (len eojeol)),
                       @nil Eojeol)) at 1.
  apply for_each_map. intros lo st _.
  apply for_each_map. intros hi [raw preds] _.
  unfold shift_preds at 1. cbn [fst snd]. cbv beta iota zeta.
  replace (lemmatize (slice eojeol lo hi) lemmatizer (offset + lo) false)
    with (map (shift offset)
            (lemmatize (slice eojeol lo hi) lemmatizer (0 + lo) false))
    by (rewrite shift_lemmatize; f_equal; lia).
  rewrite set_update_shift.
  destruct (for_each (get_tag (slice eojeol lo hi) dic) _ raw) as [raw'|err];
    reflexivity.
Qed.

Lemma apply_template_shift (raw : list (list raw_span)) (span : raw_span)
  (t : template) (bindex_ : lattice) :
  apply_template (len eojeol) offset raw span t (shift_lattice offset bindex_)
  = result_map (shift_lattice offset)
      (apply_template (len eojeol) 0 raw span t bindex_).
Proof.
  destruct span as [[[a0 u0] lo] hi]. unfold apply_template, append_at.
  destruct t as [|x0 [|x1 [|x2 t]]]; try reflexivity.
  - destruct (String.eqb u0 x0); [|reflexivity].
    replace [mkEojeol a0 [] u0 None (offset + lo) (offset + hi) (offset + hi)]
      with (map (shift offset)
              [mkEojeol a0 [] u0 None (0 + lo) (0 + hi) (0 + hi)])
      by (unfold shift; simpl; f_equal; f_equal; lia).
    apply extend_at_map.
  - destruct ((hi <? len eojeol) && String.eqb u0 x0); [|reflexivity].
    destruct (getitem raw hi) as [rights|err]; cbn [bind]; [|reflexivity].
    apply for_each_map. intros [[[a1 u1] mid] hi_] st _.
    destruct (String.eqb u1 x1); [|reflexivity].
    replace [mkEojeol a0 a1 u0 (Some u1) (offset + lo) (offset + mid) (offset + hi_)]
      with (map (shift offset)
              [mkEojeol a0 a1 u0 (Some u1) (0 + lo) (0 + mid) (0 + hi_)])
      by (unfold shift; simpl; f_equal; f_equal; lia).
    apply extend_at_map.
Qed.

Lemma as_eojeol_shift (raw : list (list raw_span)) :
  as_eojeol (len eojeol) offset raw templates
  = result_map (shift_lattice offset) (as_eojeol (len eojeol) 0 raw templates).
Proof.
  unfold as_eojeol.
  set (empty := map (fun _ : Z => @nil Eojeol) (py_range 0 (len eojeol))).
  replace empty with (shift_lattice offset empty) at 1
    by (unfold empty, shift_lattice; rewrite map_map; reflexivity).
  apply for_each_map. intros morphs st _.
  apply for_each_map. intros span st1 _.
  apply for_each_map. intros t st2 _. apply apply_template_shift.
Qed.
End TemplateOffset.

Lemma getitem_map {A B : Type} (g : A -> B) (xs : list A) (i : Z) :
  getitem (map g xs) i = result_map g (getitem xs i).
Proof.
  unfold getitem. rewrite norm_index_map.
  destruct (norm_index xs i) as [k|]; [|reflexivity].
  rewrite nth_error_map. destruct (nth_error xs k); reflexivity.
Qed.

Lemma existsb_map_comp {A B : Type} (f : B -> bool) (h : A -> B) (l : list A) :
  existsb f (map h l) = existsb (fun x => f (h x)) l.
Proof. induction l as [|x l IH]; simpl; [reflexivity | rewrite IH; reflexivity]. Qed.

Lemma filter_map_comp {A B : Type} (f : B -> bool) (h : A -> B) (l : list A) :
  filter f (map h l) = map h (filter (fun x => f (h x)) l).
Proof.
  induction l as [|x l IH]; simpl; [reflexivity|].
  destruct (f (h x)); simpl; rewrite IH; reflexivity.
Qed.

Lemma py_range_shift (lo hi d : Z) :
  py_range (lo + d) (hi + d) = map (fun i => i + d) (py_range lo hi).
Proof.
  unfold py_range. replace (hi + d - (lo + d)) with (hi - lo) by lia.
  rewrite map_map. apply map_ext. intros k. lia.
Qed.

Lemma Z_eqb_shift (u v d : Z) : (u + d =? v + d) = (u =? v).
Proof.
  destruct (u =? v) eqn:E.
  - apply Z.eqb_eq in E. apply Z.eqb_eq. lia.
  - apply Z.eqb_neq in E. apply Z.eqb_neq. lia.
Qed.

Lemma Z_ltb_shift (u v d : Z) : (u + d <? v + d) = (u <? v).
Proof.
  destruct (u <? v) eqn:E.
  - apply Z.ltb_lt in E. apply Z.ltb_lt. lia.
  - apply Z.ltb_ge in E. apply Z.ltb_ge. lia.
Qed.

Section RemoveSubOffset.
Variable d : Z.

Lemma exist_overlap_scan_shift (lo hi : Z) (bindex : lattice) (idx : list Z) :
  exist_overlap_scan d (lo + d) (hi + d) (shift_lattice d bindex)
    (map (fun i => i + d) idx)
  = exist_overlap_scan 0 lo hi bindex idx.
Proof.
  induction idx as [|i idx IH]; simpl; [reflexivity|].
  replace (i + d - d) with (i - 0) by lia.
  unfold shift_lattice at 1. rewrite getitem_map.
  destruct (getitem bindex (i - 0)) as [eojeols|err]; cbn [result_map bind];
    [|reflexivity].
  rewrite existsb_map_comp.
  replace (existsb (fun x => overlaps (lo + d) (hi + d) (shift d x)) eojeols)
    with (existsb (overlaps lo hi) eojeols).
  - destruct (existsb (overlaps lo hi) eojeols); [reflexivity | exact IH].
  - apply existsb_ext_in. intros x _. unfold overlaps, shift. simpl.
    rewrite !Z_ltb_shift. reflexivity.
Qed.

Lemma collect_step_shift (bindex : lattice) (x : Eojeol)
  (st : list bm_entry * list me_entry) :
  collect_step d (shift_lattice d bindex) (shift d x) (shift_pairs d st)
  = result_map (shift_pairs d) (collect_step 0 bindex x st).
Proof.
  destruct st as [bm me]. unfold collect_step, shift_pairs. cbn [fst snd].
  change (w1 (shift d x)) with (w1 x).
  destruct (truthy (w1 x)); [|reflexivity].
  change (m (shift d x)) with (m x + d). change (e (shift d x)) with (e x + d).
  unfold exist_overlap_l. rewrite py_range_shift, exist_overlap_scan_shift.
  destruct (exist_overlap_scan 0 (m x) (e x) bindex (py_range (m x) (e x)))
    as [ov|err]; cbn [bind result_map]; [|reflexivity].
  destruct ov; cbn [negb result_map fst snd]; [reflexivity|].
  rewrite !map_app. reflexivity.
Qed.

Lemma skip_shift (x : Eojeol) (bm : list bm_entry) (me : list me_entry) :
  skip (shift d x) (map (shift_bm d) bm) (map (shift_me d) me) = skip x bm me.
Proof.
  unfold skip. rewrite !existsb_map_comp. f_equal.
  - apply existsb_ext_in. intros [[b' m'] t] _. unfold shift. simpl.
    rewrite !Z_eqb_shift. reflexivity.
  - apply existsb_ext_in. intros [[m' e'] t] _. unfold shift. simpl.
    rewrite Z_eqb_shift, Z_ltb_shift. reflexivity.
Qed.

Lemma remove_sub_step_shift (k : nat) (bindex : lattice) :
  remove_sub_step d k (shift_lattice d bindex)
  = result_map (shift_lattice d) (remove_sub_step 0 k bindex).
Proof.
  unfold remove_sub_step, shift_lattice at 1. rewrite nth_error_map.
  destruct (nth_error bindex k) as [eojeols|]; cbn [option_map]; [|reflexivity].
  unfold collect_pairs.
  change (@nil bm_entry, @nil me_entry) with (shift_pairs d ([], [])) at 1.
  fold (shift_lattice d bindex).
  rewrite (for_each_map_both (shift d) (shift_pairs d)
             (collect_step 0 bindex) (collect_step d (shift_lattice d bindex)))
    by (intros x st _; apply collect_step_shift).
  destruct (for_each eojeols (collect_step 0 bindex) ([], [])) as [[bm me]|err];
    cbn [result_map bind fst snd shift_pairs]; [|reflexivity].
  f_equal. rewrite filter_map_comp.
  rewrite (filter_ext (fun x => negb (skip (shift d x) (map (shift_bm d) bm)
                                        (map (shift_me d) me)))
             (fun x => negb (skip x bm me)))
    by (intros x; rewrite skip_shift; reflexivity).
  unfold shift_lattice. apply replace_nth_map.
Qed.

Lemma remove_sub_shift (bindex : lattice) :
  remove_sub (shift_lattice d bindex) d
  = result_map (shift_lattice d) (remove_sub bindex 0).
Proof.
  unfold remove_sub. unfold shift_lattice at 1. rewrite length_map.
  fold (shift_lattice d bindex).
  apply for_each_map. intros k st _. apply remove_sub_step_shift.
Qed.

Lemma add_predicators_shift (preds : list Eojeol) (bindex : lattice) :
  add_predicators d (map (shift d) preds) (shift_lattice d bindex)
  = result_map (shift_lattice d) (add_predicators 0 preds bindex).
Proof.
  unfold add_predicators. apply for_each_map_both. intros word st _.
  unfold append_at. change (b (shift d word)) with (b word + d).
  replace (b word + d - d) with (b word - 0) by lia.
  apply (extend_at_map (shift d) st (b word - 0) [word]).
Qed.
End RemoveSubOffset.

(** With the set of predicators iterated in the order of first insertion,
    the lattice at [offset] is the lattice at 0 with every record moved. *)
Lemma template_lookup_shift (eojeol : pystr)
  (lemmatizer : Lemmatizer) (dic : dictionary) (templates : list template)
  (max_len offset : Z) :
  template_lookup eojeol lemmatizer dic templates max_len offset
  = result_map (shift_lattice offset)
      (template_lookup eojeol lemmatizer dic templates max_len 0).
Proof.
  unfold template_lookup. rewrite string_match_shift.
  destruct (string_match eojeol lemmatizer dic max_len 0) as [[raw preds]|err];
    cbn [result_map bind fst snd]; [|reflexivity].
  rewrite as_eojeol_shift.
  destruct (as_eojeol (len eojeol) 0 raw templates) as [cands|err];
    cbn [result_map bind]; [|reflexivity].
  rewrite remove_sub_shift.
  destruct (remove_sub cands 0) as [pruned|err]; cbn [result_map bind];
    [|reflexivity].
  apply add_predicators_shift.
Qed.

(** X23: the offset of [template_lookup] only moves the records: the
    lattice for a token at [offset] has as many buckets as the lattice for
    the token at 0, and each bucket holds the records of the same bucket at
    0, each as many times, with begin, mid and end increased by [offset];
    which records are built, pruned and added does not depend on the
    offset.  (The order inside a bucket is left open: the records added
    from the set of predicators come in the order in which the set is
    iterated.) *)
Theorem template_lookup_offset_moves_records (eojeol : pystr)
  (lemmatizer : Lemmatizer) (dic : dictionary) (templates : list template)
  (max_len offset : Z) :
  exists anchored moved,
    template_lookup eojeol lemmatizer dic templates max_len 0 = Ok anchored
    /\ template_lookup eojeol lemmatizer dic templates max_len offset = Ok moved
    /\ len moved = len anchored
    /\ forall k, Permutation (nth k moved [])
                   (map (shift offset) (nth k anchored [])).
Proof.
  destruct (template_lookup_returns eojeol lemmatizer dic templates max_len 0)
    as (anchored & E0 & _).
  exists anchored, (shift_lattice offset anchored).
  split; [exact E0|]. split; [rewrite template_lookup_shift, E0; reflexivity|].
  split; [unfold shift_lattice, len; rewrite length_map; reflexivity|].
  intros k. unfold shift_lattice.
  change (@nil Eojeol) with (map (shift offset) []) at 1.
  rewrite map_nth. apply Permutation_refl.
Qed.

(** ** Exceptions through the cache *)

Lemma dict_lookup_mem {V : Type} (d : list (pystr * V)) (k : pystr) :
  dict_mem d k = true -> exists v, dict_lookup d k = Ok v.
Proof.
  unfold dict_mem. induction d as [|[k' v] d IH]; simpl; [discriminate|].
  destruct (str_eqb k k'); simpl; [eauto | exact IH].
Qed.

(** X24: on a cache whose two dicts have the same keys, [eojeol_lookup]
    raises only what the wrapped strategy raises: an exception means that
    the token had no count, that the strategy was called and raised it, and
    that the cache is as it was (no KeyError comes from the buffer). *)
Theorem eojeol_lookup_raises_only_what_the_strategy_raises {St : Type}
  (lookup : Strategy St) (self : LookupBuffer) (eojeol : pystr) (offset : Z)
  (st : St) :
  cache_wf self ->
  let '(res, self', st') := eojeol_lookup lookup self eojeol offset st in
  match res with
  | Ok _ => True
  | Raise err =>
      dict_get (_buffer_counter self) eojeol 0 = 0
      /\ lookup eojeol offset st = (Raise err, st')
      /\ self' = self
  end.
Proof.
  intros (_ & _ & Hk). unfold eojeol_lookup.
  destruct (dict_get (_buffer_counter self) eojeol 0 =? 0) eqn:E0.
  - apply Z.eqb_eq in E0.
    destruct (lookup eojeol offset st) as [[r|err] st']; [exact I | auto].
  - apply Z.eqb_neq in E0. apply dict_get_nonzero_mem in E0.
    apply dict_mem_In in E0. apply Hk in E0. apply dict_mem_In in E0.
    destruct (dict_lookup_mem _ _ E0) as (v & ->). exact I.
Qed.

Lemma eojeol_lookup_raises_only_what_the_strategy_raises_witness :
  cache_wf Fixtures.three_tokens
  /\ let '(res, self', st') :=
       eojeol_lookup Fixtures.na_neun_strategy Fixtures.three_tokens [] 0 tt in
     match res with
     | Ok _ => True
     | Raise err =>
         dict_get (_buffer_counter Fixtures.three_tokens) [] 0 = 0
         /\ Fixtures.na_neun_strategy [] 0 tt = (Raise err, st')
         /\ self' = Fixtures.three_tokens
     end.
Proof.
  split; [exact three_tokens_wf|].
  exact (eojeol_lookup_raises_only_what_the_strategy_raises
           Fixtures.na_neun_strategy Fixtures.three_tokens [] 0 tt three_tokens_wf).
Defined.

(** * Construction, with and without a lemmatizer *)

(** C7, as the code has it: with [max_word_len] left at 0, as it always is
    for [TemplateLookup], the length is derived by one scan of all the
    entries, and a derived length that is not positive fails nothing.  An
    [LRLookup] given a lemmatizer raises ValueError exactly when the
    dictionary has no tag at all; built without a lemmatizer it raises
    KeyError exactly when one of the tags Adjective, Verb and Eomi is not
    in the dictionary.  A [TemplateLookup] raises in the same cases and,
    past them, ValueError exactly when one of its templates (the default
    ones when none are given) has more than two slots.  In every other case
    the construction succeeds, on the dictionary given and with the length
    of its longest word, which is 0 when the tags have no word. *)
Theorem LRLookup_init_derives_max_word_len (new_lemmatizer : LemmatizerClass)
  (dic : dictionary) (lemmatizer : option Lemmatizer)
  (templates : option (list template)) (formal : bool) :
  let given := match templates with
               | None => default_templates
               | Some ts => ts
               end in
  match LRLookup_init new_lemmatizer dic 0 lemmatizer with
  | Ok self =>
      dic <> []
      /\ (lemmatizer = None -> has_lemmatizer_tags dic)
      /\ pos_to_words self = dic
      /\ max_word_len self = longest_word dic
  | Raise err =>
      (lemmatizer = None /\ err = KeyError /\ ~ has_lemmatizer_tags dic)
      \/ (lemmatizer <> None /\ err = ValueError /\ dic = [])
  end
  /\ match TemplateLookup_init new_lemmatizer dic templates formal lemmatizer with
     | Ok self =>
         dic <> []
         /\ (lemmatizer = None -> has_lemmatizer_tags dic)
         /\ (forall t, In t given -> len t <= 2)
         /\ pos_to_words (base self) = dic
         /\ max_word_len (base self) = longest_word dic
     | Raise err =>
         (lemmatizer = None /\ err = KeyError /\ ~ has_lemmatizer_tags dic)
         \/ (lemmatizer <> None /\ err = ValueError /\ dic = [])
         \/ (dic <> [] /\ (lemmatizer = None -> has_lemmatizer_tags dic)
             /\ err = ValueError /\ exists t, In t given /\ 2 < len t)
     end.
Proof.
  intros given.
  assert (Hscan : forall lem,
            (lem' <- Ok lem ;;
             max_word_len <- _check_max_word_len dic 0 ;;
             Ok (mkLRLookup dic max_word_len true lem'))
            = match dic with
              | [] => Raise ValueError
              | _ => Ok (mkLRLookup dic (longest_word dic) true lem)
              end).
  { intros lem. cbn [bind]. unfold _check_max_word_len.
    destruct dic as [|entry dic']; [reflexivity|].
    cbn [bind]. rewrite check_max_word_len_fold by lia.
    pose proof (longest_word_nonneg (entry :: dic')).
    rewrite Z.max_r by lia. reflexivity. }
  assert (Hlr : match LRLookup_init new_lemmatizer dic 0 lemmatizer with
                | Ok self =>
                    dic <> []
                    /\ (lemmatizer = None -> has_lemmatizer_tags dic)
                    /\ pos_to_words self = dic
                    /\ max_word_len self = longest_word dic
                | Raise err =>
                    (lemmatizer = None /\ err = KeyError
                     /\ ~ has_lemmatizer_tags dic)
                    \/ (lemmatizer <> None /\ err = ValueError /\ dic = [])
                end).
  { unfold LRLookup_init. change (0 =? 0) with true. cbv iota.
    destruct lemmatizer as [lem|].
    - rewrite Hscan. destruct dic as [|entry dic'].
      + right. split; [discriminate|]. split; reflexivity.
      + cbn [pos_to_words max_word_len].
        split; [discriminate|]. split; [discriminate|]. split; reflexivity.
    - unfold _set_lemmatizer, has_lemmatizer_tags.
      pose proof (dict_getitem_spec dic "Adjective") as Ha.
      pose proof (dict_getitem_spec dic "Verb") as Hv.
      pose proof (dict_getitem_spec dic "Eomi") as He.
      destruct (dict_getitem dic "Adjective") as [a|err]; cbn [bind];
        [|destruct Ha as [-> Ha]; left; split; [reflexivity|];
          split; [reflexivity | tauto]].
      destruct (dict_getitem dic "Verb") as [v|err]; cbn [bind];
        [|destruct Hv as [-> Hv]; left; split; [reflexivity|];
          split; [reflexivity | tauto]].
      destruct (dict_getitem dic "Eomi") as [eo|err]; cbn [bind];
        [|destruct He as [-> He]; left; split; [reflexivity|];
          split; [reflexivity | tauto]].
      pose proof (Hscan (new_lemmatizer a v eo true)) as Hs.
      cbn [bind] in Hs. rewrite Hs.
      destruct dic as [|entry dic']; [destruct Ha|].
      cbn [pos_to_words max_word_len].
      split; [discriminate|]. split; [tauto|]. split; reflexivity. }
  split; [exact Hlr|].
  unfold TemplateLookup_init. fold given.
  destruct (LRLookup_init new_lemmatizer dic 0 lemmatizer) as [self|err];
    cbn [bind].
  - destruct Hlr as (Hdic & Htags & Hwords & Hlen).
    destruct (_template_format_check given) as [ts|err] eqn:E; cbn [bind].
    + apply template_format_check_Ok in E. destruct E as (Hle & _).
      cbn [base]. repeat (split; [assumption|]). assumption.
    + apply template_format_check_Raise in E. destruct E as (-> & Hlong).
      right. right. repeat (split; [assumption|]).
      split; [reflexivity | exact Hlong].
  - destruct Hlr as [H|H]; [left | right; left]; exact H.
Qed.

(** * Sentences: what the offsets of the records delimit *)

Lemma lemmatize_In (lemmatizer : Lemmatizer) (word : pystr) (offset : Z)
  (ensure_hangle : bool) (x : Eojeol) :
  In x (lemmatize word lemmatizer offset ensure_hangle) ->
  In (w0 x, w1 x, t0 x, t1 x) (lemmatizer word)
  /\ b x = offset /\ m x = offset + len (w0 x) /\ e x = offset + len word.
Proof.
  unfold lemmatize.
  destruct (negb ensure_hangle && negb (is_hangle word)); [intros []|].
  intros H. apply in_map_iff in H.
  destruct H as ([[[a0 a1] u0] u1] & <- & Hin). simpl. auto.
Qed.

Lemma firstn_skipn_app_middle {A : Type} (pre tok post : list A) (lo hi : nat) :
  (lo <= hi <= List.length tok)%nat ->
  firstn (List.length pre + hi - (List.length pre + lo))
    (skipn (List.length pre + lo) (pre ++ tok ++ post))
  = firstn (hi - lo) (skipn lo tok).
Proof.
  intros H. rewrite skipn_app, skipn_all2 by lia. cbn [app].
  replace (List.length pre + lo - List.length pre)%nat with lo by lia.
  rewrite skipn_app. replace (lo - List.length tok)%nat with 0%nat by lia.
  cbn [skipn]. rewrite firstn_app, length_skipn.
  replace (List.length pre + hi - (List.length pre + lo)
           - (List.length tok - lo))%nat with 0%nat by lia.
  cbn [firstn]. rewrite app_nil_r. f_equal. lia.
Qed.

(** A slice of a token is the slice of the text around it, at the positions
    counted from the start of the text. *)
Lemma slice_app_middle {A : Type} (pre tok post : list A) (lo hi : Z) :
  0 <= lo <= hi -> hi <= len tok ->
  slice (pre ++ tok ++ post) (len pre + lo) (len pre + hi) = slice tok lo hi.
Proof.
  intros Hlo Hhi. unfold slice.
  rewrite !clamp_index_nonneg by (rewrite ?len_app; unfold len in *; lia).
  replace (Z.to_nat (len pre + lo)) with (List.length pre + Z.to_nat lo)%nat
    by (unfold len; lia).
  replace (Z.to_nat (len pre + hi)) with (List.length pre + Z.to_nat hi)%nat
    by (unfold len; lia).
  apply firstn_skipn_app_middle. unfold len in *. lia.
Qed.

Lemma slice_to_slice {A : Type} (s : list A) (i : Z) :
  slice_to s i = slice s 0 (Z.of_nat (clamp_index s i)).
Proof.
  pose proof (clamp_index_le s i) as Hle. unfold slice, slice_to.
  rewrite (clamp_index_nonneg s 0) by (unfold len; lia).
  rewrite (clamp_index_nonneg s (Z.of_nat _)) by (unfold len; lia).
  rewrite Nat2Z.id. change (Z.to_nat 0) with 0%nat.
  rewrite Nat.sub_0_r. reflexivity.
Qed.

Lemma slice_from_slice {A : Type} (s : list A) (k : Z) :
  0 <= k <= len s -> slice_from s k = slice s k (len s).
Proof.
  intros Hk. unfold slice, slice_from.
  rewrite (clamp_index_nonneg s (len s)) by (unfold len in *; lia).
  rewrite firstn_all2; [reflexivity|].
  rewrite length_skipn, clamp_index_nonneg by exact Hk. unfold len. lia.
Qed.

Lemma slice_empty {A : Type} (s : list A) (k : Z) : slice s k k = [].
Proof. unfold slice. rewrite Nat.sub_diag. reflexivity. Qed.

(** The two ways in which a record of a token looked up at [offset] reads
    the token. *)
Lemma positions_dictionary (lemmatizer : Lemmatizer) (eojeol : pystr)
  (offset lo mid hi : Z) (x : Eojeol) :
  0 <= lo <= mid -> mid <= hi <= len eojeol ->
  b x = offset + lo -> m x = offset + mid -> e x = offset + hi ->
  w0 x = slice eojeol lo mid -> w1 x = slice eojeol mid hi ->
  positions_in lemmatizer eojeol (shift (- offset) x).
Proof.
  intros Hlo Hhi Hb Hm He H0 H1. unfold positions_in, shift.
  cbn [b m e w0 w1 t0 t1]. rewrite Hb, Hm, He.
  replace (offset + lo + - offset) with lo by lia.
  replace (offset + mid + - offset) with mid by lia.
  replace (offset + hi + - offset) with hi by lia.
  split; [lia|]. split; [lia|]. left. split; [lia|]. split; assumption.
Qed.

Lemma positions_analysis (lemmatizer : Lemmatizer) (eojeol : pystr)
  (offset lo hi : Z) (ensure_hangle : bool) (x : Eojeol) :
  0 <= lo <= hi -> hi <= len eojeol ->
  In x (lemmatize (slice eojeol lo hi) lemmatizer (offset + lo) ensure_hangle) ->
  positions_in lemmatizer eojeol (shift (- offset) x).
Proof.
  intros Hlo Hhi Hin. apply lemmatize_In in Hin.
  destruct Hin as (Hin & Hb & Hm & He).
  rewrite len_slice in He by assumption.
  unfold positions_in, shift. cbn [b m e w0 w1 t0 t1]. rewrite Hm, Hb, He.
  replace (offset + lo + - offset) with lo by lia.
  replace (offset + lo + (hi - lo) + - offset) with hi by lia.
  split; [lia|]. split; [lia|]. right. split; [exact Hin | lia].
Qed.

(** A record that reads a token at the offset of the token reads the text
    in which the token stands. *)
Lemma positions_in_app (lemmatizer : Lemmatizer) (pre eojeol post : pystr)
  (x : Eojeol) :
  positions_in lemmatizer eojeol (shift (- len pre) x) ->
  positions_in lemmatizer (pre ++ eojeol ++ post) x.
Proof.
  unfold positions_in, shift. cbn [b m e w0 w1 t0 t1].
  intros (Hb & He & H).
  assert (Hpre : 0 <= len pre) by (unfold len; lia).
  assert (Hpost : 0 <= len post) by (unfold len; lia).
  assert (Hslice : forall u v,
            0 <= u + - len pre <= v + - len pre ->
            v + - len pre <= len eojeol ->
            slice (pre ++ eojeol ++ post) u v
            = slice eojeol (u + - len pre) (v + - len pre)).
  { intros u v Hu Hv. rewrite <- (slice_app_middle pre eojeol post) by assumption.
    f_equal; lia. }
  split; [lia|]. split; [rewrite !len_app; lia|].
  destruct H as [(Hm & H0 & H1)|(Hin & Hm)].
  - left. split; [lia|]. rewrite !Hslice by lia. split; assumption.
  - right. split; [|lia]. rewrite Hslice by lia. exact Hin.
Qed.

Lemma lr_lookup_positions (eojeol : pystr) (lemmatizer : Lemmatizer)
  (dic : dictionary) (offset : Z) (bindex : lattice) :
  lr_lookup eojeol lemmatizer dic offset = Ok bindex ->
  forall k x, In x (nth k bindex []) ->
    positions_in lemmatizer eojeol (shift (- offset) x).
Proof.
  intros E k x Hx. pose proof (lr_lookup_len _ _ _ _ _ E) as Hlen.
  assert (Hk : Z.of_nat k < len eojeol).
  { destruct (Nat.lt_ge_cases k (List.length bindex)) as [H|H];
      [unfold len in *; lia|].
    rewrite nth_overflow in Hx by exact H. destruct Hx. }
  destruct (lr_lookup_sourced _ _ _ _ _ E k x Hx)
    as [Hb [(word & Hw & Hin)|(-> & i & Hi & Hn & [(Hj & ->)|(Hl & ->)])]].
  - destruct Hw as [(-> & i & ->)| ->].
    + rewrite slice_to_slice in Hin.
      pose proof (clamp_index_le eojeol i) as Hle.
      eapply positions_analysis; [| |exact Hin]; unfold len; lia.
    + rewrite slice_from_slice in Hin by lia.
      eapply positions_analysis; [| |exact Hin]; lia.
  - apply positions_dictionary with (lo := 0) (mid := i) (hi := len eojeol);
      cbn [b m e w0 w1]; try lia.
    + rewrite slice_to_slice, clamp_index_nonneg by lia.
      rewrite Z2Nat.id by lia. reflexivity.
    + apply slice_from_slice. lia.
  - apply positions_dictionary with (lo := 0) (mid := i) (hi := i);
      cbn [b m e w0 w1]; try lia.
    + rewrite slice_to_slice, clamp_index_nonneg by lia.
      rewrite Z2Nat.id by lia. reflexivity.
    + symmetry. apply slice_empty.
Qed.

Lemma template_lookup_positions (eojeol : pystr) (lemmatizer : Lemmatizer)
  (dic : dictionary) (templates : list template) (max_len offset : Z)
  (bindex : lattice) :
  template_lookup eojeol lemmatizer dic templates max_len offset = Ok bindex ->
  forall k x, In x (nth k bindex []) ->
    positions_in lemmatizer eojeol (shift (- offset) x).
Proof.
  intros E k x Hx.
  destruct (template_lookup_sources eojeol lemmatizer dic templates max_len offset)
    as (bindex' & E' & _ & Hsrc).
  assert (bindex' = bindex) by congruence. subst bindex'.
  destruct (Hsrc k x Hx) as [(hi & Hhi & _ & Hin)|[H|H]].
  - eapply positions_analysis; [| |exact Hin]; lia.
  - destruct H as (hi & u & Hhi & _ & _ & _ & ->).
    apply positions_dictionary with (lo := Z.of_nat k) (mid := hi) (hi := hi);
      cbn [b m e w0 w1]; try lia; try reflexivity.
    symmetry. apply slice_empty.
  - destruct H as (mid & hi & u0 & u1 & Hmid & Hhi & _ & _ & _ & _ & _ & ->).
    apply positions_dictionary with (lo := Z.of_nat k) (mid := mid) (hi := hi);
      cbn [b m e w0 w1]; try lia; reflexivity.
Qed.

(** Token after token: the records of a sentence read the tokens put end to
    end. *)
Lemma lookup_tokens_positions (f : pystr -> Z -> result lattice)
  (lemmatizer : Lemmatizer) :
  (forall eojeol offset r,
     f eojeol offset = Ok r ->
     forall k x, In x (nth k r []) ->
       positions_in lemmatizer eojeol (shift (- offset) x)) ->
  forall eojeols pre res,
    lookup_tokens f eojeols (len pre) = Ok res ->
    forall bucket x, In bucket res -> In x bucket ->
      positions_in lemmatizer (pre ++ List.concat eojeols) x.
Proof.
  intros Hf. induction eojeols as [|eojeol rest IH]; intros pre res; simpl.
  - intros [= <-] bucket x [].
  - destruct (f eojeol (len pre)) as [r|err] eqn:E; cbn [bind]; [|discriminate].
    destruct (lookup_tokens f rest (len pre + len eojeol)) as [rs|err] eqn:Er;
      cbn [bind]; [|discriminate].
    intros [= <-] bucket x Hbucket Hx. apply in_app_or in Hbucket.
    destruct Hbucket as [Hbucket|Hbucket].
    + apply positions_in_app.
      destruct (In_nth _ _ [] Hbucket) as (k & _ & Hk).
      apply (Hf _ _ _ E k). rewrite Hk. exact Hx.
    + rewrite app_assoc. rewrite <- len_app in Er.
      apply (IH _ _ Er bucket x Hbucket Hx).
Qed.

(** C6, as the code has it: [sentence_lookup] of the LR strategy and of the
    template strategy looks each token up at the offset that counts the
    characters of the tokens before it, and [sentence_lookup] of a fresh
    cache over either strategy gives the same result when no token occurs
    twice.  The tokens put end to end are the normalized sentence without
    its whitespace, and it is this text that the offsets of the records
    refer to: the lattice has one bucket for each of its characters, a
    record of bucket [k] begins at [k] and ends within the text, the
    characters from begin to end are what the record was built from, and
    for a record built from dictionary words mid is the position between
    its two parts; for a record built by the lemmatizer mid is begin plus
    the length of the stem.  The LR strategy may raise; the template
    strategy returns for every sentence. *)
Theorem sentence_lookup_offsets_skip_whitespace (lr : LRLookup)
  (tl : TemplateLookup) (sentence : pystr) :
  let eojeols := split (remove_doublespace sentence) in
  let text := filter (fun c => negb (is_space c)) (remove_doublespace sentence) in
  List.concat eojeols = text
  /\ LRLookup_sentence_lookup lr sentence
     = lookup_tokens (LRLookup_eojeol_lookup lr) eojeols 0
  /\ TemplateLookup_sentence_lookup tl sentence
     = lookup_tokens (TemplateLookup_eojeol_lookup tl) eojeols 0
  /\ (NoDup eojeols ->
      fst (fst (sentence_lookup (stateless (LRLookup_eojeol_lookup lr))
                  (LookupBuffer_init None) sentence tt))
      = LRLookup_sentence_lookup lr sentence
      /\ fst (fst (sentence_lookup (stateless (TemplateLookup_eojeol_lookup tl))
                     (LookupBuffer_init None) sentence tt))
         = TemplateLookup_sentence_lookup tl sentence)
  /\ (forall result,
        LRLookup_sentence_lookup lr sentence = Ok result ->
        len result = len text
        /\ forall k x, In x (nth k result []) ->
             b x = Z.of_nat k /\ positions_in (lemmatizer_of lr) text x)
  /\ (exists result,
        TemplateLookup_sentence_lookup tl sentence = Ok result
        /\ len result = len text
        /\ forall k x, In x (nth k result []) ->
             b x = Z.of_nat k /\ positions_in (lemmatizer_of (base tl)) text x).
Proof.
  intros eojeols text.
  assert (Hlr : forall eojeol offset bindex,
             LRLookup_eojeol_lookup lr eojeol offset = Ok bindex ->
             len bindex = len eojeol)
    by (intros eojeol offset bindex; apply lr_lookup_len).
  assert (Htl : forall eojeol offset bindex,
             TemplateLookup_eojeol_lookup tl eojeol offset = Ok bindex ->
             len bindex = len eojeol)
    by (intros eojeol offset bindex E;
        apply (template_strategy_lattice tl _ _ _ E)).
  assert (Htext : List.concat eojeols = text) by apply split_concat.
  assert (Elr : LRLookup_sentence_lookup lr sentence
                = lookup_tokens (LRLookup_eojeol_lookup lr) eojeols 0)
    by (apply sentence_lookup_with_offsets; exact Hlr).
  assert (Etl : TemplateLookup_sentence_lookup tl sentence
                = lookup_tokens (TemplateLookup_eojeol_lookup tl) eojeols 0)
    by (apply sentence_lookup_with_offsets; exact Htl).
  assert (Hcached : forall f,
            (forall eojeol offset bindex,
               f eojeol offset = Ok bindex -> len bindex = len eojeol) ->
            NoDup eojeols ->
            fst (fst (sentence_lookup (stateless f) (LookupBuffer_init None)
                        sentence tt))
            = lookup_tokens f eojeols 0).
  { intros f Hf Hnd. unfold sentence_lookup. fold eojeols.
    rewrite (cached_sentence_first_occurrences _ eojeols Hf Hnd []).
    - change (len (@nil (list Eojeol))) with 0.
      destruct (lookup_tokens f eojeols 0); reflexivity.
    - intros t _. reflexivity. }
  assert (Hrecords : forall f lemmatizer result,
            (forall eojeol offset r,
               f eojeol offset = Ok r ->
               len r = len eojeol
               /\ forall k x, In x (nth k r []) -> b x = offset + Z.of_nat k) ->
            (forall eojeol offset r,
               f eojeol offset = Ok r ->
               forall k x, In x (nth k r []) ->
                 positions_in lemmatizer eojeol (shift (- offset) x)) ->
            lookup_tokens f eojeols 0 = Ok result ->
            len result = len text
            /\ forall k x, In x (nth k result []) ->
                 b x = Z.of_nat k /\ positions_in lemmatizer text x).
  { intros f lemmatizer result Hb Hpos E.
    destruct (lookup_tokens_lattice f Hb _ _ _ E) as [Hlen Hbegin].
    split; [rewrite Hlen, Htext; reflexivity|].
    intros k x Hx. split; [rewrite (Hbegin k x Hx); lia|].
    rewrite <- Htext.
    apply (lookup_tokens_positions f lemmatizer Hpos eojeols [] result E
             (nth k result [])); [|exact Hx].
    apply nth_In. destruct (Nat.lt_ge_cases k (List.length result)) as [H|H];
      [exact H|].
    rewrite nth_overflow in Hx by exact H. destruct Hx. }
  split; [exact Htext|]. split; [exact Elr|]. split; [exact Etl|].
  split; [|split].
  - intros Hnd. split.
    + rewrite Elr. apply Hcached; assumption.
    + rewrite Etl. apply Hcached; assumption.
  - intros result E. rewrite Elr in E.
    apply (Hrecords (LRLookup_eojeol_lookup lr) (lemmatizer_of lr) result);
      [apply lr_strategy_lattice | | exact E].
    intros eojeol offset r. apply lr_lookup_positions.
  - destruct (lookup_tokens_returns (TemplateLookup_eojeol_lookup tl) eojeols
                (fun e0 o _ => template_strategy_returns tl e0 o) 0) as (res & E).
    exists res. split; [rewrite Etl; exact E|].
    apply (Hrecords (TemplateLookup_eojeol_lookup tl)
             (lemmatizer_of (base tl)) res);
      [apply template_strategy_lattice | | exact E].
    intros eojeol offset r. apply template_lookup_positions.
Qed.
